(** * bokpipe: a shallow embedding of [bokpipe/bokproc.py]

    The calibration pipeline of the 90Prime imager (16 amplifiers, 4 CCDs)
    is embedded function by function.  Python values that the code inspects
    dynamically (region arguments, header cards) are a small universe
    [pyobj]; exceptions are the [Raise] branch of [result]; numpy arrays
    are lists of rows; masked arrays carry one mask bit per sample.

    Part I holds the definitions, in the order of the source file.
    Part II holds the lemmas and theorems. *)

From Stdlib Require Import ZArith QArith Qcanon String Ascii List Lia.
From stdpp Require Import base option list strings gmap numbers pretty sorting.
Import ListNotations.

Set Warnings "-register-all".
Local Open Scope Z_scope.
Local Open Scope string_scope.

(* ===================================================================== *)
(** * Part I: definitions *)
(* ===================================================================== *)

(** ** Exceptions *)

(** A raised exception is identified by the name of its class. *)
Inductive exn : Type :=
| Exn (class_name : string).

Global Instance exn_eq_dec : EqDecision exn.
Proof. solve_decision. Defined.

Abbreviation ValueError := (Exn "ValueError").
Abbreviation IndexError := (Exn "IndexError").
Abbreviation KeyError := (Exn "KeyError").
Abbreviation TypeError := (Exn "TypeError").
Abbreviation AttributeError := (Exn "AttributeError").
Abbreviation NameError := (Exn "NameError").
Abbreviation IOError := (Exn "IOError").
Abbreviation MaskError := (Exn "MaskError").

Inductive result (A : Type) : Type :=
| Ok (a : A)
| Raise (e : exn).
Arguments Ok {A} a.
Arguments Raise {A} e.

Global Instance result_eq_dec {A} `{EqDecision A} : EqDecision (result A).
Proof. solve_decision. Defined.

Global Instance result_ret : MRet result := fun A a => Ok a.
Global Instance result_bind : MBind result := fun A B f m =>
  match m with
  | Ok a => f a
  | Raise e => Raise e
  end.
Global Instance result_fmap : FMap result := fun A B f m =>
  match m with
  | Ok a => Ok (f a)
  | Raise e => Raise e
  end.

Definition is_ok {A} (r : result A) : bool :=
  match r with Ok _ => true | Raise _ => false end.

(** [d[k]] on a dictionary: a missing key is a [KeyError]. *)
Definition of_option {A} (e : exn) (o : option A) : result A :=
  match o with Some a => Ok a | None => Raise e end.

(** Monadic map over a list, left to right, stopping at the first raise
    (a list comprehension whose body can raise). *)
Fixpoint mapR {A B} (f : A -> result B) (l : list A) : result (list B) :=
  match l with
  | [] => Ok []
  | x :: l' => y ← f x; ys ← mapR f l'; Ok (y :: ys)
  end.

(** ** Numbers *)

(** Finite floating-point values are exact rationals in lowest terms; the
    float32/float64 rounding of the source is not modelled.  [NonFinite]
    stands for an IEEE result that is not a finite number: the [nan] of
    [0/0], the [inf] of [x/0], and whatever is computed from them. *)
Inductive num : Type :=
| Fin (q : Qc)
| NonFinite.

Global Instance num_eq_dec : EqDecision num.
Proof. solve_decision. Defined.

Definition nlift2 (f : Qc -> Qc -> Qc) (a b : num) : num :=
  match a, b with
  | Fin x, Fin y => Fin (f x y)
  | _, _ => NonFinite
  end.

Definition nadd : num -> num -> num := nlift2 Qcplus.
Definition nsub : num -> num -> num := nlift2 Qcminus.
Definition nmul : num -> num -> num := nlift2 Qcmult.

(** numpy division: dividing by zero gives [inf] or [nan] (with a warning),
    not an exception. *)
Definition ndiv (a b : num) : num :=
  match a, b with
  | Fin x, Fin y => if decide (y = 0%Qc) then NonFinite else Fin (x / y)%Qc
  | _, _ => NonFinite
  end.

Definition Qcabs (x : Qc) : Qc := if decide (x < 0)%Qc then (- x)%Qc else x.
Definition Qcmax (x y : Qc) : Qc := if decide (x < y)%Qc then y else x.
Definition Qcsign (x : Qc) : Qc :=
  if decide (x < 0)%Qc then (- 1)%Qc
  else if decide (0 < x)%Qc then 1%Qc else 0%Qc.

Definition nabs (a : num) : num :=
  match a with Fin x => Fin (Qcabs x) | NonFinite => NonFinite end.
Definition nmax : num -> num -> num := nlift2 Qcmax.
Definition nsign (a : num) : num :=
  match a with Fin x => Fin (Qcsign x) | NonFinite => NonFinite end.
Definition nneg (a : num) : num :=
  match a with Fin x => Fin (- x)%Qc | NonFinite => NonFinite end.

Definition Qc_of (z : Z) : Qc := Q2Qc (inject_Z z).
Definition nZ (z : Z) : num := Fin (Qc_of z).

(** A decimal literal [n / 10^k]. *)
Definition dec (n : Z) (k : nat) : Qc := Q2Qc (n # Pos.of_nat (10 ^ k)).

(** ** Python objects *)

(** The values that travel through keyword arguments and FITS headers. *)
Inductive pyobj : Type :=
| PyNone
| PyBool (b : bool)
| PyInt (z : Z)
| PyFloat (x : num)
| PyStr (s : string)
| PyTuple (l : list pyobj).

(** [o == s] for a string literal [s]: objects of another type are never
    equal to a string. *)
Definition py_eq_str (o : pyobj) (s : string) : bool :=
  match o with
  | PyStr t => bool_decide (t = s)
  | _ => false
  end.

(** A number read from a header or passed by keyword. *)
Definition as_num (o : pyobj) : result num :=
  match o with
  | PyInt z => Ok (nZ z)
  | PyFloat x => Ok x
  | PyBool b => Ok (nZ (if b then 1 else 0))
  | _ => Raise TypeError
  end.

(** Python arithmetic on header values: [int op int] stays an [int],
    anything with a float is a float. *)
Definition py_arith (fz : Z -> Z -> Z) (fn : num -> num -> num)
  (a b : pyobj) : result pyobj :=
  match a, b with
  | PyInt x, PyInt y => Ok (PyInt (fz x y))
  | _, _ => x ← as_num a; y ← as_num b; Ok (PyFloat (fn x y))
  end.
Definition py_add := py_arith Z.add nadd.
Definition py_sub := py_arith Z.sub nsub.

(** ** Slices and arrays *)

(** A 2-D numpy array: the list of its rows. *)
Abbreviation image A := (list (list A)).

(** A 3-D array indexed [row, column, frame]. *)
Abbreviation cube A := (list (list (list A))).

(** [l[lo:hi]] with Python's rules: a negative bound counts from the end,
    bounds are clipped to the length, [None] is the open end. *)
Definition slice_index (n i : Z) : Z :=
  if decide (i < 0) then Z.max 0 (i + n) else Z.min i n.

Definition py_slice {A} (lo hi : option Z) (l : list A) : list A :=
  let n := Z.of_nat (length l) in
  let a := from_option (slice_index n) 0 lo in
  let b := from_option (slice_index n) n hi in
  take (Z.to_nat (b - a)) (drop (Z.to_nat a) l).

(** [im[y1:y2, x1:x2]] *)
Definition slice2 {A} (y1 y2 x1 x2 : option Z) (im : image A) : image A :=
  map (py_slice x1 x2) (py_slice y1 y2 im).

(** A slice bound taken from a Python object: an integer or [None]. *)
Definition slice_bound (o : pyobj) : result (option Z) :=
  match o with
  | PyInt z => Ok (Some z)
  | PyNone => Ok None
  | _ => Raise TypeError
  end.

(** [x1,x2,y1,y2 = t]: unpacking needs a sequence of exactly four. *)
Definition unpack4 (o : pyobj) : result (pyobj * pyobj * pyobj * pyobj) :=
  match o with
  | PyTuple [a; b; c; d] => Ok (a, b, c, d)
  | PyTuple _ => Raise ValueError
  | PyStr s =>
      match s with
      | String a (String b (String c (String d EmptyString))) =>
          Ok (PyStr (String a ""), PyStr (String b ""),
              PyStr (String c ""), PyStr (String d ""))
      | _ => Raise ValueError
      end
  | _ => Raise TypeError
  end.

(** [im[y1:y2, x1:x2]] with the bounds still Python objects. *)
Definition slice_region {A} (reg : pyobj * pyobj * pyobj * pyobj)
  (im : image A) : result (image A) :=
  let '(x1, x2, y1, y2) := reg in
  by1 ← slice_bound y1; by2 ← slice_bound y2;
  bx1 ← slice_bound x1; bx2 ← slice_bound x2;
  Ok (slice2 by1 by2 bx1 bx2 im).

(** ** String helpers: [%d] formats, [int()], [str.replace] *)

Definition fmt_d (z : Z) : string := pretty z.

(** ['%0wd' % z] for [0 <= z]. *)
Definition fmt_0d (w : nat) (z : Z) : string :=
  let s := fmt_d z in
  String.concat "" (replicate (w - String.length s) "0") ++ s.

Definition is_digit (c : ascii) : bool :=
  let n := nat_of_ascii c in (48 <=? n)%nat && (n <=? 57)%nat.

Definition digit_val (c : ascii) : Z := Z.of_nat (nat_of_ascii c) - 48.

Fixpoint digits_val (acc : Z) (s : string) : Z :=
  match s with
  | EmptyString => acc
  | String c s' => digits_val (10 * acc + digit_val c) s'
  end.

Fixpoint all_digits (s : string) : bool :=
  match s with
  | EmptyString => true
  | String c s' => is_digit c && all_digits s'
  end.

(** [int(s)] for a string of decimal digits; anything else is rejected
    (signs and surrounding blanks, which Python accepts, do not occur in
    the extension names this is applied to). *)
Definition py_int (s : string) : result Z :=
  match s with
  | EmptyString => Raise ValueError
  | _ => if all_digits s then Ok (digits_val 0 s) else Raise ValueError
  end.

(** [s.replace(old,new)] for a non-empty [old]: occurrences are replaced
    from the left, without overlap. *)
Fixpoint replace_go (old new : string) (skip : nat) (s : string) : string :=
  match s with
  | EmptyString => EmptyString
  | String c s' =>
      match skip with
      | S k => replace_go old new k s'
      | O =>
          if String.prefix old s
          then new ++ replace_go old new (String.length old - 1) s'
          else String c (replace_go old new O s')
      end
  end.
Definition str_replace (old new s : string) : string := replace_go old new O s.

(** ** GENERAL UTILITIES *)

(** [_convertfitsreg]: a FITS region ["[x1:x2,y1:y2]"] as zero-based
    half-open bounds.  [re.match] anchors the pattern at the start of the
    string only; when it does not match, [.groups()] of [None] raises. *)
Fixpoint span_digits (s : string) : string * string :=
  match s with
  | String c s' =>
      if is_digit c
      then let '(d, r) := span_digits s' in (String c d, r)
      else (EmptyString, s)
  | EmptyString => (EmptyString, EmptyString)
  end.

Definition expect (c : ascii) (s : string) : option string :=
  match s with
  | String c' s' => if bool_decide (c = c') then Some s' else None
  | EmptyString => None
  end.

(** [(\d+)]: the longest non-empty run of digits. *)
Definition group_digits (s : string) : option (Z * string) :=
  let '(d, r) := span_digits s in
  match d with
  | EmptyString => None
  | _ => Some (digits_val 0 d, r)
  end.

Definition match_regpattern (s : string) : option (Z * Z * Z * Z) :=
  s ← expect "[" s;
  '(g1, s) ← group_digits s;
  s ← expect ":" s;
  '(g2, s) ← group_digits s;
  s ← expect "," s;
  '(g3, s) ← group_digits s;
  s ← expect ":" s;
  '(g4, s) ← group_digits s;
  _ ← expect "]" s;
  Some (g1, g2, g3, g4).

Definition _convertfitsreg (regstr : pyobj) : result (Z * Z * Z * Z) :=
  match regstr with
  | PyStr s =>
      match match_regpattern s with
      | Some (g1, g2, g3, g4) => Ok (g1 - 1, g2, g3 - 1, g4)
      | None => Raise AttributeError
      end
  | _ => Raise TypeError
  end.

(** [stats_region]: a tuple is returned as it is; the five named regions
    give their offsets; everything else raises [ValueError]. *)
Definition region4 (x1 x2 y1 y2 : Z) : pyobj :=
  PyTuple [PyInt x1; PyInt x2; PyInt y1; PyInt y2].

Definition stats_region (statreg : pyobj) : result pyobj :=
  match statreg with
  | PyTuple _ => Ok statreg
  | _ =>
      if py_eq_str statreg "amp_central_quadrant" then
        Ok (region4 512 (-512) 512 (-512))
      else if py_eq_str statreg "amp_corner_ccdcenter_small" then
        Ok (region4 (-512) (-50) (-512) (-50))
      else if py_eq_str statreg "amp_corner_ccdcenter" then
        Ok (region4 (-1024) (-1) (-1024) (-1))
      else if py_eq_str statreg "centeramp_corner_fovcenter" then
        Ok (region4 50 1024 50 1024)
      else if py_eq_str statreg "ccd_central_quadrant" then
        Ok (region4 1024 (-1024) 1024 (-1024))
      else Raise ValueError
  end.

(** The tags the resolver knows. *)
Definition named_regions : list string :=
  [ "amp_central_quadrant"; "amp_corner_ccdcenter_small";
    "amp_corner_ccdcenter"; "centeramp_corner_fovcenter";
    "ccd_central_quadrant" ].

(** ** FITS files *)

(** A header is a dictionary from card names to values. *)
Abbreviation header := (gmap string pyobj).

Definition hdr_get (hdr : header) (k : string) : result pyobj :=
  of_option KeyError (hdr !! k).

Definition as_int (o : pyobj) : result Z :=
  match o with
  | PyInt z => Ok z
  | _ => Raise TypeError
  end.

(** One header-data unit: the primary HDU has no name and no data. *)
Record hdu (A : Type) : Type := mk_hdu {
  hdu_name : option string;
  hdu_header : header;
  hdu_data : option (image A)
}.
Arguments mk_hdu {A} _ _ _.
Arguments hdu_name {A} _.
Arguments hdu_header {A} _.
Arguments hdu_data {A} _.

Definition fitsfile (A : Type) : Type := list (hdu A).

(** [fits[extn]]: the first extension of that name. *)
Definition fits_ext {A} (fits : fitsfile A) (extn : string) : result (hdu A) :=
  of_option IOError
    (List.find (fun h => bool_decide (hdu_name h = Some extn)) fits).

Definition hdu_read {A} (h : hdu A) : result (image A) :=
  of_option IOError (hdu_data h).

(** The files on disk, by path.  Stored pixels are finite. *)
Abbreviation filesystem := (gmap string (fitsfile Qc)).

(** [fitsio.read(f,extn)] *)
Definition fitsio_read (fs : filesystem) (f extn : string)
  : result (image Qc) :=
  fits ← of_option IOError (fs !! f);
  h ← fits_ext fits extn;
  hdu_read h.

(** ** Image cubes *)

(** The row lengths of an array; two arrays of the same shape have the
    same list. *)
Definition shape {A} (im : list (list A)) : list nat := map length im.

(** [np.dstack]: same-shape images side by side along a new last axis.
    An empty list, or images of different shapes, are a [ValueError]. *)
Fixpoint dstack {A} (ims : list (image A)) : result (cube A) :=
  match ims with
  | [] => Raise ValueError
  | im :: rest =>
      match rest with
      | [] => Ok (map (map (fun v => [v])) im)
      | _ =>
          c ← dstack rest;
          if decide (shape im = shape c)
          then Ok (zip_with (zip_with cons) im c)
          else Raise ValueError
      end
  end.

(** A sample of a masked array: the value and its mask bit. *)
Definition sample : Type := Qc * bool.

Definition shape3 {A} (c : cube A) : list (list nat) := map (map length) c.

(** [np.ma.masked_array(cube,mask)]: no mask masks nothing; a mask array
    masks where it is non-zero and must have the shape of the data. *)
Definition masked_array (c : cube Qc) (mask : option (cube Qc))
  : result (cube sample) :=
  match mask with
  | None => Ok (map (map (map (fun v => (v, false)))) c)
  | Some m =>
      if decide (shape3 c = shape3 m)
      then Ok (zip_with (zip_with (zip_with
                 (fun v b => (v, bool_decide (b <> 0%Qc))))) c m)
      else Raise MaskError
  end.

(** The [masks] argument: absent, a [FileNameMap] instance (modelled by
    the function its [__call__] computes), or a list of mask files. *)
Inductive masks_arg : Type :=
| MasksNone
| MasksMap (name_map : string -> string)
| MasksList (files : list string).

Definition build_cube (fs : filesystem) (fileList : list string)
  (extn : string) (masks : masks_arg) : result (cube sample) :=
  ims ← mapR (fun f => fitsio_read fs f extn) fileList;
  cube ← dstack ims;
  mask ← match masks with
         | MasksNone => Ok None
         | MasksMap m =>
             mims ← mapR (fun f => fitsio_read fs (m f) extn) fileList;
             Some <$> dstack mims
         | MasksList l =>
             mims ← mapR (fun f => fitsio_read fs f extn) l;
             Some <$> dstack mims
         end;
  masked_array cube mask.

Section CubeSubset.

(** What [fitsio] does with a row slice that is empty or reaches outside
    the image is the library's business (it is not numpy's rule: the
    caller [make_supersky_flats] passes a stop of [-1] to read up to the
    end of the array); it stays a parameter. *)
Variable fitsio_slice_outside : Z -> Z -> image Qc -> result (image Qc).




End CubeSubset.

(** ** Input and output *)

(** A computation that reads and writes FITS files: it returns a value or
    raises, and in both cases leaves the files as it changed them. *)
Record io (A : Type) : Type := IO {
  run : filesystem -> result A * filesystem
}.
Arguments IO {A} _.
Arguments run {A} _ _.

Global Instance io_ret : MRet io := fun A a => IO (fun fs => (Ok a, fs)).
Global Instance io_bind : MBind io := fun A B f m =>
  IO (fun fs =>
        match run m fs with
        | (Ok a, fs') => run (f a) fs'
        | (Raise e, fs') => (Raise e, fs')
        end).

(** A pure step that can raise. *)
Definition lift {A} (r : result A) : io A := IO (fun fs => (r, fs)).

(** A step that only reads the files. *)
Definition reading {A} (f : filesystem -> result A) : io A :=
  IO (fun fs => (f fs, fs)).

(** [fitsio.FITS(path,'rw')]: the file is created, empty, when it does
    not exist yet. *)
Definition open_rw (path : string) : io unit :=
  IO (fun fs =>
        match fs !! path with
        | Some _ => (Ok (), fs)
        | None => (Ok (), <[path := []]> fs)
        end).

(** [fits.write(data,extname=...,header=hdr)]: a new HDU at the end. *)
Definition fits_write (path : string) (h : hdu Qc) : io unit :=
  IO (fun fs =>
        match fs !! path with
        | Some hs => (Ok (), <[path := (hs ++ [h])%list]> fs)
        | None => (Raise IOError, fs)
        end).

(** [fitsio.read_header(f,ext)]: [None] is the primary HDU. *)
Definition fitsio_read_header (fs : filesystem) (f : string)
  (ext : option string) : result header :=
  fits ← of_option IOError (fs !! f);
  match ext with
  | None => hdu_header <$> of_option IOError (head fits)
  | Some extn => hdu_header <$> fits_ext fits extn
  end.

(** Statements one after another, for each element of a list. *)
Fixpoint for_each {A} (l : list A) (body : A -> io unit) : io unit :=
  match l with
  | [] => mret ()
  | x :: l' => body x ≫= fun _ => for_each l' body
  end.

(** [os.path.basename] and [os.path.join] on POSIX paths. *)
Fixpoint has_slash (s : string) : bool :=
  match s with
  | EmptyString => false
  | String c s' => bool_decide (c = "/"%char) || has_slash s'
  end.

Fixpoint basename (s : string) : string :=
  match s with
  | EmptyString => EmptyString
  | String c s' =>
      if has_slash s' then basename s'
      else if bool_decide (c = "/"%char) then s' else s
  end.

Definition ends_with_slash (s : string) : bool :=
  String.prefix "/" (String.rev s).

Definition path_join (d f : string) : string :=
  if String.prefix "/" f then f
  else if bool_decide (d = "") || ends_with_slash d then d ++ f
  else d ++ "/" ++ f.

(** The order of the amplifiers in the FITS extensions. *)
Definition ampOrder : list Z :=
  [4; 3; 2; 1; 8; 7; 6; 5; 9; 10; 11; 12; 13; 14; 15; 16].

Definition bok90mef_extensions : list string :=
  map (fun a => "IM" ++ fmt_d a) ampOrder.

Definition bokCenterAmps : list string := ["IM4"; "IM7"; "IM10"; "IM13"].

(** ** Keyword arguments *)

(** The [scale] option: an array of per-frame factors, a string, or a
    function of the cube. *)
Inductive scale_arg : Type :=
| ScaleArray (scales : list Qc)
| ScaleStr (s : string)
| ScaleFun (f : cube sample -> list Qc).

(** The options the stacking functions look up in [**kwargs]; [None] is
    an option the caller did not pass. *)
Record kwargs : Type := mk_kwargs {
  kw_extensions : option (list string);
  kw_output_dir : option string;
  kw_output_file : option string;
  kw_with_variance : option bool;
  kw_var_output_file : option string;
  kw_check_dropped_rows : option bool;
  kw_reject : option pyobj;
  kw_method : option pyobj;
  kw_scale : option scale_arg;
  kw_weights : option (list Qc);
  kw_ret_scales : option bool;
  kw_stats_region : option pyobj;
  kw_clip_iters : option pyobj;
  kw_clip_sig : option pyobj
}.

Definition no_kwargs : kwargs :=
  mk_kwargs None None None None None None None None None None None None
    None None.

(** [kwargs.setdefault('method',v)] and [kwargs.setdefault('clip_iters',v)] *)
Definition setdefault_method (v : pyobj) (kw : kwargs) : kwargs :=
  mk_kwargs (kw_extensions kw) (kw_output_dir kw) (kw_output_file kw)
    (kw_with_variance kw) (kw_var_output_file kw) (kw_check_dropped_rows kw)
    (kw_reject kw) (Some (default v (kw_method kw))) (kw_scale kw)
    (kw_weights kw) (kw_ret_scales kw) (kw_stats_region kw)
    (kw_clip_iters kw) (kw_clip_sig kw).

Definition setdefault_clip_iters (v : pyobj) (kw : kwargs) : kwargs :=
  mk_kwargs (kw_extensions kw) (kw_output_dir kw) (kw_output_file kw)
    (kw_with_variance kw) (kw_var_output_file kw) (kw_check_dropped_rows kw)
    (kw_reject kw) (kw_method kw) (kw_scale kw)
    (kw_weights kw) (kw_ret_scales kw) (kw_stats_region kw)
    (Some (default v (kw_clip_iters kw))) (kw_clip_sig kw).

(** ** Stacking an image cube *)

Definition Qc_sum (l : list Qc) : Qc := foldr Qcplus 0%Qc l.
Definition Qc_len {A} (l : list A) : Qc := Qc_of (Z.of_nat (length l)).

(** The samples of a pixel that are not masked. *)
Definition unmasked (px : list sample) : list Qc :=
  omap (fun s : sample => if s.2 then None else Some s.1) px.

(** [argmax] and [argmin] along the last axis of a masked array: masked
    samples are filled with the least (greatest) value first, and the
    first index of the extremum is returned. *)
Definition above (s best : sample) : bool :=
  negb s.2 && (best.2 || bool_decide (best.1 < s.1)%Qc).
Definition below (s best : sample) : bool :=
  negb s.2 && (best.2 || bool_decide (s.1 < best.1)%Qc).

Fixpoint arg_scan (better : sample -> sample -> bool) (l : list sample)
  (i : nat) (best : sample) (bi : nat) : nat :=
  match l with
  | [] => bi
  | s :: l' =>
      if better s best then arg_scan better l' (S i) s i
      else arg_scan better l' (S i) best bi
  end.

Definition arg_first (better : sample -> sample -> bool) (px : list sample)
  : result nat :=
  match px with
  | [] => Raise ValueError
  | s :: l => Ok (arg_scan better l 1%nat s 0%nat)
  end.

Definition argmax_last (c : cube sample) : result (list (list nat)) :=
  mapR (mapR (arg_first above)) c.
Definition argmin_last (c : cube sample) : result (list (list nat)) :=
  mapR (mapR (arg_first below)) c.

(** [imcube[:,:,idx] = np.ma.masked] for a 2-D array [idx] of frame
    numbers: the two slices select every pixel, so each frame number that
    occurs anywhere in [idx] is masked at every pixel. *)
Definition mask_frames (idx : list (list nat)) (c : cube sample)
  : cube sample :=
  let frames := concat idx in
  map (map (imap (fun k (s : sample) =>
                    if bool_decide (k ∈ frames) then (s.1, true) else s))) c.

Definition reject_minmax (c : cube sample) : result (cube sample) :=
  imax ← argmax_last c;
  let c := mask_frames imax c in
  imin ← argmin_last c;
  Ok (mask_frames imin c).

(** [imCube * scales]: one factor per frame; the mask is kept. *)
Definition scale_cube (scales : list Qc) (c : cube sample)
  : result (cube sample) :=
  mapR (mapR (fun px : list sample =>
    if decide (length scales = length px)
    then Ok (zip_with (fun (s : sample) g => ((s.1 * g)%Qc, s.2)) px scales)
    else match scales with
         | [g] => Ok (map (fun s : sample => ((s.1 * g)%Qc, s.2)) px)
         | _ => Raise ValueError
         end)) c.

(** [np.ma.average(..., weights, axis=-1)] at one pixel; [None] is a
    masked result. *)
Definition ma_mean (vals : list Qc) : option Qc :=
  match vals with
  | [] => None
  | _ => Some (Qc_sum vals / Qc_len vals)%Qc
  end.

Definition ma_average (weights : option (list Qc)) (px : list sample)
  : result (option Qc) :=
  match weights with
  | None => Ok (ma_mean (unmasked px))
  | Some w =>
      if decide (length w = length px) then
        let kept := filter (fun sw : sample * Qc => sw.1.2 = false)
                      (zip px w) in
        let scl := Qc_sum (map snd kept) in
        match kept with
        | [] => Ok None
        | _ => if decide (scl = 0%Qc) then Ok None
               else Ok (Some (Qc_sum (map (fun sw : sample * Qc =>
                                             sw.1.1 * sw.2)%Qc kept) / scl)%Qc)
        end
      else Raise ValueError
  end.

(** [np.ma.median(..., axis=-1)] at one pixel. *)
Definition ma_median_vals (vals : list Qc) : option Qc :=
  let sorted := merge_sort Qcle vals in
  let n := length sorted in
  if decide (n = 0%nat) then None
  else if Nat.even n
       then match sorted !! (n / 2 - 1)%nat, sorted !! (n / 2)%nat with
            | Some a, Some b => Some ((a + b) / Qc_of 2)%Qc
            | _, _ => None
            end
       else sorted !! (n / 2)%nat.
Definition ma_median (px : list sample) : option Qc :=
  ma_median_vals (unmasked px).

(** [np.ma.var(..., axis=-1).filled(0)] at one pixel. *)
Definition ma_var_filled (px : list sample) : Qc :=
  let vals := unmasked px in
  match ma_mean vals with
  | None => 0%Qc
  | Some m =>
      (Qc_sum (map (fun v => (v - m) * (v - m))%Qc vals) / Qc_len vals)%Qc
  end.

(** What [stack_image_cube] appends to its [extras]. *)
Inductive extra : Type :=
| ExScales (scales : list Qc)
| ExVar (var : image Qc).

Section Stacking.

(** [astropy.stats.sigma_clip] along the last axis, with the mean as the
    centre: given [iters] and [sig], it only sets mask bits. *)
Variable sigma_clip_last : pyobj -> pyobj -> list sample -> list sample.

(** The per-frame scales of [scale='normalize...']: the ratio to the
    first frame in the statistics region, sigma-clipped, then its mode
    ([_mean]: its mean), inverted relative to the largest. *)
Variable normalize_scales :
  bool -> pyobj * pyobj * pyobj * pyobj -> cube sample -> result (list Qc).

(** The part of [stack_image_cube] before the combine: resolve the
    region, scale the frames, mask the rejected samples. *)
Definition stack_prepare (imCube : cube sample) (kw : kwargs)
  : result (cube sample * option (list Qc)) :=
  let reject := default (PyStr "sigma_clip") (kw_reject kw) in
  reg ← stats_region
          (default (PyStr "amp_central_quadrant") (kw_stats_region kw));
  reg ← unpack4 reg;
  let iters := default (PyInt 2) (kw_clip_iters kw) in
  let sig := default (PyFloat (Fin (dec 25 1))) (kw_clip_sig kw) in
  (* scale images *)
  '(imcube, scales) ←
    match kw_scale kw with
    | None => Ok (imCube, None)
    | Some sc =>
        scales ← match sc with
                 | ScaleArray a => Ok a
                 | ScaleStr s =>
                     if String.prefix "normalize" s
                     then normalize_scales
                            (bool_decide (String.prefix (String.rev "_mean")
                                            (String.rev s) = true))
                            reg imCube
                     else Raise TypeError
                 | ScaleFun f => Ok (f imCube)
                 end;
        c ← scale_cube scales imCube;
        Ok (c, Some scales)
    end;
  (* mask rejected pixels *)
  imcube ←
    (if py_eq_str reject "sigma_clip" then
       Ok (map (map (sigma_clip_last iters sig)) imcube)
     else if py_eq_str reject "minmax" then
       reject_minmax imcube
     else match reject with
          | PyNone => Ok imcube
          | _ => Raise ValueError
          end);
  Ok (imcube, scales).

(** The combine step and the extras. *)
Definition stack_combine (imcube : cube sample) (scales : option (list Qc))
  (kw : kwargs) : result (image (option Qc) * list extra) :=
  let method := default (PyStr "mean") (kw_method kw) in
  let withVariance := default false (kw_with_variance kw) in
  let retScales := default false (kw_ret_scales kw) in
  (* do the stacking *)
  stack ←
    (if py_eq_str method "mean" then
       mapR (mapR (ma_average (kw_weights kw))) imcube
     else if py_eq_str method "median" then
       Ok (map (map ma_median) imcube)
     else Raise ValueError);
  extras ←
    (if retScales then
       match scales with
       | Some sc => Ok [ExScales sc]
       | None => Raise (Exn "UnboundLocalError")
       end
     else Ok []);
  let extras :=
    if withVariance
    then (extras ++ [ExVar (map (map ma_var_filled) imcube)])%list
    else extras in
  Ok (stack, extras).

Definition stack_image_cube (imCube : cube sample) (kw : kwargs)
  : result (image (option Qc) * list extra) :=
  '(imcube, scales) ← stack_prepare imCube kw;
  stack_combine imcube scales kw.

End Stacking.

(** [_write_stack_header_cards]: the primary header of the first file,
    with one card per stacked file. *)
Fixpoint add_file_cards (cardPrefix : string) (num : Z)
  (files : list string) (hdr : header) : header :=
  match files with
  | [] => hdr
  | f :: files' =>
      add_file_cards cardPrefix (num + 1) files'
        (<[cardPrefix ++ fmt_0d 3 num := PyStr (basename f)]> hdr)
  end.

Definition _write_stack_header_cards (fs : filesystem)
  (fileList : list string) (cardPrefix : string) : result header :=
  f0 ← of_option IndexError (head fileList);
  hdr ← fitsio_read_header fs f0 None;
  Ok (add_file_cards cardPrefix 1 fileList hdr).

(** ** BIAS SUBTRACTION *)

(** [extract_overscan]: the trimmed data, the overscan columns of
    [BIASSEC], and the overscan rows found below [DATASEC], if any. *)
Definition extract_overscan {A} (imhdu : hdu A)
  : result (image A * image A * option (image A)) :=
  data ← hdu_read imhdu;
  let hdr := hdu_header imhdu in
  biassec ← hdr_get hdr "BIASSEC";
  '(x1, x2, y1, y2) ← _convertfitsreg biassec;
  let overscan_cols := slice2 (Some y1) (Some y2) (Some x1) (Some x2) data in
  datasec ← hdr_get hdr "DATASEC";
  '(x1, x2, y1, y2) ← _convertfitsreg datasec;
  naxis2 ← hdr_get hdr "NAXIS2" ≫= as_int;
  let overscan_rows :=
    if decide (naxis2 > y2 + 1)
    then Some (slice2 (Some y2) None None None data)
    else None in
  let data := slice2 (Some y1) (Some y2) (Some x1) (Some x2) data in
  Ok (data, overscan_cols, overscan_rows).

(** *** Stacking bias frames *)

(** Mask rows [0..row1-1] of frame [k]. *)
Definition mask_rows_of_frame (row1 : Z) (k : nat) (c : cube sample)
  : cube sample :=
  let n := Z.of_nat (length c) in
  let stop := Z.to_nat (slice_index n row1) in
  imap (fun r (row : list (list sample)) =>
          if decide (r < stop)%nat
          then map (fun px : list sample =>
                      imap (fun j (s : sample) =>
                              if decide (j = k) then (s.1, true) else s) px)
                   row
          else row) c.

(** The number of frames of a cube ([shape[-1]]); a cube without pixels
    has lost it, which is as well: there is nothing to mask then. *)
Definition n_frames {A} (c : cube A) : nat :=
  match c with
  | (px :: _) :: _ => length px
  | _ => 0%nat
  end.

(** Column-wise median of a masked image ([np.ma.median(stack,axis=0)]),
    used to fill the pixels that every frame lost. *)
Definition column {A} (j : nat) (im : image A) : list A :=
  omap (fun row : list A => row !! j) im.

Definition fill_from_median (fill : Qc) (stack : image (option Qc))
  : image Qc :=
  map (fun row : list (option Qc) =>
         imap (fun j (v : option Qc) =>
                 match v with
                 | Some x => x
                 | None =>
                     default fill
                       (ma_median_vals (omap id (column j stack)))
                 end) row) stack.

Section StackBias.

Variable sigma_clip_last : pyobj -> pyobj -> list sample -> list sample.
Variable normalize_scales :
  bool -> pyobj * pyobj * pyobj * pyobj -> cube sample -> result (list Qc).

(** The dropped-row estimate of frame [k]: the first of the bottom 200
    rows whose median over the central columns lies within three standard
    deviations of the clipped central statistics; [IndexError] when there
    is none. *)
Variable first_good_row : cube sample -> nat -> result Z.

(** The value left under the mask where a whole column of the stack is
    masked. *)
Variable masked_fill : Qc.

Definition mask_dropped_rows (biasCube : cube sample)
  : result (cube sample) :=
  foldl (fun (acc : result (cube sample)) (k : nat) =>
           c ← acc;
           row1 ← first_good_row c k;
           let row1 := if decide (row1 > 10) then row1 + 3 else row1 in
           Ok (mask_rows_of_frame row1 k c))
        (Ok biasCube) (seq 0 (n_frames biasCube)).

Definition stack_bias_extension (fileList : list string) (kw : kwargs)
  (out varout : string) (withVariance check_dropped_rows : bool)
  (extn : string) : io unit :=
  biasCube ← reading (fun fs => build_cube fs fileList extn MasksNone);
  biasCube ← (if check_dropped_rows
              then lift (mask_dropped_rows biasCube)
              else mret biasCube);
  '(stack, extras) ←
    lift (stack_image_cube sigma_clip_last normalize_scales biasCube kw);
  (* handles the dropped rows if present *)
  let stack := fill_from_median masked_fill stack in
  f0 ← lift (of_option IndexError (head fileList));
  hdr ← reading (fun fs => fitsio_read_header fs f0 (Some extn));
  _ ← fits_write out (mk_hdu (Some extn) hdr (Some stack));
  if withVariance then
    match extras with
    | ExVar v :: _ => fits_write varout (mk_hdu (Some extn) hdr (Some v))
    | ExScales sc :: _ =>
        fits_write varout (mk_hdu (Some extn) hdr (Some [sc]))
    | [] => lift (Raise IndexError)
    end
  else mret ().

Definition stack_bias_frames (fileList : list string) (kw : kwargs)
  : io unit :=
  let extensions := default bok90mef_extensions (kw_extensions kw) in
  let outputDir := default "./" (kw_output_dir kw) in
  let outputFile := default "bias.fits" (kw_output_file kw) in
  let withVariance := default false (kw_with_variance kw) in
  let varOutputFile := default "biasvar.fits" (kw_var_output_file kw) in
  let kw := setdefault_method (PyStr "clipped_mean") kw in
  let kw := setdefault_clip_iters (PyInt 1) kw in
  let check_dropped_rows := default false (kw_check_dropped_rows kw) in
  let out := path_join outputDir outputFile in
  let varout := path_join outputDir varOutputFile in
  _ ← open_rw out;
  hdr ← reading (fun fs => _write_stack_header_cards fs fileList "BIAS");
  _ ← fits_write out (mk_hdu None hdr None);
  _ ← (if withVariance
       then _ ← open_rw varout; fits_write varout (mk_hdu None hdr None)
       else mret ());
  for_each extensions
    (stack_bias_extension fileList kw out varout withVariance
       check_dropped_rows).

End StackBias.

(** A well-formed image HDU declares the size of its array. *)
Definition hdu_wf {A} (h : hdu A) : Prop :=
  exists data,
    hdu_data h = Some data /\
    hdu_header h !! "NAXIS2" = Some (PyInt (Z.of_nat (length data))) /\
    forall row, row ∈ data ->
      hdu_header h !! "NAXIS1" = Some (PyInt (Z.of_nat (length row))).

(** ** COMBINE CCDs *)

Definition nominal_gain : list num :=
  map Fin
    [ dec 124556017 8; dec 129317832 8; dec 131759822 8; dec 128293753 8;
      dec 144988859 8; dec 152633166 8; dec 142589855 8; dec 151268101 8;
      dec 133969975 8; dec 139347458 8; dec 13766073 7; dec 139406121 8;
      dec 142733335 8; dec 138764536 8; dec 140 2; dec 145403028 8 ].

(** [np.where(a == x)[0][0]]: the first position of [x]. *)
Fixpoint index_of (x : string) (l : list string) : result nat :=
  match l with
  | [] => Raise IndexError
  | y :: l' => if bool_decide (y = x) then Ok 0%nat else S <$> index_of x l'
  end.

(** [l[i]] for a position that must exist. *)
Definition nth_or_raise {A} (l : list A) (i : nat) : result A :=
  of_option IndexError (l !! i).

(** ['ABCD'[i]] *)
Definition chan_letter (i : nat) : result string :=
  nth_or_raise ["A"; "B"; "C"; "D"] i.

(** [int(ext.replace('IM',''))] *)
Definition chan_number (ext : string) : result Z :=
  py_int (str_replace "IM" "" ext).

(** ['%s%02d%s%s' % (name,chNum,'ABCD'[i],n)], the card of a channel. *)
Definition chan_card (name : string) (chNum : Z) (letter n : string)
  : string :=
  name ++ fmt_0d 2 chNum ++ letter ++ n.

(** [im * g] *)
Definition scale_image (g : num) (im : image num) : image num :=
  map (map (fun p => nmul p g)) im.

(** What the sky-based balance of one CCD computes. *)
Record balance : Type := mk_balance {
  b_rawSky : list num;
  b_gain2 : list num;
  b_skyCounts : num;
  b_gain3 : num
}.

Section GainBalance.

(** [sky_est(sigma_clip(region, iters=..., sig=..., cenfunc=np.ma.mean))]:
    the clipped mean of a region. *)
Variable clipped_mean : pyobj -> pyobj -> image num -> num.

(** The sky branch of [multiply_gain]: balance the amplifiers of the CCD
    on the sky counts of the reference amplifier, then the CCD on the sky
    counts [skyIn] of the first CCD.  [(set(extGroup) &
    set(bokCenterAmps)).pop()] is the one centre amplifier of the group
    (the first one, should a group hold several). *)
Definition sky_balance (ampIms : list (image num)) (extGroup : list string)
  (gain : list num) (ampReg ccdReg : pyobj * pyobj * pyobj * pyobj)
  (clipArgs : pyobj * pyobj) (skyIn : option num) (refAmp : string)
  : result balance :=
  let '(iters, sig) := clipArgs in
  (* first balance across amplifers *)
  rawSky ← mapR (fun im => clipped_mean iters sig <$> slice_region ampReg im)
             ampIms;
  let skyCounts := zip_with nmul rawSky gain in
  refAmpIndex ← index_of refAmp extGroup;
  ref ← nth_or_raise skyCounts refAmpIndex;
  let gain2 := map (fun c => ndiv ref c) skyCounts in
  (* then balance across CCDs *)
  centerAmp ← of_option KeyError
                (head (filter (fun e => e ∈ bokCenterAmps) extGroup));
  ci ← index_of centerAmp extGroup;
  im_c ← nth_or_raise ampIms ci;
  reg_c ← slice_region ccdReg im_c;
  let skyCounts := clipped_mean iters sig reg_c in
  g_c ← nth_or_raise gain ci;
  g2_c ← nth_or_raise gain2 ci;
  let skyCounts := nmul skyCounts (nmul g_c g2_c) in
  let gain3 := match skyIn with
               | None => Fin 1%Qc
               | Some s => ndiv s skyCounts
               end in
  Ok (mk_balance rawSky gain2 skyCounts gain3).

(** The header cards of the sky branch, amplifier by amplifier. *)
Fixpoint sky_cards (i : nat) (exts : list string) (rawSky gain gain2 : list num)
  (hdr : header) : result header :=
  match exts with
  | [] => Ok hdr
  | ext :: exts' =>
      chNum ← chan_number ext;
      letter ← chan_letter i;
      s ← nth_or_raise rawSky i;
      g ← nth_or_raise gain i;
      g2 ← nth_or_raise gain2 i;
      let hdr := <[chan_card "SKYC" chNum letter "1" := PyFloat s]> hdr in
      let hdr := <[chan_card "GAIN" chNum letter "1" := PyFloat g]> hdr in
      let hdr := <[chan_card "GAIN" chNum letter "2" := PyFloat g2]> hdr in
      sky_cards (S i) exts' rawSky gain gain2 hdr
  end.

(** The header cards when only the input gains are used. *)
Fixpoint nominal_cards (i : nat) (exts : list string) (gain : list num)
  (hdr : header) : result header :=
  match exts with
  | [] => Ok hdr
  | ext :: exts' =>
      chNum ← chan_number ext;
      letter ← chan_letter i;
      g ← nth_or_raise gain i;
      nominal_cards (S i) exts' gain
        (<[chan_card "GAIN" chNum letter "1" := PyFloat g]> hdr)
  end.

Definition multiply_gain (inFits : fitsfile num) (extGroup : list string)
  (hdr : header) (skyGainCor : bool) (inputGain : gmap string num)
  (ampCorStatReg ccdCorStatReg : pyobj) (clipArgs : pyobj * pyobj)
  (skyIn : option num) (refAmp : string)
  : result (list (image num) * option num * header) :=
  (* the stats regions used to balance amps and CCDs using sky values *)
  ampReg ← unpack4 ampCorStatReg;
  ccdReg ← unpack4 ccdCorStatReg;
  (* load the per-amp images *)
  ampIms ← mapR (fun ext => fits_ext inFits ext ≫= hdu_read) extGroup;
  (* start with the input gain values *)
  gain ← mapR (fun ext => of_option KeyError (inputGain !! ext)) extGroup;
  '(gain, skyCounts, hdr) ←
    (if skyGainCor then
       b ← sky_balance ampIms extGroup gain ampReg ccdReg clipArgs skyIn
             refAmp;
       hdr ← sky_cards 0 extGroup (b_rawSky b) gain (b_gain2 b) hdr;
       let hdr := <["CCDGAIN3" := PyFloat (b_gain3 b)]> hdr in
       let gain := zip_with (fun g g2 => nmul g (nmul g2 (b_gain3 b)))
                     gain (b_gain2 b) in
       Ok (gain, Some (b_skyCounts b), hdr)
     else
       (* store the (default) gain values used *)
       hdr ← nominal_cards 0 extGroup gain hdr;
       Ok (gain, None, hdr));
  let ampIms := zip_with (fun im g => scale_image g im) ampIms gain in
  Ok (ampIms, skyCounts, hdr).

End GainBalance.

(** *** Orienting the amplifiers into a CCD *)

Definition ncols {A} (im : image A) : nat :=
  match im with
  | [] => 0%nat
  | row :: _ => length row
  end.

(** [m.swapaxes(0,1)] of a 2-D array. *)
Definition transpose {A} (im : image A) : image A :=
  map (fun j => column j im) (seq 0 (ncols im)).

Definition flipud {A} (im : image A) : image A := reverse im.
Definition fliplr {A} (im : image A) : image A := map reverse im.

(** The pixel at row [i], column [j]; an array of [h] rows and [w]
    columns. *)
Definition px {A} (im : image A) (i j : nat) : option A :=
  im !! i ≫= fun row => row !! j.

Definition rect {A} (h w : nat) (im : image A) : Prop :=
  length im = h /\ Forall (fun row => length row = w) im.

(** [np.rot90(m,k)], counter-clockwise, as numpy composes it. *)
Definition rot90 {A} (k : Z) (im : image A) : image A :=
  let k := k mod 4 in
  if decide (k = 0) then im
  else if decide (k = 1) then transpose (fliplr im)
  else if decide (k = 2) then fliplr (flipud im)
  else fliplr (transpose im).

(** [np.hstack([a,b])] needs as many rows in both, [np.vstack([a,b])] as
    many columns (an array without rows counts as having none). *)
Definition hstack2 {A} (a b : image A) : result (image A) :=
  if decide (length a = length b)
  then Ok (zip_with (fun r1 r2 => (r1 ++ r2)%list) a b)
  else Raise ValueError.

Definition vstack2 {A} (a b : image A) : result (image A) :=
  if decide (ncols a = ncols b)
  then Ok (a ++ b)%list
  else Raise ValueError.

(** The pixels of the mosaic. *)
Definition orient_pixels {A} (im1 im2 im3 im4 : image A) (ccdNum : Z)
  (origin : pyobj) : result (image A) :=
  (* orient the channel images N through E and stack into CCD image *)
  top ← hstack2 (flipud (rot90 1 im2)) (rot90 3 im4);
  bottom ← hstack2 (rot90 1 im1) (fliplr (rot90 1 im3));
  outIm ← vstack2 top bottom;
  if py_eq_str origin "lower left" then Ok outIm
  else if py_eq_str origin "center" then
    if decide (ccdNum = 1) then Ok (fliplr outIm)
    else if decide (ccdNum = 2) then Ok (rot90 2 outIm)
    else if decide (ccdNum = 3) then Ok outIm
    else if decide (ccdNum = 4) then Ok (flipud outIm)
    else Ok outIm
  else Ok outIm.

(** [[a,b][i]] with Python's negative positions. *)
Definition pick2 {A} (a b : A) (i : Z) : result A :=
  if decide (i = 0 \/ i = -2) then Ok a
  else if decide (i = 1 \/ i = -1) then Ok b
  else Raise IndexError.

Definition fmt_datasec (nx ny : Z) : string :=
  "[1:" ++ fmt_d nx ++ ",1:" ++ fmt_d ny ++ "]".

Definition fmt_detsec (a b c d : Z) : string :=
  "[" ++ fmt_d a ++ ":" ++ fmt_d b ++ "," ++ fmt_d c ++ ":" ++ fmt_d d ++ "]".

(** The mosaic and WCS cards of the CCD. *)
Definition orient_header (hdr : header) (nx ny ccdNum : Z) (origin : pyobj)
  : result header :=
  let det_i := (ccdNum - 1) `div` 2 in
  let det_j := ccdNum `mod` 2 in
  let hdr := <["DATASEC" := PyStr (fmt_datasec nx ny)]> hdr in
  let hdr := <["DETSEC" :=
                 PyStr (fmt_detsec (nx * det_i + 1) (nx * (det_i + 1))
                                   (ny * det_j + 1) (ny * (det_j + 1)))]>
               hdr in
  cd1_1 ← hdr_get hdr "CD1_1" ≫= as_num;
  cd1_2 ← hdr_get hdr "CD1_2" ≫= as_num;
  let plateScale := nmax (nabs cd1_1) (nabs cd1_2) in
  if py_eq_str origin "center" then
    let hdr := <["CD1_1" := PyFloat (nZ 0)]> hdr in
    let hdr := <["CD2_2" := PyFloat (nZ 0)]> hdr in
    signx ← pick2 (-1) 1 det_i;
    signy ← pick2 (-1) 1 det_j;
    let hdr := <["CD2_1" := PyFloat (nmul (nZ (- signx)) plateScale)]> hdr in
    let hdr := <["CD1_2" := PyFloat (nmul (nZ signy) plateScale)]> hdr in
    let hdr := <["CRPIX1" := PyFloat (Fin (dec (-18201) 2))]> hdr in
    let hdr := <["CRPIX2" := PyFloat (Fin (dec (-5904) 2))]> hdr in
    let hdr := <["LTM1_1" := PyFloat (nZ signx)]> hdr in
    let hdr := <["LTM2_2" := PyFloat (nZ signy)]> hdr in
    ltv1 ← pick2 4096 (-4097) det_i;
    let hdr := <["LTV1" := PyFloat (nZ ltv1)]> hdr in
    ltv2 ← pick2 4033 (-4032) det_j;
    Ok (<["LTV2" := PyFloat (nZ ltv2)]> hdr)
  else if py_eq_str origin "lower left" then
    let hdr := <["LTM1_1" := PyFloat (nZ 1)]> hdr in
    let hdr := <["LTM2_2" := PyFloat (nZ 1)]> hdr in
    let hdr := <["LTV1" := PyInt (if decide (det_i = 0) then 0 else - nx)]>
                 hdr in
    let hdr := <["LTV2" := PyInt (if decide (det_j = 0) then 0 else - ny)]>
                 hdr in
    let hdr := <["CD1_1" := PyFloat (nZ 0)]> hdr in
    let hdr := <["CD1_2" := PyFloat plateScale]> hdr in
    let hdr := <["CD2_1" := PyFloat (nneg plateScale)]> hdr in
    let hdr := <["CD2_2" := PyFloat (nZ 0)]> hdr in
    crpix1 ← hdr_get hdr "CRPIX1";
    crpix2 ← hdr_get hdr "CRPIX2";
    v1 ← (if decide (det_i = 0)
          then py_sub (PyInt (1 + nx)) crpix2
          else py_add (PyInt 1) crpix2);
    let hdr := <["CRPIX1" := v1]> hdr in
    v2 ← (if decide (det_j = 0)
          then py_sub (PyInt ny) crpix1
          else Ok crpix1);
    Ok (<["CRPIX2" := v2]> hdr)
  else Ok hdr.

Definition _orient_mosaic {A} (hdr : header) (ims : list (image A))
  (ccdNum : Z) (origin : pyobj) : result (image A * header) :=
  match ims with
  | [im1; im2; im3; im4] =>
      outIm ← orient_pixels im1 im2 im3 im4 ccdNum origin;
      let ny := Z.of_nat (length outIm) in
      let nx := Z.of_nat (ncols outIm) in
      hdr ← orient_header hdr nx ny ccdNum origin;
      Ok (outIm, hdr)
  | _ => Raise ValueError
  end.

(** *** The four CCDs of an exposure *)

(** The extensions in numerical order, and the amplifier of each CCD that
    the others are balanced on. *)
Definition extns : list string :=
  map (fun n => "IM" ++ fmt_d n) (seqZ 1 16).

Definition refAmps : list string := ["IM2"; "IM8"; "IM11"; "IM16"].

(** [np.hsplit(a,4)] of an array of sixteen. *)
Definition hsplit4 {A} (l : list A) : list (list A) :=
  [ take 4 l; take 4 (drop 4 l); take 4 (drop 8 l); take 4 (drop 12 l) ].

(** The gains used when the caller gives none. *)
Definition default_input_gain : gmap string num :=
  list_to_map (zip (map (fun a => "IM" ++ fmt_d a) ampOrder) nominal_gain).

(** The options of [combine_ccds]. *)
Record combine_kwargs : Type := mk_combine_kwargs {
  ck_input_gain : option (gmap string num);
  ck_sky_gain_correct : option bool;
  ck_stats_region : option pyobj;
  ck_clip_iters : option pyobj;
  ck_clip_sig : option pyobj;
  ck_origin : option pyobj
}.

(** What [combine_ccds] has settled before it turns to the files. *)
Record ccd_params : Type := mk_ccd_params {
  p_inputGain : gmap string num;
  p_skyGainCor : bool;
  p_ampCorStatReg : pyobj;
  p_ccdCorStatReg : pyobj;
  p_clipArgs : pyobj * pyobj;
  p_origin : pyobj
}.

Section CombineCcds.

Variable clipped_mean : pyobj -> pyobj -> image num -> num.

(** One turn of the loop over the CCDs: balance the four amplifiers,
    orient them into the mosaic; returns the sky counts of the CCD and
    the HDU written. *)
Definition process_ccd (inFits : fitsfile num) (P : ccd_params)
  (ccdNum : Z) (extGroup : list string) (refSkyCounts : option num)
  : result (option num * hdu num) :=
  center ← nth_or_raise bokCenterAmps (Z.to_nat (ccdNum - 1));
  hdr ← hdu_header <$> fits_ext inFits center;
  refAmp ← nth_or_raise refAmps (Z.to_nat (ccdNum - 1));
  (* load the individual channels and balance them with a gain correction *)
  '(ims, skyCounts, hdr) ←
    multiply_gain clipped_mean inFits extGroup hdr (p_skyGainCor P)
      (p_inputGain P) (p_ampCorStatReg P) (p_ccdCorStatReg P)
      (p_clipArgs P) refSkyCounts refAmp;
  (* orient the channel images into a mosaic of CCDs *)
  '(outIm, hdr) ← _orient_mosaic hdr ims ccdNum (p_origin P);
  Ok (skyCounts, mk_hdu (Some ("CCD" ++ fmt_d ccdNum)) hdr (Some outIm)).

(** [for ccdNum,extGroup in enumerate(np.hsplit(extns,4),start=1)], with
    [refSkyCounts] carried from turn to turn. *)
Fixpoint combine_loop (inFits : fitsfile num) (P : ccd_params) (ccdNum : Z)
  (groups : list (list string)) (refSkyCounts : option num)
  : result (list (hdu num)) :=
  match groups with
  | [] => Ok []
  | extGroup :: groups' =>
      '(skyCounts, h) ← process_ccd inFits P ccdNum extGroup refSkyCounts;
      let refSkyCounts :=
        if decide (ccdNum = 1) then skyCounts else refSkyCounts in
      rest ← combine_loop inFits P (ccdNum + 1) groups' refSkyCounts;
      Ok (h :: rest)
  end.

Definition combine_params (kw : combine_kwargs) : result ccd_params :=
  let inputGain := ck_input_gain kw in
  let skyGainCor := default true (ck_sky_gain_correct kw) in
  ampCorStatReg ← stats_region
                    (default (PyStr "amp_corner_ccdcenter")
                       (ck_stats_region kw));
  ccdCorStatReg ← stats_region (PyStr "centeramp_corner_fovcenter");
  let clipArgs := (default (PyInt 3) (ck_clip_iters kw),
                   default (PyFloat (Fin (dec 25 1))) (ck_clip_sig kw)) in
  let origin := default (PyStr "center") (ck_origin kw) in
  Ok (mk_ccd_params (default default_input_gain inputGain) skyGainCor
        ampCorStatReg ccdCorStatReg clipArgs origin).

(** What [combine_ccds] writes for one input file: the primary header
    and the four CCDs. *)
Definition combine_ccds_file (inFits : fitsfile num) (P : ccd_params)
  : result (fitsfile num) :=
  hdr ← hdu_header <$> of_option IOError (head inFits);
  let hdr := <["DETSIZE" := PyStr "[1:8192,1:8064]"]> hdr in
  let hdr := <["NEXTEND" := PyInt 4]> hdr in
  ccds ← combine_loop inFits P 1 (hsplit4 extns) None;
  Ok (mk_hdu None hdr None :: ccds).

Definition combine_ccds (fileList : list (fitsfile num)) (kw : combine_kwargs)
  : result (list (fitsfile num)) :=
  P ← combine_params kw;
  mapR (fun inFits => combine_ccds_file inFits P) fileList.

End CombineCcds.

(** ** PROCESS ROUND 2 *)

(** [models.Polynomial2D(degree=1)]: [c0_0 + c1_0*x + c0_1*y]. *)
Record poly1 : Type := mk_poly1 {
  c0_0 : num;
  c1_0 : num;
  c0_1 : num
}.

Global Instance poly1_eq_dec : EqDecision poly1.
Proof. solve_decision. Defined.

Definition poly_eval (p : poly1) (x y : num) : num :=
  nadd (nadd (c0_0 p) (nmul (c1_0 p) x)) (nmul (c0_1 p) y).

(** [np.indices((n2,n1))]: the row and the column of each pixel. *)
Definition indices (n2 n1 : Z) : image (Z * Z) :=
  map (fun i => map (fun j => (i, j)) (seqZ 0 n1)) (seqZ 0 n2).

(** [bok_getxy]: the coordinates [(x,y)] of every pixel of a CCD. *)
Definition bok_getxy (hdr : header) (coordsys : pyobj)
  : result (image (num * num)) :=
  n2 ← hdr_get hdr "NAXIS2" ≫= as_int;
  n1 ← hdr_get hdr "NAXIS1" ≫= as_int;
  let yx := indices n2 n1 in
  if py_eq_str coordsys "image" then
    Ok (map (map (fun ij : Z * Z => (nZ ij.2, nZ ij.1))) yx)
  else if py_eq_str coordsys "physical" then
    ltm1 ← hdr_get hdr "LTM1_1" ≫= as_num;
    ltv1 ← hdr_get hdr "LTV1" ≫= as_num;
    ltm2 ← hdr_get hdr "LTM2_2" ≫= as_num;
    ltv2 ← hdr_get hdr "LTV2" ≫= as_num;
    Ok (map (map (fun ij : Z * Z =>
                    (nmul ltm1 (nsub (nZ ij.2) ltv1),
                     nmul ltm2 (nsub (nZ ij.1) ltv2)))) yx)
  else if py_eq_str coordsys "sky" then
    cd1_1 ← hdr_get hdr "CD1_1" ≫= as_num;
    cd2_1 ← hdr_get hdr "CD2_1" ≫= as_num;
    let dx := nadd cd1_1 cd2_1 in
    cd1_2 ← hdr_get hdr "CD1_2" ≫= as_num;
    cd2_2 ← hdr_get hdr "CD2_2" ≫= as_num;
    let dy := nadd cd1_2 cd2_2 in
    crpix1 ← hdr_get hdr "CRPIX1" ≫= as_num;
    crpix2 ← hdr_get hdr "CRPIX2" ≫= as_num;
    Ok (map (map (fun ij : Z * Z =>
                    (nmul (nsign dx) (nsub (nZ ij.2) crpix1),
                     nmul (nsign dy) (nsub (nZ ij.1) crpix2)))) yx)
  else Raise ValueError.

Definition ccd_names : list string :=
  map (fun i => "CCD" ++ fmt_d i) (seqZ 1 4).

(** [a - b] on arrays of one shape. *)
Definition image_sub (a b : image num) : result (image num) :=
  if decide (shape a = shape b)
  then Ok (zip_with (zip_with nsub) a b)
  else Raise ValueError.

Section SkySubtraction.

(** The fit of [bok_polyfit]: the mosaic (masked by [maskFits], when
    given) rebinned by [nbin], sigma-clipped, and fitted by linear least
    squares with a polynomial of the given order. *)
Variable sky_model_fit :
  fitsfile num -> option (fitsfile num) -> Z -> Z -> result poly1.

(** [bok_polyfit]: the model image of each CCD at native resolution, and
    the model itself. *)
Definition bok_polyfit (fits : fitsfile num) (nbin order : Z)
  (maskFits : option (fitsfile num))
  : result (list (string * image num) * poly1) :=
  p ← sky_model_fit fits maskFits nbin order;
  (* return the model images for each CCD at native resolution *)
  rv ← mapR (fun ccd =>
               h ← fits_ext fits ccd;
               xy ← bok_getxy (hdu_header h) (PyStr "sky");
               Ok (ccd, map (map (fun c : num * num => poly_eval p c.1 c.2))
                            xy))
          ccd_names;
  Ok (rv, p).

(** What [subtract_sky] writes for one input file: its four CCDs, with
    the sky gradient taken out. *)
Definition subtract_sky_file (inFits : fitsfile num)
  (maskFits : option (fitsfile num)) : result (list (hdu num)) :=
  '(skyFit, skymodel) ← bok_polyfit inFits 64 1 maskFits;
  (* subtract the sky level at the origin so as to only remove the
     gradient *)
  let sky0 := poly_eval skymodel (nZ 0) (nZ 0) in
  mapR (fun ccd =>
          h ← fits_ext inFits ccd;
          let hdr := hdu_header h in
          model ← of_option KeyError
                    (snd <$> List.find (fun e : string * image num =>
                                          bool_decide (e.1 = ccd)) skyFit);
          let skyfit := map (map (fun v => nsub v sky0)) model in
          pixels ← hdu_read h;
          data ← image_sub pixels skyfit;
          let hdr := <["SKYVAL" := PyFloat sky0]> hdr in
          Ok (mk_hdu (Some ccd) hdr (Some data)))
       ccd_names.

(** [subtract_sky]: file by file, each with its mask file when a mask
    map is given. *)
Definition subtract_sky
  (fileList : list (fitsfile num * option (fitsfile num)))
  : result (list (list (hdu num))) :=
  mapR (fun fm : fitsfile num * option (fitsfile num) =>
          subtract_sky_file fm.1 fm.2) fileList.

End SkySubtraction.



(** ** What a computation writes to *)

(** A computation that leaves every file outside [paths] as it was,
    whether it returns or raises. *)
Definition touches_only {A} (paths : list string) (m : io A) : Prop :=
  forall fs p, p ∉ paths -> (run m fs).2 !! p = fs !! p.

(** ** Fitting and subtracting the overscan *)

(** The options [fit_overscan] looks up in [**kwargs]; [subtract_overscan]
    hands its own keyword arguments on, and reads [method] itself for the
    header. *)
Record oscan_kwargs : Type := mk_oscan_kwargs {
  ok_reject : option pyobj;
  ok_method : option pyobj;
  ok_mask_at : option (list Z);
  ok_along : option pyobj;
  ok_clip_iters : option pyobj;
  ok_clip_sig : option pyobj;
  ok_spline_interval : option pyobj
}.

Definition no_oscan_kwargs : oscan_kwargs :=
  mk_oscan_kwargs None None None None None None None.

(** A position on an axis of length [n], as fancy indexing checks it:
    negative positions count from the end, anything outside is an
    [IndexError]. *)
Definition axis_index (n : nat) (i : Z) : result nat :=
  if decide (0 <= i < Z.of_nat n) then Ok (Z.to_nat i)
  else if decide (- Z.of_nat n <= i < 0) then Ok (Z.to_nat (Z.of_nat n + i))
  else Raise IndexError.

(** [a[:,cols] = np.ma.masked]: the listed columns are masked in every
    row. *)
Definition mask_columns (cols : list nat) (im : image sample) : image sample :=
  map (imap (fun j (s : sample) =>
               if bool_decide (j ∈ cols) then (s.1, true) else s)) im.

(** [np.ma.masked_array(a)] of a plain array. *)
Definition plain (im : image Qc) : image sample :=
  map (map (fun v => (v, false))) im.

Section Overscan.

(** [sigma_clip(overscan,axis=1,iters=...,sig=...,cenfunc=np.ma.mean)] on
    one row, and the value of [LSQUnivariateSpline] fitted to the row
    means with knots every [spline_interval] pixels. *)
Variable sigma_clip_last : pyobj -> pyobj -> list sample -> list sample.
Variable spline_fit : pyobj -> list (option Qc) -> result (list (option Qc)).

(** What numpy leaves in the data where the value subtracted is masked. *)
Variable under_mask : Qc -> Qc.

(** [fit_overscan]: one fitted value per row of the overscan ([None] is a
    masked value); with [along='rows'], per column.  The width of an
    array is known from its first row, so an array without rows counts as
    having no columns. *)
Definition fit_overscan (overscan : image sample) (kw : oscan_kwargs)
  : result (list (option Qc)) :=
  let reject := default (PyStr "sigma_clip") (ok_reject kw) in
  let method := default (PyStr "mean") (ok_method kw) in
  let mask_at := default [0; 1; 2; -1] (ok_mask_at kw) in
  let along := default (PyStr "columns") (ok_along kw) in
  let iters := default (PyInt 2) (ok_clip_iters kw) in
  let sig := default (PyFloat (Fin (dec 25 1))) (ok_clip_sig kw) in
  let spline_interval := default (PyInt 20) (ok_spline_interval kw) in
  (* make it look like a column overscan for simplicity *)
  let overscan :=
    if py_eq_str along "rows" then transpose overscan else overscan in
  let npix := length overscan in
  cols ← mapR (axis_index (ncols overscan)) mask_at;
  let overscan := mask_columns cols overscan in
  overscan ←
    (if py_eq_str reject "sigma_clip" then
       Ok (map (sigma_clip_last iters sig) overscan)
     else if py_eq_str reject "minmax" then
       imax ← mapR (arg_first above) overscan;
       let overscan := mask_columns imax overscan in
       imin ← mapR (arg_first below) overscan;
       Ok (mask_columns imin overscan)
     else Ok overscan);
  if py_eq_str method "mean" then
    Ok (map (fun row => ma_mean (unmasked row)) overscan)
  else if py_eq_str method "mean_value" then
    Ok (replicate npix (ma_mean (unmasked (concat overscan))))
  else if py_eq_str method "median_value" then
    Ok (replicate npix (ma_median_vals (unmasked (concat overscan))))
  else if py_eq_str method "cubic_spline" then
    spline_fit spline_interval
      (map (fun row => ma_mean (unmasked row)) overscan)
  else Raise ValueError.






End Overscan.

(** ** Rebinning *)

(** The first [n] runs of [k] elements of a list. *)
Fixpoint chunks {A} (k n : nat) (l : list A) : list (list A) :=
  match n with
  | O => []
  | S n' => take k l :: chunks k n' (drop k l)
  end.

(** [bok_rebin]: every pixel of the result holds the [nbin*nbin] pixels
    of one block of the image.  [s] is the shape divided by [nbin],
    rounded down; the first [reshape] needs as many elements as the image
    has, and the last one, which leaves a dimension open, a result that
    is not empty.  When they pass, [s[0]*nbin] rows of [s[1]*nbin] pixels
    are reshaped to [(s[0],nbin,s[1],nbin)]: groups of [nbin] rows, each
    row in runs of [nbin] pixels. *)
Definition bok_rebin {A} (im : image A) (nbin : Z) : result (cube A) :=
  let h := Z.of_nat (length im) in
  let w := Z.of_nat (ncols im) in
  if decide (nbin = 0) then Raise ValueError
  else
    let s0 := h `div` nbin in
    let s1 := w `div` nbin in
    if decide (0 < nbin /\ 0 < s0 /\ 0 < s1 /\ s0 * nbin * (s1 * nbin) = h * w)
    then
      let n := Z.to_nat nbin in
      let reshaped :=
        map (map (chunks n (Z.to_nat s1))) (chunks n (Z.to_nat s0) im) in
      let swapped := map transpose reshaped in
      Ok (map (map (fun runs => concat runs)) swapped)
    else Raise ValueError.

(** ** The binned field of view *)

(** [l[start::step]] for a start that is not negative and a positive
    step: the elements at [start], [start+step], ... *)
Definition slice_step {A} (start step : nat) (l : list A) : list A :=
  omap (fun k => l !! (start + k * step)%nat) (seq 0 (length l)).

(** What [bok_fov_rebin] stores for an extension: the coordinates of its
    pixels, and the image, which has a third axis once it is rebinned. *)
Record fov_entry : Type := mk_fov_entry {
  fov_xy : image (num * num);
  fov_im : image (num * bool) + cube (num * bool)
}.

(** [np.ma.masked_array(im,mask.astype(np.bool))] *)
Definition masked_image (im mask : image num) : result (image (num * bool)) :=
  if decide (shape im = shape mask)
  then Ok (zip_with (zip_with (fun v m => (v, bool_decide (m <> nZ 0))))
             im mask)
  else Raise MaskError.

(** One turn of the loop of [bok_fov_rebin] over the extensions; an HDU
    without a name is taken to have the empty name. *)
Definition bok_fov_rebin_hdu (h : hdu num) (nbin : Z) (coordsys : pyobj)
  (maskFits : option (fitsfile num)) : result (string * fov_entry) :=
  let extn := default "" (hdu_name h) in
  im ← hdu_read h;
  let hdr := hdu_header h in
  xy ← bok_getxy hdr coordsys;
  im ← match maskFits with
       | Some mf => mask ← fits_ext mf extn ≫= hdu_read; masked_image im mask
       | None => Ok (map (map (fun v => (v, false))) im)
       end;
  if decide (nbin > 1) then
    binned ← bok_rebin im nbin;
    let start := Z.to_nat (nbin `div` 2) in
    let step := Z.to_nat nbin in
    let xy := map (slice_step start step) (slice_step start step xy) in
    Ok (extn, mk_fov_entry xy (inr binned))
  else Ok (extn, mk_fov_entry xy (inl im)).

(** ** Concrete inputs used by the examples below *)

(** An unmasked sample with an integer value. *)
Definition smp (z : Z) : sample := (Qc_of z, false).

(** Three frames of one row and two pixels: [[1,2]], [[2,3]], [[3,1]]. *)
Definition three_frames : cube sample :=
  [[ [smp 1; smp 2; smp 3]; [smp 2; smp 3; smp 1] ]].

Definition kw_minmax : kwargs :=
  mk_kwargs None None None None None None (Some (PyStr "minmax")) None
    None None None None None None.

(** An amplifier of three rows whose data section is the first two rows
    and the first two columns. *)
Definition amp_one_extra_row : hdu Z :=
  mk_hdu (Some "IM4")
    (<["BIASSEC" := PyStr "[3:3,1:2]"]>
       (<["DATASEC" := PyStr "[1:2,1:2]"]>
          (<["NAXIS1" := PyInt 3]> (<["NAXIS2" := PyInt 3]> ∅))))
    (Some [[1; 2; 3]; [4; 5; 6]; [7; 8; 9]]).

(** A sky estimator that clips nothing: the mean of the region. *)
Definition plain_mean (iters sig : pyobj) (im : image num) : num :=
  let pixels := concat im in
  ndiv (foldr nadd (nZ 0) pixels) (nZ (Z.of_nat (length pixels))).

(** An exposure whose sixteen amplifiers are 2x2 images of one value per
    amplifier, with the WCS cards the mosaic needs. *)
Definition flat_amp (name : string) (v : Z) : hdu num :=
  mk_hdu (Some name)
    (<["CD1_1" := PyFloat (Fin (dec 1 4))]>
       (<["CD1_2" := PyFloat (nZ 0)]>
          (<["CRPIX1" := PyFloat (nZ 10)]>
             (<["CRPIX2" := PyFloat (nZ 20)]> ∅))))
    (Some [[nZ v; nZ v]; [nZ v; nZ v]]).

Definition flat_exposure (level : Z -> Z) : fitsfile num :=
  mk_hdu None ∅ None
  :: map (fun n => flat_amp ("IM" ++ fmt_d n) (level n)) (seqZ 1 16).

(** Unit gains, and regions that cover a whole 2x2 amplifier. *)
Definition unit_gain : gmap string num :=
  list_to_map (map (fun e => (e, nZ 1)) extns).

Definition whole_region : pyobj := PyTuple [PyNone; PyNone; PyNone; PyNone].

Definition sky_params : ccd_params :=
  mk_ccd_params unit_gain true whole_region whole_region
    (PyInt 3, PyFloat (Fin (dec 25 1))) (PyStr "center").

Definition nominal_params : ccd_params :=
  mk_ccd_params unit_gain false whole_region whole_region
    (PyInt 3, PyFloat (Fin (dec 25 1))) (PyStr "center").

(** Two bias frames and two mask files, each with the one extension
    [IM4] of 2x2 pixels. *)
Definition frame_file (a b c d : Z) : fitsfile Qc :=
  [ mk_hdu None (<["OBJECT" := PyStr "zero"]> ∅) None;
    mk_hdu (Some "IM4") (<["NAXIS1" := PyInt 2]> (<["NAXIS2" := PyInt 2]> ∅))
      (Some [[Qc_of a; Qc_of b]; [Qc_of c; Qc_of d]]) ].

Definition bias_fs : filesystem :=
  <["b1.fits" := frame_file 500 501 502 503]>
    (<["b2.fits" := frame_file 504 505 506 507]>
       (<["m1.fits" := frame_file 0 1 0 0]>
          (<["m2.fits" := frame_file 0 0 0 2]> ∅))).

Definition kw_one_extension : kwargs :=
  mk_kwargs (Some ["IM4"]) None None None None None None None None None
    None None None None.

(** Stand-ins for the statistics that stay parameters: a clip that
    rejects nothing, no normalisation, no dropped row. *)
Definition clip_nothing (iters sig : pyobj) (px : list sample) : list sample :=
  px.
Definition normalize_none (mean : bool) (reg : pyobj * pyobj * pyobj * pyobj)
  (c : cube sample) : result (list Qc) := Raise ValueError.
Definition no_dropped_row (c : cube sample) (k : nat) : result Z := Ok 0.

(** Four amplifier images of 2 rows and 3 columns. *)
Definition amp_a : image Z := [[11; 12; 13]; [14; 15; 16]].
Definition amp_b : image Z := [[21; 22; 23]; [24; 25; 26]].
Definition amp_c : image Z := [[31; 32; 33]; [34; 35; 36]].
Definition amp_d : image Z := [[41; 42; 43]; [44; 45; 46]].




(** Options that stack without rejection by the given method and return
    the variance; a cube of one row whose first pixel holds the value 5
    in its two good frames, and whose second pixel is masked in every
    frame. *)
Definition kw_no_reject (method : string) : kwargs :=
  mk_kwargs None None None (Some true) None None (Some PyNone)
    (Some (PyStr method)) None None None None None None.

Definition patchy_frames : cube sample :=
  [[ [smp 5; (Qc_of 9, true); smp 5];
     [(Qc_of 1, true); (Qc_of 2, true); (Qc_of 3, true)] ]].


Definition sized_header : header :=
  <["NAXIS1" := PyInt 2]>
    (<["NAXIS2" := PyInt 3]> (hdu_header (flat_amp "IM4" 5))).

(** Stand-ins for the parameters of the overscan fit: a spline that
    returns the row means, and zero under the mask.  Options that reject
    nothing; an overscan too narrow for the default [mask_at], and one of
    five columns at the level 500; an amplifier of two rows whose data
    section is two columns wide, next to five overscan columns at 500. *)
Definition spline_is_mean (interval : pyobj) (means : list (option Qc))
  : result (list (option Qc)) := Ok means.

Definition kw_oscan (method : option pyobj) : oscan_kwargs :=
  mk_oscan_kwargs (Some PyNone) method None None None None None.

Definition narrow_overscan : image sample :=
  plain [[Qc_of 1; Qc_of 2]; [Qc_of 3; Qc_of 4]].

Definition level_overscan : image sample :=
  plain (replicate 2 (replicate 5 (Qc_of 500))).


(** Options that stack the one extension [IM4] by the mean. *)
Definition kw_mean_one_extension : kwargs :=
  mk_kwargs (Some ["IM4"]) None None None None None None
    (Some (PyStr "mean")) None None None None None None.

(** An extension of two rows and four columns. *)
Definition binned_amp : hdu num :=
  mk_hdu (Some "CCD1")
    (<["NAXIS1" := PyInt 4]> (<["NAXIS2" := PyInt 2]> ∅))
    (Some (map (map nZ) [[1; 2; 3; 4]; [5; 6; 7; 8]])).

(* ===================================================================== *)
(** * Part II: lemmas and theorems *)
(* ===================================================================== *)

Example fmt_examples :
  fmt_d 4032 = "4032" /\ fmt_0d 2 7 = "07" /\ fmt_0d 3 12 = "012" /\
  str_replace "IM" "" "IM12" = "12" /\ py_int "12" = Ok 12 /\
  _convertfitsreg (PyStr "[1:2016,1:4096]") = Ok (0, 2016, 0, 4096).
Proof. repeat split; vm_compute; reflexivity. Qed.

Example default_gain_examples :
  default_input_gain !! "IM4" = Some (Fin (dec 124556017 8)) /\
  default_input_gain !! "IM1" = Some (Fin (dec 128293753 8)) /\
  default_input_gain !! "IM15" = Some (Fin (dec 140 2)) /\
  bok90mef_extensions !! 0%nat = Some "IM4".
Proof. repeat split; by vm_compute. Qed.

Example py_slice_examples :
  py_slice (Some 1) (Some (-1)) [1; 2; 3; 4] = [2; 3] /\
  py_slice (Some (-3)) None [1; 2; 3; 4] = [2; 3; 4] /\
  py_slice (Some 3) (Some 1) [1; 2; 3; 4] = [] /\
  py_slice (Some 2) (Some 9) [1; 2; 3; 4] = [3; 4].
Proof. repeat split. Qed.

(** ** The result monad *)

Lemma bind_Ok {A B} (m : result A) (f : A -> result B) (b : B) :
  m ≫= f = Ok b -> exists a, m = Ok a /\ f a = Ok b.
Proof. destruct m as [a|e]; simpl; [eauto | discriminate]. Qed.

Lemma fmap_Ok {A B} (m : result A) (f : A -> B) (b : B) :
  f <$> m = Ok b -> exists a, m = Ok a /\ b = f a.
Proof. destruct m as [a|e]; simpl; [ | discriminate]. intros [= <-]. eauto. Qed.

Lemma of_option_Ok {A} (e : exn) (o : option A) (a : A) :
  of_option e o = Ok a -> o = Some a.
Proof. destruct o; simpl; intros H; by simplify_eq. Qed.

(** Inverts a hypothesis [m ≫= f = Ok b]. *)
Ltac inv_bind H :=
  let a := fresh "a" in
  let Ha := fresh "Ha" in
  apply bind_Ok in H; destruct H as (a & Ha & H).

(** ** The region resolver *)

Lemma py_eq_str_false (s t : string) : s <> t -> py_eq_str (PyStr s) t = false.
Proof. intros Hne. unfold py_eq_str. by rewrite bool_decide_eq_false. Qed.



(** The five named regions resolve to their table entries. *)
Lemma stats_region_named :
  stats_region (PyStr "amp_central_quadrant")
  = Ok (region4 512 (-512) 512 (-512)) /\
  stats_region (PyStr "amp_corner_ccdcenter_small")
  = Ok (region4 (-512) (-50) (-512) (-50)) /\
  stats_region (PyStr "amp_corner_ccdcenter")
  = Ok (region4 (-1024) (-1) (-1024) (-1)) /\
  stats_region (PyStr "centeramp_corner_fovcenter")
  = Ok (region4 50 1024 50 1024) /\
  stats_region (PyStr "ccd_central_quadrant")
  = Ok (region4 1024 (-1024) 1024 (-1024)).
Proof. by repeat split. Qed.

(** Only the caller's unpacking notices a tuple that is not a region. *)
Lemma tuple_of_wrong_length_fails_at_unpack (l : list pyobj) :
  length l <> 4%nat ->
  stats_region (PyTuple l) ≫= unpack4 = Raise ValueError.
Proof.
  intros Hlen. simpl.
  destruct l as [|a [|b [|c [|d [|e l]]]]]; simpl in *; congruence.
Qed.

(** C10.  A tuple goes through the resolver as it is, whatever its length
    and whatever it holds: the result is never the [ValueError] of an
    unknown tag and never an entry of the table of named regions.  A
    tuple that is not a region is only noticed later, when the caller
    unpacks it into four bounds or slices with them. *)
Theorem stats_region_tuple_unchanged (l : list pyobj) :
  stats_region (PyTuple l) = Ok (PyTuple l) /\
  (forall e, stats_region (PyTuple l) <> Raise e) /\
  (length l <> 4%nat ->
   (stats_region (PyTuple l) ≫= unpack4) = Raise ValueError) /\
  (forall a b c d (im : list (list Z)),
     l = [a; b; c; d] ->
     (reg ← (stats_region (PyTuple l) ≫= unpack4); slice_region reg im)
     = slice_region (a, b, c, d) im).
Proof.
  split; [reflexivity | ]. split; [discriminate | ].
  split; [apply tuple_of_wrong_length_fails_at_unpack | ].
  by intros a b c d im ->.
Qed.

(** ** Overscan extraction *)

(** The row strip is returned exactly when [NAXIS2] exceeds the upper row
    bound of [DATASEC] by more than one. *)
Lemma extract_overscan_rows_iff {A} (imhdu : hdu A) data cols rows
    (x1 x2 y1 y2 naxis2 : Z) :
  extract_overscan imhdu = Ok (data, cols, rows) ->
  hdr_get (hdu_header imhdu) "DATASEC" ≫= _convertfitsreg
  = Ok (x1, x2, y1, y2) ->
  hdu_header imhdu !! "NAXIS2" = Some (PyInt naxis2) ->
  is_Some rows <-> naxis2 > y2 + 1.
Proof.
  unfold extract_overscan. intros H Hsec Hnax.
  inv_bind H. inv_bind H. inv_bind H. destruct a1 as [[[bx1 bx2] by1] by2].
  inv_bind H. rewrite Ha2 in Hsec. simpl in Hsec.
  rewrite Hsec in H. simpl in H.
  unfold hdr_get in H. rewrite Hnax in H. simpl in H.
  injection H as _ _ <-.
  destruct (decide (naxis2 > y2 + 1)); split; intros Hr; try done.
Qed.

(** C8 at an amplifier with a single row below its data section: the
    array has three rows, [DATASEC] ends at row 2, and the comment in the
    code promises "any extra rows outside of DATASEC"; yet the test
    [NAXIS2 > y2+1] fails and no row strip is returned, although the
    slice the code would take, [data[y2:,:]], holds that row. *)
Theorem extract_overscan_single_extra_row :
  hdu_wf amp_one_extra_row /\
  _convertfitsreg (PyStr "[1:2,1:2]") = Ok (0, 2, 0, 2) /\
  hdu_header amp_one_extra_row !! "NAXIS2" = Some (PyInt 3) /\
  extract_overscan amp_one_extra_row
  = Ok ([[1; 2]; [4; 5]], [[3]; [6]], None) /\
  slice2 (Some 2) None None None [[1; 2; 3]; [4; 5; 6]; [7; 8; 9]]
  = [[7; 8; 9]].
Proof.
  split; [ | by vm_compute].
  exists [[1; 2; 3]; [4; 5; 6]; [7; 8; 9]]. split; [done | ].
  split; [by vm_compute | ].
  intros row Hrow. 
  assert (length row = 3%nat) as ->; [ | by vm_compute].
  rewrite !elem_of_cons, elem_of_nil in Hrow.
  by destruct Hrow as [-> | [-> | [-> | []]]].
Qed.

(** ** Rejection of the extremes *)

(** C1 at three frames of two pixels.  The frames holding a maximum are
    frame 2 (pixel 0) and frame 1 (pixel 1); both are masked at both
    pixels, which leaves frame 0 as the minimum everywhere, and it is
    masked too.  No contributor is left and the stack is masked at both
    pixels, where the claim promises the middle samples 2 and 2. *)
Theorem stack_minmax_three_frames_all_masked :
  forall sigma_clip_last normalize_scales,
    reject_minmax three_frames
    = Ok [[ [(Qc_of 1, true); (Qc_of 2, true); (Qc_of 3, true)];
            [(Qc_of 2, true); (Qc_of 3, true); (Qc_of 1, true)] ]] /\
    stack_image_cube sigma_clip_last normalize_scales three_frames kw_minmax
    = Ok ([[None; None]], []).
Proof. intros sc ns. split; by vm_compute. Qed.

(** ** Cubes and their row ranges *)






Section CubeSubsetFacts.

Variable fitsio_slice_outside : Z -> Z -> image Qc -> result (image Qc).






End CubeSubsetFacts.

(** ** Stacking bias frames *)

Lemma run_bind {A B} (m : io A) (f : A -> io B) (fs : filesystem) :
  run (m ≫= f) fs
  = match run m fs with
    | (Ok a, fs') => run (f a) fs'
    | (Raise e, fs') => (Raise e, fs')
    end.
Proof. reflexivity. Qed.

(** A loop whose body raises at its first element raises there. *)
Lemma for_each_raises {A} (x : A) (l : list A) (body : A -> io unit)
    (fs fs' : filesystem) (e : exn) :
  run (body x) fs = (Raise e, fs') ->
  run (for_each (x :: l) body) fs = (Raise e, fs').
Proof.
  intros H.
  change (run (for_each (x :: l) body) fs)
    with (run (body x ≫= fun _ => for_each l body) fs).
  by rewrite run_bind, H.
Qed.

Lemma run_lift {A} (r : result A) fs : run (lift r) fs = (r, fs).
Proof. reflexivity. Qed.

Lemma run_reading {A} (f : filesystem -> result A) fs :
  run (reading f) fs = (f fs, fs).
Proof. reflexivity. Qed.

Lemma run_ret {A} (a : A) fs : run (mret a) fs = (Ok a, fs).
Proof. reflexivity. Qed.

Lemma run_fits_write_Some path h hs fs :
  fs !! path = Some hs ->
  run (fits_write path h) fs = (Ok (), <[path := (hs ++ [h])%list]> fs).
Proof. intros H. unfold fits_write. simpl. by rewrite H. Qed.

Section StackBiasFacts.

Variable sigma_clip_last : pyobj -> pyobj -> list sample -> list sample.
Variable normalize_scales :
  bool -> pyobj * pyobj * pyobj * pyobj -> cube sample -> result (list Qc).
Variable first_good_row : cube sample -> nat -> result Z.
Variable masked_fill : Qc.

(** The combine step knows ['mean'] and ['median'] only. *)
Lemma stack_combine_clipped_mean imcube scales kw :
  kw_method kw = Some (PyStr "clipped_mean") ->
  stack_combine imcube scales kw = Raise ValueError.
Proof. intros H. unfold stack_combine. by rewrite H. Qed.

Lemma stack_image_cube_clipped_mean imCube kw :
  kw_method kw = Some (PyStr "clipped_mean") ->
  exists e,
    stack_image_cube sigma_clip_last normalize_scales imCube kw = Raise e.
Proof.
  intros H. unfold stack_image_cube.
  destruct (stack_prepare _ _ imCube kw) as [[c sc]|e]; simpl; [ | by eauto].
  rewrite stack_combine_clipped_mean by done. by eauto.
Qed.

Lemma setdefault_method_absent kw v w :
  kw_method kw = None ->
  kw_method (setdefault_clip_iters w (setdefault_method v kw)) = Some v.
Proof. intros H. simpl. by rewrite H. Qed.

(** Stacking one extension with the method ['clipped_mean'] raises, and
    writes nothing. *)
Lemma stack_bias_extension_raises fileList kw out varout wv cdr extn fs :
  kw_method kw = Some (PyStr "clipped_mean") ->
  exists e,
    run (stack_bias_extension sigma_clip_last normalize_scales
           first_good_row masked_fill fileList kw out varout wv cdr extn) fs
    = (Raise e, fs).
Proof.
  intros Hm. unfold stack_bias_extension.
  rewrite run_bind, run_reading.
  destruct (build_cube fs fileList extn MasksNone) as [cube|e];
    [ | by eauto].
  rewrite run_bind.
  assert (Hdrop : exists r,
    run (if cdr then lift (mask_dropped_rows first_good_row cube)
         else mret cube) fs = (r, fs)).
  { destruct cdr; [rewrite run_lift | rewrite run_ret]; eauto. }
  destruct Hdrop as [r ->]. destruct r as [cube'|e]; [ | by eauto].
  rewrite run_bind, run_lift.
  destruct (stack_image_cube_clipped_mean cube' kw Hm) as [e ->]. by eauto.
Qed.

(** C9.  A call that passes no [method] stacks with ['clipped_mean'],
    which the combine step of [stack_image_cube] does not know.  So the
    call never returns normally when there is an extension to stack; and
    when the inputs can be read and the options used before the combine
    step are valid, what it raises is the [ValueError] of the unknown
    method, at the first extension, with the output file already created
    and holding the primary header (and likewise the variance file, when
    asked for). *)
Theorem stack_bias_frames_default_method_raises
    (fileList : list string) (kw : kwargs) (fs : filesystem) :
  kw_method kw = None ->
  default bok90mef_extensions (kw_extensions kw) <> [] ->
  let kw' := setdefault_clip_iters (PyInt 1)
               (setdefault_method (PyStr "clipped_mean") kw) in
  let out := path_join (default "./" (kw_output_dir kw))
               (default "bias.fits" (kw_output_file kw)) in
  let varout := path_join (default "./" (kw_output_dir kw))
                  (default "biasvar.fits" (kw_var_output_file kw)) in
  let bias := stack_bias_frames sigma_clip_last normalize_scales
                first_good_row masked_fill fileList kw in
  kw_method kw' = Some (PyStr "clipped_mean") /\
  (exists e fs', run bias fs = (Raise e, fs')) /\
  forall extn rest hdr cube cube' prepared,
    default bok90mef_extensions (kw_extensions kw) = extn :: rest ->
    _write_stack_header_cards (run (open_rw out) fs).2 fileList "BIAS"
    = Ok hdr ->
    let primary := mk_hdu None hdr None in
    let fs1 := <[out := (default [] (fs !! out) ++ [primary])%list]> fs in
    let fs2 := if default false (kw_with_variance kw)
               then <[varout :=
                        (default [] (fs1 !! varout) ++ [primary])%list]> fs1
               else fs1 in
    build_cube fs2 fileList extn MasksNone = Ok cube ->
    (if default false (kw_check_dropped_rows kw)
     then mask_dropped_rows first_good_row cube else Ok cube) = Ok cube' ->
    stack_prepare sigma_clip_last normalize_scales cube' kw' = Ok prepared ->
    run bias fs = (Raise ValueError, fs2) /\
    exists hdus, fs2 !! out = Some hdus /\ primary ∈ hdus.
Proof.
  intros Hm Hext kw' out varout bias.
  assert (Hm' : kw_method kw' = Some (PyStr "clipped_mean"))
    by (by apply setdefault_method_absent).
  split; [exact Hm' | ].
  (* the state after the output file is opened *)
  assert (Hopen : exists fs0,
    run (open_rw out) fs = (Ok (), fs0) /\
    fs0 !! out = Some (default [] (fs !! out)) /\
    forall hs, <[out := hs]> fs0 = <[out := hs]> fs).
  { unfold open_rw. cbn [run]. destruct (fs !! out) as [hs|] eqn:Hout.
    - by exists fs.
    - exists (<[out := []]> fs). split; [done | ]. split.
      + by rewrite lookup_insert_eq.
      + intros hs. by rewrite insert_insert_eq. }
  destruct Hopen as (fs0 & Hrun0 & Hfs0 & Hins).
  split.
  - (* some exception, always *)
    subst bias. unfold stack_bias_frames. fold kw' out varout.
    rewrite run_bind, Hrun0. rewrite run_bind, run_reading.
    destruct (_write_stack_header_cards fs0 fileList "BIAS") as [hdr|e];
      [ | by eauto].
    set (P := mk_hdu None hdr None).
    rewrite run_bind, (run_fits_write_Some _ _ _ _ Hfs0).
    rewrite run_bind.
    assert (Hvar : exists r fsv,
      run (if default false (kw_with_variance kw)
           then open_rw varout ≫= fun _ => fits_write varout P
           else mret ())
          (<[out := (default [] (fs !! out) ++ [P])%list]> fs0) = (r, fsv)).
    { by eexists _, _; apply surjective_pairing. }
    destruct Hvar as (r & fsv & ->). destruct r as [[]|e]; [ | by eauto].
    destruct (default bok90mef_extensions (kw_extensions kw))
      as [|extn rest]; [done | ].
    destruct (stack_bias_extension_raises fileList kw' out varout
                (default false (kw_with_variance kw))
                (default false (kw_check_dropped_rows kw')) extn fsv Hm')
      as [e He].
    exists e, fsv. by apply for_each_raises.
  - (* the exception of the unknown method *)
    intros extn rest hdr cube cube' prepared Hexts Hhdr primary fs1 fs2
      Hcube Hdrop Hprep.
    rewrite Hrun0 in Hhdr. simpl in Hhdr.
    assert (Hfs1 : fs1 = <[out := (default [] (fs !! out) ++ [primary])%list]>
                           fs0) by (by rewrite Hins).
    assert (Hheaders :
      run (if default false (kw_with_variance kw)
           then open_rw varout ≫= fun _ => fits_write varout primary
           else mret ()) fs1 = (Ok (), fs2)).
    { subst fs2. destruct (default false (kw_with_variance kw)); [ | done].
      rewrite run_bind. unfold open_rw at 1. cbn [run].
      destruct (fs1 !! varout) as [hs|] eqn:Hv.
      - by rewrite (run_fits_write_Some _ _ _ _ Hv).
      - rewrite (run_fits_write_Some _ _ [] _) by apply lookup_insert_eq.
        by rewrite insert_insert_eq. }
    split.
    + subst bias. unfold stack_bias_frames. fold kw' out varout.
      rewrite run_bind, Hrun0. rewrite run_bind, run_reading, Hhdr.
      rewrite run_bind, (run_fits_write_Some _ _ _ _ Hfs0).
      rewrite run_bind. fold primary. rewrite <- Hfs1, Hheaders.
      rewrite Hexts. apply for_each_raises.
      unfold stack_bias_extension. rewrite run_bind, run_reading, Hcube.
      rewrite run_bind.
      assert (Hd : run (if default false (kw_check_dropped_rows kw')
                        then lift (mask_dropped_rows first_good_row cube)
                        else mret cube) fs2 = (Ok cube', fs2)).
      { change (kw_check_dropped_rows kw') with (kw_check_dropped_rows kw).
        destruct (default false (kw_check_dropped_rows kw)).
        - by rewrite run_lift, Hdrop.
        - rewrite run_ret. by injection Hdrop as ->. }
      rewrite Hd. rewrite run_bind, run_lift.
      unfold stack_image_cube. rewrite Hprep. simpl.
      destruct prepared as [c sc].
      by rewrite stack_combine_clipped_mean.
    + subst fs2. destruct (default false (kw_with_variance kw)).
      * destruct (decide (varout = out)) as [->|Hne].
        -- eexists. rewrite lookup_insert_eq. split; [done | ].
           apply elem_of_app. right. by apply list_elem_of_singleton.
        -- eexists. rewrite lookup_insert_ne by done.
           subst fs1. rewrite lookup_insert_eq. split; [done | ].
           apply elem_of_app. right. by apply list_elem_of_singleton.
      * eexists. subst fs1. rewrite lookup_insert_eq. split; [done | ].
        apply elem_of_app. right. by apply list_elem_of_singleton.
Qed.

End StackBiasFacts.

(** ** Rotations, flips and tiles *)

Ltac map_to_fmap :=
  repeat match goal with
         | |- context [map ?f ?l] => change (map f l) with (f <$> l)
         end.

Section Pixels.

Context {A : Type}.
Implicit Types (im a b : image A) (h w i j : nat).

Lemma rect_lookup h w im i row :
  rect h w im -> im !! i = Some row -> length row = w.
Proof.
  intros [_ Hall] Hrow. rewrite Forall_forall in Hall.
  apply Hall. by eapply list_elem_of_lookup_2.
Qed.

Lemma rect_ncols h w im : rect h w im -> (0 < h)%nat -> ncols im = w.
Proof.
  intros [Hlen Hall] Hh. destruct im as [|row im]; simpl in *; [lia | ].
  by apply Forall_cons in Hall as [? _].
Qed.

Lemma column_lookup j im i :
  Forall (fun row => (j < length row)%nat) im ->
  column j im !! i = px im i j.
Proof.
  unfold column, px. intros Hall. revert i.
  induction Hall as [|row im Hrow _ IH]; intros i; [done | ].
  apply lookup_lt_is_Some_2 in Hrow as [x Hx].
  simpl. rewrite Hx. destruct i as [|i]; simpl; [done | apply IH].
Qed.

Lemma length_column j im :
  Forall (fun row => (j < length row)%nat) im ->
  length (column j im) = length im.
Proof.
  unfold column. induction 1 as [|row im Hrow _ IH]; [done | ].
  apply lookup_lt_is_Some_2 in Hrow as [x Hx].
  simpl. rewrite Hx. simpl. f_equal. exact IH.
Qed.

Lemma rect_columns h w im j :
  rect h w im -> (j < w)%nat ->
  Forall (fun row => (j < length row)%nat) im.
Proof.
  intros [_ Hall] Hj. eapply Forall_impl; [exact Hall | ].
  simpl. intros; lia.
Qed.

Lemma transpose_spec h w im :
  rect h w im -> (0 < h)%nat ->
  rect w h (transpose im) /\
  forall i j, (i < w)%nat -> px (transpose im) i j = px im j i.
Proof.
  intros Hr Hh. unfold transpose. rewrite (rect_ncols h w) by done.
  split.
  - split; [by rewrite length_map, length_seq | ].
    rewrite Forall_forall. intros col Hcol.
    map_to_fmap. apply list_elem_of_fmap in Hcol as (j & -> & Hj).
    apply elem_of_seq in Hj.
    rewrite length_column by (eapply rect_columns; [done | lia]).
    by destruct Hr.
  - intros i j Hi. unfold px at 1. map_to_fmap.
    rewrite list_lookup_fmap, lookup_seq_lt by done. simpl.
    apply column_lookup. by eapply rect_columns.
Qed.

Lemma fliplr_spec h w im :
  rect h w im ->
  rect h w (fliplr im) /\
  forall i j, (j < w)%nat -> px (fliplr im) i j = px im i (w - S j).
Proof.
  intros Hr. unfold fliplr. split.
  - destruct Hr as [Hlen Hall]. split; [by rewrite length_map | ].
    map_to_fmap. apply Forall_fmap. eapply Forall_impl; [exact Hall | ].
    simpl. intros row <-. apply length_reverse.
  - intros i j Hj. unfold px. map_to_fmap. rewrite list_lookup_fmap.
    destruct (im !! i) as [row|] eqn:Hrow; simpl; [ | done].
    pose proof (rect_lookup _ _ _ _ _ Hr Hrow) as Hlen.
    rewrite reverse_lookup by lia. by rewrite Hlen.
Qed.

Lemma flipud_spec h w im :
  rect h w im ->
  rect h w (flipud im) /\
  forall i j, (i < h)%nat -> px (flipud im) i j = px im (h - S i) j.
Proof.
  intros [Hlen Hall]. unfold flipud. split.
  - split; [by rewrite length_reverse | ]. by apply Forall_reverse.
  - intros i j Hi. unfold px. rewrite reverse_lookup by lia.
    by rewrite Hlen.
Qed.

(** A quarter turn counter-clockwise: row [i] of the result is column
    [w-1-i] of the array. *)
Lemma rot90_1_spec h w im :
  rect h w im -> (0 < h)%nat ->
  rect w h (rot90 1 im) /\
  forall i j, (i < w)%nat -> px (rot90 1 im) i j = px im j (w - S i).
Proof.
  intros Hr Hh. change (rot90 1 im) with (transpose (fliplr im)).
  destruct (fliplr_spec h w im Hr) as [Hr1 Hpx1].
  destruct (transpose_spec h w (fliplr im) Hr1 Hh) as [Hr2 Hpx2].
  split; [done | ]. intros i j Hi. rewrite Hpx2 by done. by apply Hpx1.
Qed.

(** A half turn. *)
Lemma rot90_2_spec h w im :
  rect h w im ->
  rect h w (rot90 2 im) /\
  forall i j, (i < h)%nat -> (j < w)%nat ->
    px (rot90 2 im) i j = px im (h - S i) (w - S j).
Proof.
  intros Hr. change (rot90 2 im) with (fliplr (flipud im)).
  destruct (flipud_spec h w im Hr) as [Hr1 Hpx1].
  destruct (fliplr_spec h w (flipud im) Hr1) as [Hr2 Hpx2].
  split; [done | ]. intros i j Hi Hj. rewrite Hpx2 by done. by apply Hpx1.
Qed.

(** Three quarter turns: row [i] of the result is column [i] of the
    array, read upwards. *)
Lemma rot90_3_spec h w im :
  rect h w im -> (0 < h)%nat ->
  rect w h (rot90 3 im) /\
  forall i j, (i < w)%nat -> (j < h)%nat ->
    px (rot90 3 im) i j = px im (h - S j) i.
Proof.
  intros Hr Hh. change (rot90 3 im) with (fliplr (transpose im)).
  destruct (transpose_spec h w im Hr Hh) as [Hr1 Hpx1].
  destruct (fliplr_spec w h (transpose im) Hr1) as [Hr2 Hpx2].
  split; [done | ]. intros i j Hi Hj. rewrite Hpx2 by done. by apply Hpx1.
Qed.

Lemma hstack2_spec h wa wb a b :
  rect h wa a -> rect h wb b ->
  exists ab,
    hstack2 a b = Ok ab /\ rect h (wa + wb) ab /\
    (forall i j, (j < wa)%nat -> px ab i j = px a i j) /\
    (forall i j, px ab i (wa + j) = px b i j).
Proof.
  intros Ha Hb. exists (zip_with (fun r1 r2 => (r1 ++ r2)%list) a b).
  unfold hstack2. rewrite decide_True by (destruct Ha, Hb; congruence).
  split; [done | ].
  assert (Hpx : forall i,
    zip_with (fun r1 r2 => (r1 ++ r2)%list) a b !! i
    = r1 ← a !! i; r2 ← b !! i; Some (r1 ++ r2)%list).
  { intros i. rewrite lookup_zip_with. done. }
  split; [ | split].
  - split.
    + rewrite length_zip_with. destruct Ha, Hb. lia.
    + apply Forall_lookup. intros i row Hrow. rewrite Hpx in Hrow.
      destruct (a !! i) as [r1|] eqn:H1; [ | done].
      destruct (b !! i) as [r2|] eqn:H2; [ | done].
      injection Hrow as <-. rewrite length_app.
      by rewrite (rect_lookup _ _ _ _ _ Ha H1), (rect_lookup _ _ _ _ _ Hb H2).
  - intros i j Hj. unfold px. rewrite Hpx.
    destruct (a !! i) as [r1|] eqn:H1; simpl; [ | done].
    destruct (b !! i) as [r2|] eqn:H2; simpl.
    + apply lookup_app_l. by rewrite (rect_lookup _ _ _ _ _ Ha H1).
    + apply lookup_ge_None in H2. apply lookup_lt_Some in H1.
      destruct Ha, Hb. lia.
  - intros i j. unfold px. rewrite Hpx.
    destruct (b !! i) as [r2|] eqn:H2; simpl.
    + destruct (a !! i) as [r1|] eqn:H1; simpl.
      * rewrite lookup_app_r by (rewrite (rect_lookup _ _ _ _ _ Ha H1); lia).
        rewrite (rect_lookup _ _ _ _ _ Ha H1). f_equal. lia.
      * apply lookup_ge_None in H1. apply lookup_lt_Some in H2.
        destruct Ha, Hb. lia.
    + by destruct (a !! i).
Qed.

Lemma vstack2_spec h w a b :
  rect h w a -> rect h w b ->
  exists ab,
    vstack2 a b = Ok ab /\ rect (h + h) w ab /\
    (forall i j, (i < h)%nat -> px ab i j = px a i j) /\
    (forall i j, px ab (h + i) j = px b i j).
Proof.
  intros Ha Hb. exists (a ++ b)%list. unfold vstack2.
  assert (ncols a = ncols b) as Hn.
  { destruct (decide (0 < h)%nat) as [Hh|Hh].
    - by rewrite (rect_ncols h w a), (rect_ncols h w b).
    - destruct Ha as [Hla _], Hb as [Hlb _].
      destruct a, b; simpl in *; lia || done. }
  rewrite decide_True by done. split; [done | ].
  destruct Ha as [Hla Halla], Hb as [Hlb Hallb].
  split; [ | split].
  - split; [rewrite length_app; lia | by apply Forall_app].
  - intros i j Hi. unfold px. by rewrite lookup_app_l by lia.
  - intros i j. unfold px. rewrite lookup_app_r by lia.
    do 2 f_equal. lia.
Qed.

End Pixels.

(** ** The mosaic of a CCD *)

Lemma _orient_mosaic_pixels {A} hdr (im1 im2 im3 im4 : image A) ccdNum origin
    out hdr' :
  _orient_mosaic hdr [im1; im2; im3; im4] ccdNum origin = Ok (out, hdr') ->
  orient_pixels im1 im2 im3 im4 ccdNum origin = Ok out.
Proof.
  unfold _orient_mosaic. intros H. inv_bind H. inv_bind H.
  by injection H as -> _.
Qed.

(** C4.  For four amplifier images of one shape, [h] rows by [w] columns:
    the mosaic is the tile of the four transformed images, images 2 and 4
    side by side in the first [w] rows and images 1 and 3 in the last
    [w]; pixel by pixel, image 2 is transposed (a quarter turn, then
    flipped top to bottom), image 4 is turned three quarters, image 1 a
    quarter, and image 3 is turned a quarter and flipped left to right.
    With the origin ['lower left'] that is the mosaic; with ['center'] it
    is flipped left to right for CCD 1, turned by a half for CCD 2, kept
    for CCD 3 and flipped top to bottom for CCD 4. *)
Theorem orient_mosaic_layout {A} (h w : nat) (im1 im2 im3 im4 : image A) :
  (0 < h)%nat ->
  rect h w im1 -> rect h w im2 -> rect h w im3 -> rect h w im4 ->
  exists tiled,
    tiled = (zip_with (fun r1 r2 => r1 ++ r2) (flipud (rot90 1 im2))
                      (rot90 3 im4)
             ++ zip_with (fun r1 r2 => r1 ++ r2) (rot90 1 im1)
                         (fliplr (rot90 1 im3)))%list /\
    rect (w + w) (h + h) tiled /\
    (forall i j, (i < w)%nat -> (j < h)%nat ->
       px tiled i j = px im2 j i /\
       px tiled i (h + j) = px im4 (h - S j) i /\
       px tiled (w + i) j = px im1 j (w - S i) /\
       px tiled (w + i) (h + j) = px im3 (h - S j) (w - S i)) /\
    (forall ccdNum,
       orient_pixels im1 im2 im3 im4 ccdNum (PyStr "lower left")
       = Ok tiled) /\
    orient_pixels im1 im2 im3 im4 1 (PyStr "center") = Ok (fliplr tiled) /\
    orient_pixels im1 im2 im3 im4 2 (PyStr "center") = Ok (rot90 2 tiled) /\
    orient_pixels im1 im2 im3 im4 3 (PyStr "center") = Ok tiled /\
    orient_pixels im1 im2 im3 im4 4 (PyStr "center") = Ok (flipud tiled) /\
    (forall i j, (i < w + w)%nat -> (j < h + h)%nat ->
       px (fliplr tiled) i j = px tiled i (h + h - S j) /\
       px (rot90 2 tiled) i j = px tiled (w + w - S i) (h + h - S j) /\
       px (flipud tiled) i j = px tiled (w + w - S i) j).
Proof.
  intros Hh H1 H2 H3 H4.
  (* the four oriented amplifiers *)
  destruct (rot90_1_spec h w im2 H2 Hh) as [Hr2 Hp2].
  destruct (flipud_spec w h _ Hr2) as [Hr2' Hp2'].
  destruct (rot90_3_spec h w im4 H4 Hh) as [Hr4 Hp4].
  destruct (rot90_1_spec h w im1 H1 Hh) as [Hr1 Hp1].
  destruct (rot90_1_spec h w im3 H3 Hh) as [Hr3 Hp3].
  destruct (fliplr_spec w h _ Hr3) as [Hr3' Hp3'].
  (* the two rows of the layout, then the layout *)
  destruct (hstack2_spec w h h _ _ Hr2' Hr4)
    as (top & Htop & Hrt & Htl & Htr).
  destruct (hstack2_spec w h h _ _ Hr1 Hr3')
    as (bot & Hbot & Hrb & Hbl & Hbr).
  destruct (vstack2_spec w (h + h) _ _ Hrt Hrb)
    as (tiled & Htiled & Hr & Hup & Hdown).
  assert (Hll : forall ccdNum origin,
    orient_pixels im1 im2 im3 im4 ccdNum origin
    = if py_eq_str origin "lower left" then Ok tiled
      else if py_eq_str origin "center" then
        if decide (ccdNum = 1) then Ok (fliplr tiled)
        else if decide (ccdNum = 2) then Ok (rot90 2 tiled)
        else if decide (ccdNum = 3) then Ok tiled
        else if decide (ccdNum = 4) then Ok (flipud tiled)
        else Ok tiled
      else Ok tiled).
  { intros. unfold orient_pixels. rewrite Htop. simpl. rewrite Hbot. simpl.
    by rewrite Htiled. }
  exists tiled. split.
  { unfold hstack2 in Htop, Hbot. unfold vstack2 in Htiled.
    repeat case_decide; try done.
    injection Htop as <-. injection Hbot as <-. by injection Htiled as <-. }
  split; [exact Hr | ].
  split.
  { intros i j Hi Hj. repeat split.
    - rewrite Hup, Htl, Hp2', Hp2 by lia. do 2 f_equal. lia.
    - rewrite Hup, Htr, Hp4 by lia. done.
    - rewrite Hdown, Hbl, Hp1 by lia. done.
    - rewrite Hdown, Hbr, Hp3', Hp3 by lia. done. }
  split; [intros; by rewrite Hll | ].
  rewrite !Hll. repeat (split; [done | ]).
  destruct (fliplr_spec _ _ _ Hr) as [_ Hfl].
  destruct (flipud_spec _ _ _ Hr) as [_ Hfu].
  destruct (rot90_2_spec _ _ _ Hr) as [_ Hrr].
  intros i j Hi Hj. repeat split; auto.
Qed.

(** ** Channel cards *)

Lemma string_app_nil_l (a : string) : "" ++ a = a.
Proof. reflexivity. Qed.

Lemma string_app_cons (c : ascii) (s a : string) :
  String c s ++ a = String c (s ++ a).
Proof. reflexivity. Qed.

Lemma string_length_app (s t : string) :
  String.length (s ++ t) = (String.length s + String.length t)%nat.
Proof.
  induction s as [|c s IH]; [done | ].
  rewrite string_app_cons. simpl. by rewrite IH.
Qed.

Lemma string_app_inv_head (s a b : string) : s ++ a = s ++ b -> a = b.
Proof.
  induction s as [|c s IH]; [done | ].
  rewrite !string_app_cons. intros [= H]. auto.
Qed.

(** Two strings that end in tails of one length end in the same tail. *)
Lemma string_app_suffix (s t a b : string) :
  String.length a = String.length b -> s ++ a = t ++ b -> a = b.
Proof.
  revert t. induction s as [|c s IH]; intros [|c' t] Hlen H;
    rewrite ?string_app_nil_l, ?string_app_cons in H.
  - done.
  - subst a. simpl in Hlen. rewrite string_length_app in Hlen. lia.
  - subst b. simpl in Hlen. rewrite string_length_app in Hlen. lia.
  - injection H as _ H. eauto.
Qed.

Lemma chan_letter_length i l : chan_letter i = Ok l -> String.length l = 1%nat.
Proof.
  unfold chan_letter, nth_or_raise.
  destruct i as [|[|[|[|i]]]]; simpl; intros H; by simplify_eq.
Qed.

Lemma chan_letter_inj i j l :
  chan_letter i = Ok l -> chan_letter j = Ok l -> i = j.
Proof.
  unfold chan_letter, nth_or_raise.
  destruct i as [|[|[|[|i]]]], j as [|[|[|[|j]]]]; simpl;
    intros H1 H2; by simplify_eq.
Qed.

(** The card of a channel determines its letter and its last part. *)
Lemma chan_card_inj name c c' l l' n n' :
  String.length l = 1%nat -> String.length l' = 1%nat ->
  String.length n = String.length n' ->
  chan_card name c l n = chan_card name c' l' n' -> l = l' /\ n = n'.
Proof.
  unfold chan_card. intros Hl Hl' Hn H.
  apply string_app_inv_head in H.
  apply string_app_suffix in H;
    [ | rewrite !string_length_app; lia].
  destruct l as [|a [|]], l' as [|a' [|]]; simpl in *; try done.
  rewrite !string_app_cons, !string_app_nil_l in H.
  by injection H as -> ->.
Qed.

Lemma string_app_assoc (s t u : string) : (s ++ t) ++ u = s ++ (t ++ u).
Proof.
  induction s as [|c s IH]; [done | ].
  rewrite !string_app_cons. by rewrite IH.
Qed.

(** A card that does not end in ["1"] is not the [GAINnnX1] card of any
    channel. *)
Lemma not_a_nominal_card (body : string) (last : ascii) :
  last <> "1"%char ->
  forall chNum letter,
    body ++ String last "" <> chan_card "GAIN" chNum letter "1".
Proof.
  intros Hlast chNum letter Heq. unfold chan_card in Heq.
  rewrite <- !string_app_assoc in Heq.
  apply string_app_suffix in Heq; [ | done]. by injection Heq.
Qed.

(** ** Gain balancing *)

Section GainFacts.

Variable clipped_mean : pyobj -> pyobj -> image num -> num.

Lemma nominal_cards_other i exts gain hdr hdr' key :
  nominal_cards i exts gain hdr = Ok hdr' ->
  (forall chNum letter, key <> chan_card "GAIN" chNum letter "1") ->
  hdr' !! key = hdr !! key.
Proof.
  intros H Hkey. revert i hdr H.
  induction exts as [|ext exts IH]; intros i hdr H; simpl in H.
  - by injection H as <-.
  - inv_bind H. inv_bind H. inv_bind H.
    rewrite (IH _ _ H). apply lookup_insert_ne.
    intros Heq. by eapply Hkey.
Qed.

Lemma nominal_cards_recorded i exts gain hdr hdr' k ext :
  nominal_cards i exts gain hdr = Ok hdr' ->
  exts !! k = Some ext ->
  exists chNum letter g,
    chan_number ext = Ok chNum /\ chan_letter (i + k) = Ok letter /\
    gain !! (i + k)%nat = Some g /\
    hdr' !! chan_card "GAIN" chNum letter "1" = Some (PyFloat g).
Proof.
  revert i hdr k. induction exts as [|e exts IH]; intros i hdr k H Hk;
    [done | ].
  simpl in H. inv_bind H. inv_bind H. inv_bind H.
  rename a into chNum, a0 into letter, a1 into g.
  destruct k as [|k].
  - injection Hk as <-. exists chNum, letter, g.
    rewrite Nat.add_0_r. repeat split; try done.
    { by apply of_option_Ok in Ha1. }
    (* the later cards carry other letters *)
    clear IH Ha Ha1.
    assert (Hlater : forall j exts0 hdr0,
      (i < j)%nat ->
      nominal_cards j exts0 gain hdr0 = Ok hdr' ->
      hdr' !! chan_card "GAIN" chNum letter "1"
      = hdr0 !! chan_card "GAIN" chNum letter "1").
    { intros j exts0. revert j.
      induction exts0 as [|e0 exts0 IH0]; intros j hdr0 Hj H0; simpl in H0.
      - by injection H0 as <-.
      - inv_bind H0. inv_bind H0. inv_bind H0.
        rewrite (IH0 (S j) _ ltac:(lia) H0).
        apply lookup_insert_ne. intros Heq.
        apply chan_card_inj in Heq as [-> _];
          eauto using chan_letter_length.
        match goal with
        | Hl : chan_letter j = Ok _ |- _ =>
            pose proof (chan_letter_inj _ _ _ Ha0 Hl)
        end. lia. }
    rewrite (Hlater (S i) exts _ ltac:(lia) H).
    apply lookup_insert_eq.
  - simpl in Hk. destruct (IH (S i) _ k H Hk) as (c & l & g' & ? & ? & ? & ?).
    exists c, l, g'. by rewrite <- Nat.add_succ_comm.
Qed.

(** With the sky correction off, [multiply_gain] multiplies each image
    by its input gain and adds the [GAINnnX1] cards, nothing else. *)
Lemma multiply_gain_nominal inFits extGroup hdr inputGain ampReg ccdReg
    clipArgs skyIn refAmp ims sc hdr' :
  multiply_gain clipped_mean inFits extGroup hdr false inputGain ampReg
    ccdReg clipArgs skyIn refAmp = Ok (ims, sc, hdr') ->
  exists ampIms gain,
    mapR (fun ext => fits_ext inFits ext ≫= hdu_read) extGroup = Ok ampIms /\
    mapR (fun ext => of_option KeyError (inputGain !! ext)) extGroup
    = Ok gain /\
    ims = zip_with (fun im g => scale_image g im) ampIms gain /\
    sc = None /\
    nominal_cards 0 extGroup gain hdr = Ok hdr'.
Proof.
  unfold multiply_gain. intros H.
  inv_bind H. inv_bind H. inv_bind H. inv_bind H.
  rename a1 into ampIms, a2 into gain.
  inv_bind H. destruct a1 as [[gain' sc'] hdr1].
  inv_bind Ha3. injection Ha3 as <- <- <-. injection H as <- <- <-.
  by exists ampIms, gain.
Qed.

(** What the sky branch returns, read off its definition. *)
Lemma sky_balance_inv ampIms extGroup gain ampReg ccdReg iters sig skyIn
    refAmp b :
  sky_balance clipped_mean ampIms extGroup gain ampReg ccdReg (iters, sig)
    skyIn refAmp = Ok b ->
  exists refAmpIndex ref centerAmp ci im_c reg_c g_c g2_c,
    mapR (fun im => clipped_mean iters sig <$> slice_region ampReg im) ampIms
    = Ok (b_rawSky b) /\
    index_of refAmp extGroup = Ok refAmpIndex /\
    zip_with nmul (b_rawSky b) gain !! refAmpIndex = Some ref /\
    b_gain2 b = map (fun c => ndiv ref c) (zip_with nmul (b_rawSky b) gain) /\
    head (filter (fun e => e ∈ bokCenterAmps) extGroup) = Some centerAmp /\
    index_of centerAmp extGroup = Ok ci /\
    ampIms !! ci = Some im_c /\
    slice_region ccdReg im_c = Ok reg_c /\
    gain !! ci = Some g_c /\
    b_gain2 b !! ci = Some g2_c /\
    b_skyCounts b = nmul (clipped_mean iters sig reg_c) (nmul g_c g2_c) /\
    b_gain3 b = match skyIn with
                | None => Fin 1%Qc
                | Some s => ndiv s (b_skyCounts b)
                end.
Proof.
  unfold sky_balance, nth_or_raise. intros H.
  inv_bind H. inv_bind H. inv_bind H. inv_bind H. inv_bind H. inv_bind H.
  inv_bind H. inv_bind H. inv_bind H. injection H as <-. simpl.
  destruct (zip_with nmul a gain !! a0) eqn:E1; [ | done].
  destruct (head (filter (fun e => e ∈ bokCenterAmps) extGroup)) eqn:E2;
    [ | done].
  destruct (ampIms !! a3) eqn:E3; [ | done].
  destruct (gain !! a3) eqn:E4; [ | done].
  destruct (map (fun c => ndiv a1 c) (zip_with nmul a gain) !! a3) eqn:E5;
    [ | done].
  simpl in *. injection Ha1 as <-. injection Ha2 as <-.
  injection Ha4 as <-. injection Ha6 as <-. injection Ha7 as <-.
  by eexists _, _, _, _, _, _, _, _.
Qed.

(** Amplifiers with one finite, non-zero sky count need no correction. *)
Lemma sky_balance_equal_sky ampIms extGroup gain ampReg ccdReg clipArgs
    skyIn refAmp b (s : Qc) :
  sky_balance clipped_mean ampIms extGroup gain ampReg ccdReg clipArgs
    skyIn refAmp = Ok b ->
  s <> 0%Qc ->
  Forall (fun c => c = Fin s) (zip_with nmul (b_rawSky b) gain) ->
  Forall (fun g2 => g2 = Fin 1%Qc) (b_gain2 b).
Proof.
  destruct clipArgs as [iters sig]. intros H Hs Hall.
  apply sky_balance_inv in H
    as (ri & ref & _ & _ & _ & _ & _ & _ & _ & _ & Href & -> & _).
  assert (ref = Fin s) as ->.
  { rewrite Forall_forall in Hall. apply Hall.
    by eapply list_elem_of_lookup_2. }
  map_to_fmap. apply Forall_fmap. eapply Forall_impl; [exact Hall | ].
  simpl. intros c ->. unfold ndiv. rewrite decide_False by done.
  f_equal. by field.
Qed.

End GainFacts.

Section CombineFacts.

Variable clipped_mean : pyobj -> pyobj -> image num -> num.

(** With the sky correction on, [multiply_gain] is the sky balance, its
    cards, and the product of the three factors. *)
Lemma multiply_gain_sky inFits extGroup hdr inputGain ampCorStatReg
    ccdCorStatReg clipArgs skyIn refAmp ims sc hdr' :
  multiply_gain clipped_mean inFits extGroup hdr true inputGain
    ampCorStatReg ccdCorStatReg clipArgs skyIn refAmp = Ok (ims, sc, hdr') ->
  exists ampReg ccdReg ampIms gain b hdr1,
    unpack4 ampCorStatReg = Ok ampReg /\
    unpack4 ccdCorStatReg = Ok ccdReg /\
    mapR (fun ext => fits_ext inFits ext ≫= hdu_read) extGroup = Ok ampIms /\
    mapR (fun ext => of_option KeyError (inputGain !! ext)) extGroup
    = Ok gain /\
    sky_balance clipped_mean ampIms extGroup gain ampReg ccdReg clipArgs
      skyIn refAmp = Ok b /\
    sky_cards 0 extGroup (b_rawSky b) gain (b_gain2 b) hdr = Ok hdr1 /\
    hdr' = <["CCDGAIN3" := PyFloat (b_gain3 b)]> hdr1 /\
    sc = Some (b_skyCounts b) /\
    ims = zip_with (fun im g => scale_image g im) ampIms
            (zip_with (fun g g2 => nmul g (nmul g2 (b_gain3 b)))
               gain (b_gain2 b)).
Proof.
  unfold multiply_gain. intros H.
  inv_bind H. inv_bind H. inv_bind H. inv_bind H.
  inv_bind H. destruct a3 as [[gain' sc'] hdr2].
  inv_bind Ha3. inv_bind Ha3.
  injection Ha3 as <- <- <-. injection H as <- <- <-.
  by eexists _, _, _, _, _, _.
Qed.

(** C6, as the code has it.  With the sky correction off, each image is
    multiplied by its input gain, each input gain is on its [GAINnnX1]
    card, and no other card is touched.  With the correction on, when the
    sky counts of the amplifiers (clipped sky level times input gain) are
    one finite value other than zero, every intra-CCD factor is 1. *)
Theorem multiply_gain_factors inFits extGroup hdr (skyGainCor : bool)
    inputGain ampCorStatReg ccdCorStatReg clipArgs skyIn refAmp ims sc hdr' :
  multiply_gain clipped_mean inFits extGroup hdr skyGainCor inputGain
    ampCorStatReg ccdCorStatReg clipArgs skyIn refAmp = Ok (ims, sc, hdr') ->
  exists ampIms gain,
    mapR (fun ext => fits_ext inFits ext ≫= hdu_read) extGroup = Ok ampIms /\
    mapR (fun ext => of_option KeyError (inputGain !! ext)) extGroup
    = Ok gain /\
    if skyGainCor then
      exists ampReg ccdReg b,
        unpack4 ampCorStatReg = Ok ampReg /\
        unpack4 ccdCorStatReg = Ok ccdReg /\
        sky_balance clipped_mean ampIms extGroup gain ampReg ccdReg clipArgs
          skyIn refAmp = Ok b /\
        forall s : Qc,
          s <> 0%Qc ->
          Forall (fun c => c = Fin s) (zip_with nmul (b_rawSky b) gain) ->
          Forall (fun g2 => g2 = Fin 1%Qc) (b_gain2 b)
    else
      ims = zip_with (fun im g => scale_image g im) ampIms gain /\
      sc = None /\
      (forall k ext,
         extGroup !! k = Some ext ->
         exists chNum letter g,
           chan_number ext = Ok chNum /\ chan_letter k = Ok letter /\
           gain !! k = Some g /\
           hdr' !! chan_card "GAIN" chNum letter "1" = Some (PyFloat g)) /\
      (forall key,
         (forall chNum letter, key <> chan_card "GAIN" chNum letter "1") ->
         hdr' !! key = hdr !! key).
Proof.
  intros H. destruct skyGainCor.
  - apply multiply_gain_sky in H
      as (ampReg & ccdReg & ampIms & gain & b & hdr1 & Hamp & Hccd & Hims
          & Hgain & Hb & _).
    exists ampIms, gain. repeat split; [done | done | ].
    exists ampReg, ccdReg, b. do 3 (split; [done | ]).
    intros s Hs Hall. by eapply sky_balance_equal_sky.
  - apply multiply_gain_nominal in H
      as (ampIms & gain & Hims & Hgain & -> & -> & Hcards).
    exists ampIms, gain. repeat split; try done.
    + intros k ext Hk.
      by apply (nominal_cards_recorded 0 extGroup gain hdr hdr' k ext).
    + intros key Hkey. by eapply nominal_cards_other.
Qed.


Lemma hsplit4_extns :
  hsplit4 extns
  = [ ["IM1"; "IM2"; "IM3"; "IM4"]; ["IM5"; "IM6"; "IM7"; "IM8"];
      ["IM9"; "IM10"; "IM11"; "IM12"]; ["IM13"; "IM14"; "IM15"; "IM16"] ].
Proof. by vm_compute. Qed.


End CombineFacts.

(** ** Sky subtraction *)


Lemma mapR_lookup {A B} (f : A -> result B) (l : list A) ys k x :
  mapR f l = Ok ys -> l !! k = Some x ->
  exists y, f x = Ok y /\ ys !! k = Some y.
Proof.
  revert ys k. induction l as [|x0 l IH]; intros ys k H Hk; [done | ].
  simpl in H. inv_bind H. inv_bind H. injection H as <-.
  destruct k as [|k]; simpl in *.
  - injection Hk as <-. eauto.
  - eauto.
Qed.






Lemma bind_Ok_l {A B} (a : A) (f : A -> result B) : Ok a ≫= f = f a.
Proof. reflexivity. Qed.


Lemma shape_map_map {A B} (g : A -> B) (im : image A) :
  shape (map (map g) im) = shape im.
Proof.
  unfold shape. rewrite map_map. apply map_ext. intros row.
  apply length_map.
Qed.




Section SkyFacts.

Variable sky_model_fit :
  fitsfile num -> option (fitsfile num) -> Z -> Z -> result poly1.



End SkyFacts.

(** ** The theorems at concrete inputs *)



Lemma orient_mosaic_layout_at_2x3 :
  exists tiled,
    orient_pixels amp_a amp_b amp_c amp_d 3 (PyStr "lower left") = Ok tiled /\
    tiled = [ [21; 24; 44; 41]; [22; 25; 45; 42]; [23; 26; 46; 43];
              [13; 16; 36; 33]; [12; 15; 35; 32]; [11; 14; 34; 31] ] /\
    orient_pixels amp_a amp_b amp_c amp_d 1 (PyStr "center")
    = Ok (fliplr tiled) /\
    orient_pixels amp_a amp_b amp_c amp_d 2 (PyStr "center")
    = Ok (rot90 2 tiled) /\
    orient_pixels amp_a amp_b amp_c amp_d 4 (PyStr "center")
    = Ok (flipud tiled).
Proof.
  destruct (orient_mosaic_layout 2 3 amp_a amp_b amp_c amp_d)
    as (tiled & Htiled & _ & _ & Hll & H1 & H2 & _ & H4 & _).
  - lia.
  - split; [reflexivity | ]. apply (bool_decide_unpack _). vm_compute. exact I.
  - split; [reflexivity | ]. apply (bool_decide_unpack _). vm_compute. exact I.
  - split; [reflexivity | ]. apply (bool_decide_unpack _). vm_compute. exact I.
  - split; [reflexivity | ]. apply (bool_decide_unpack _). vm_compute. exact I.
  - exists tiled. split; [apply Hll | ]. split; [ | by repeat split].
    rewrite Htiled. vm_compute. reflexivity.
Defined.

Lemma multiply_gain_factors_at_flat_exposure :
  (exists ims sc hdr',
     multiply_gain plain_mean (flat_exposure (fun _ => 5))
       ["IM1"; "IM2"; "IM3"; "IM4"] ∅ false unit_gain whole_region
       whole_region (PyInt 3, PyFloat (Fin (dec 25 1))) None "IM2"
     = Ok (ims, sc, hdr') /\
     sc = None /\
     hdr' !! "CCDGAIN3" = None /\
     hdr' !! "GAIN03C2" = None /\
     exists chNum letter g,
       chan_number "IM3" = Ok chNum /\ chan_letter 2 = Ok letter /\
       hdr' !! chan_card "GAIN" chNum letter "1" = Some (PyFloat g)) /\
  (exists ims sc hdr' ampIms gain ampReg ccdReg b,
     multiply_gain plain_mean (flat_exposure (fun _ => 5))
       ["IM1"; "IM2"; "IM3"; "IM4"] ∅ true unit_gain whole_region
       whole_region (PyInt 3, PyFloat (Fin (dec 25 1))) None "IM2"
     = Ok (ims, sc, hdr') /\
     sky_balance plain_mean ampIms ["IM1"; "IM2"; "IM3"; "IM4"] gain ampReg
       ccdReg (PyInt 3, PyFloat (Fin (dec 25 1))) None "IM2" = Ok b /\
     Forall (fun g2 => g2 = Fin 1%Qc) (b_gain2 b)).
Proof.
  split.
  - destruct (multiply_gain plain_mean (flat_exposure (fun _ => 5))
                ["IM1"; "IM2"; "IM3"; "IM4"] ∅ false unit_gain whole_region
                whole_region (PyInt 3, PyFloat (Fin (dec 25 1))) None "IM2")
      as [[[ims sc] hdr']|e] eqn:E; [ | vm_compute in E; discriminate].
    destruct (multiply_gain_factors _ _ _ _ _ _ _ _ _ _ _ _ _ _ E)
      as (ampIms & gain & _ & _ & _ & Hsc & Hcards & Hother).
    exists ims, sc, hdr'. split; [reflexivity | ]. split; [exact Hsc | ].
    split; [ | split].
    + rewrite Hother; [reflexivity | ].
      by apply (not_a_nominal_card "CCDGAIN" "3").
    + rewrite Hother; [reflexivity | ].
      by apply (not_a_nominal_card "GAIN03C" "2").
    + destruct (Hcards 2%nat "IM3" eq_refl) as (chNum & letter & g & ? & ? & _ & ?).
      by exists chNum, letter, g.
  - destruct (multiply_gain plain_mean (flat_exposure (fun _ => 5))
                ["IM1"; "IM2"; "IM3"; "IM4"] ∅ true unit_gain whole_region
                whole_region (PyInt 3, PyFloat (Fin (dec 25 1))) None "IM2")
      as [[[ims sc] hdr']|e] eqn:E; [ | vm_compute in E; discriminate].
    destruct (multiply_gain_factors _ _ _ _ _ _ _ _ _ _ _ _ _ _ E)
      as (ampIms & gain & Hims & Hgain & ampReg & ccdReg & b & Hamp & Hccd
          & Hb & Hone).
    exists ims, sc, hdr', ampIms, gain, ampReg, ccdReg, b.
    split; [reflexivity | ]. split; [exact Hb | ].
    vm_compute in Hims. injection Hims as <-.
    vm_compute in Hgain. injection Hgain as <-.
    vm_compute in Hamp. injection Hamp as <-.
    vm_compute in Hccd. injection Hccd as <-.
    vm_compute in Hb. injection Hb as <-.
    apply (Hone (Qc_of 5)).
    + apply (bool_decide_unpack _). vm_compute. exact I.
    + apply (bool_decide_unpack _). vm_compute. exact I.
Defined.

(** C6, as the specification words it, fails where the common sky level
    is zero: the four amplifiers of CCD 1 all measure 0, hence equal sky
    counts after the input gain, and each intra-CCD factor is [0/0], not
    1. *)
Lemma multiply_gain_zero_sky_factors :
  exists ims sc hdr' b,
    multiply_gain plain_mean (flat_exposure (fun _ => 0))
      ["IM1"; "IM2"; "IM3"; "IM4"] ∅ true unit_gain whole_region
      whole_region (PyInt 3, PyFloat (Fin (dec 25 1))) None "IM2"
    = Ok (ims, sc, hdr') /\
    sky_balance plain_mean
      (replicate 4 [[nZ 0; nZ 0]; [nZ 0; nZ 0]])
      ["IM1"; "IM2"; "IM3"; "IM4"] (replicate 4 (nZ 1))
      (PyNone, PyNone, PyNone, PyNone) (PyNone, PyNone, PyNone, PyNone)
      (PyInt 3, PyFloat (Fin (dec 25 1))) None "IM2" = Ok b /\
    zip_with nmul (b_rawSky b) (replicate 4 (nZ 1)) = replicate 4 (nZ 0) /\
    b_gain2 b = replicate 4 NonFinite /\
    hdr' !! "GAIN01A2" = Some (PyFloat NonFinite) /\
    ~ Forall (fun g2 => g2 = Fin 1%Qc) (b_gain2 b).
Proof.
  eexists _, _, _, _.
  split; [vm_compute; reflexivity | ].
  split; [vm_compute; reflexivity | ].
  split; [by vm_compute | ]. split; [by vm_compute | ].
  split; [by vm_compute | ].
  simpl. intros H. apply Forall_cons in H as [H _]. discriminate.
Qed.



Lemma stack_bias_frames_at_two_frames :
  kw_method kw_one_extension = None /\
  exists fs',
    run (stack_bias_frames clip_nothing normalize_none no_dropped_row
           0%Qc ["b1.fits"; "b2.fits"] kw_one_extension) bias_fs
    = (Raise ValueError, fs') /\
    exists hdus, fs' !! "./bias.fits" = Some hdus /\ length hdus = 1%nat.
Proof.
  split; [reflexivity | ].
  destruct (stack_bias_frames_default_method_raises clip_nothing
              normalize_none no_dropped_row 0%Qc ["b1.fits"; "b2.fits"]
              kw_one_extension bias_fs eq_refl ltac:(discriminate))
    as (_ & _ & H).
  edestruct (H "IM4" []) as [Hrun _].
  - reflexivity.
  - vm_compute. reflexivity.
  - vm_compute. reflexivity.
  - vm_compute. reflexivity.
  - vm_compute. reflexivity.
  - eexists. split; [exact Hrun | ].
    eexists. split; [vm_compute; reflexivity | reflexivity].
Defined.

(** ** What the min/max rejection masks *)

(** On a cube without masked samples, the rejection masks whole frames:
    there is one set of frame numbers, the frames that hold a maximum or
    (among what is left) a minimum at any pixel, and every pixel loses
    exactly the samples of those frames. *)
Lemma reject_minmax_masks_whole_frames (c c' : cube sample) :
  reject_minmax c = Ok c' ->
  Forall (Forall (Forall (fun s : sample => s.2 = false))) c ->
  exists frames : list nat,
    c' = map (map (imap (fun k (s : sample) =>
                           (s.1, bool_decide (k ∈ frames))))) c.
Proof.
  unfold reject_minmax. intros H Hc.
  apply bind_Ok in H as (imax & _ & H).
  apply bind_Ok in H as (imin & _ & H). injection H as <-.
  exists (concat imax ++ concat imin)%list.
  unfold mask_frames. rewrite map_map.
  apply map_ext_Forall. eapply Forall_impl; [exact Hc | ].
  intros row Hrow. simpl in Hrow. rewrite map_map.
  apply map_ext_Forall. eapply Forall_impl; [exact Hrow | ].
  intros pixel Hpx. simpl in Hpx.
  apply list_eq. intros k. rewrite !list_lookup_imap.
  destruct (pixel !! k) as [[v m]|] eqn:Hk; [ | done]. simpl.
  rewrite Forall_lookup in Hpx. specialize (Hpx _ _ Hk). simpl in Hpx.
  subst m. f_equal.
  destruct (decide (k ∈ concat imax)) as [Hin|Hout].
  - rewrite (bool_decide_eq_true_2 (k ∈ concat imax)) by done. simpl.
    rewrite (bool_decide_eq_true_2 (k ∈ (concat imax ++ concat imin)%list))
      by (apply elem_of_app; by left).
    by destruct (bool_decide (k ∈ concat imin)).
  - rewrite (bool_decide_eq_false_2 (k ∈ concat imax)) by done. simpl.
    destruct (decide (k ∈ concat imin)) as [Hin2|Hout2].
    + rewrite (bool_decide_eq_true_2 (k ∈ concat imin)) by done.
      by rewrite bool_decide_eq_true_2 by (apply elem_of_app; by right).
    + rewrite (bool_decide_eq_false_2 (k ∈ concat imin)) by done.
      rewrite bool_decide_eq_false_2; [done | ].
      intros [?|?]%elem_of_app; done.
Qed.

(* ===================================================================== *)
(** * Part III: further properties of the embedded code *)
(* ===================================================================== *)

(** ** The region resolver, all outcomes *)

(** X1.  [stats_region] has three outcomes and no other: a tuple comes
    back as it is; one of the five named tags gives four integers, which
    the caller can unpack; every other object, string or not, raises
    [ValueError]. *)
Theorem stats_region_outcomes (o : pyobj) :
  (exists l, o = PyTuple l /\ stats_region o = Ok o) \/
  (exists s x1 x2 y1 y2,
     o = PyStr s /\ s ∈ named_regions /\
     stats_region o = Ok (region4 x1 x2 y1 y2) /\
     unpack4 (region4 x1 x2 y1 y2)
     = Ok (PyInt x1, PyInt x2, PyInt y1, PyInt y2)) \/
  ((forall l, o <> PyTuple l) /\
   (forall s, o = PyStr s -> s ∉ named_regions) /\
   stats_region o = Raise ValueError).
Proof.
  destruct o as [ | b | z | x | s | l]; try (right; right; by repeat split).
  - unfold named_regions.
    destruct (decide (s = "amp_central_quadrant")) as [->|H1];
      [right; left; eexists _, _, _, _, _; repeat split;
       rewrite ?elem_of_cons; auto | ].
    destruct (decide (s = "amp_corner_ccdcenter_small")) as [->|H2];
      [right; left; eexists _, _, _, _, _; repeat split;
       rewrite ?elem_of_cons; auto | ].
    destruct (decide (s = "amp_corner_ccdcenter")) as [->|H3];
      [right; left; eexists _, _, _, _, _; repeat split;
       rewrite ?elem_of_cons; auto | ].
    destruct (decide (s = "centeramp_corner_fovcenter")) as [->|H4];
      [right; left; eexists _, _, _, _, _; repeat split;
       rewrite ?elem_of_cons; auto | ].
    destruct (decide (s = "ccd_central_quadrant")) as [->|H5];
      [right; left; eexists _, _, _, _, _; repeat split;
       rewrite ?elem_of_cons; auto 10 | ].
    right; right. split; [done | ]. split.
    + intros s' [= <-]. rewrite !elem_of_cons, elem_of_nil. tauto.
    + unfold stats_region. by rewrite !py_eq_str_false.
  - left. by exists l.
Qed.

(** ** Cubes: order of the frames, and what makes building one fail *)

(** The samples of a pixel are the pixels of the images, in the order of
    the images. *)
Lemma dstack_pixels {A} (ims : list (list (list A))) c :
  dstack ims = Ok c ->
  forall r col, px c r col = mapM (fun im => px im r col) ims.
Proof.
  revert c. induction ims as [|im rest IH]; intros c H r col; [done | ].
  destruct rest as [|im2 rest].
  - injection H as <-. unfold px. simpl. map_to_fmap.
    rewrite list_lookup_fmap.
    destruct (im !! r) as [row|]; simpl; [ | done].
    rewrite list_lookup_fmap. by destruct (row !! col).
  - change (dstack (im :: im2 :: rest))
      with (c' ← dstack (im2 :: rest);
            if decide (shape im = shape c')
            then Ok (zip_with (zip_with cons) im c')
            else Raise ValueError) in H.
    apply bind_Ok in H as (c' & Hc' & H).
    case_decide; [ | done]. injection H as <-.
    change (mapM ?f (im :: im2 :: rest))
      with (x ← f im; k ← mapM f (im2 :: rest); mret (x :: k)).
    rewrite <- (IH _ Hc' r col). unfold px.
    rewrite lookup_zip_with.
    destruct (im !! r) as [ra|]; simpl; [ | done].
    destruct (c' !! r) as [rb|]; simpl.
    + rewrite lookup_zip_with. by destruct (ra !! col).
    + by destruct (ra !! col).
Qed.

(** [np.dstack] raises nothing but [ValueError]. *)
Lemma dstack_raises {A} (ims : list (list (list A))) e :
  dstack ims = Raise e -> e = ValueError.
Proof.
  revert e. induction ims as [|im rest IH]; intros e H.
  - by injection H.
  - destruct rest as [|im2 rest]; [done | ].
    change (dstack (im :: im2 :: rest))
      with (c' ← dstack (im2 :: rest);
            if decide (shape im = shape c')
            then Ok (zip_with (zip_with cons) im c')
            else Raise ValueError) in H.
    destruct (dstack (im2 :: rest)) as [c'|e'] eqn:E; simpl in H.
    + case_decide; [done | by injection H].
    + injection H as <-. by apply IH.
Qed.

(** The images of a cube have one shape. *)
Lemma dstack_shape {A} (ims : list (list (list A))) c :
  dstack ims = Ok c -> Forall (fun im => shape im = shape c) ims.
Proof.
  revert c. induction ims as [|im rest IH]; intros c H; [done | ].
  destruct rest as [|im2 rest].
  - injection H as <-. constructor; [ | done].
    unfold shape. rewrite map_map. apply map_ext. intros row.
    by rewrite length_map.
  - change (dstack (im :: im2 :: rest))
      with (c' ← dstack (im2 :: rest);
            if decide (shape im = shape c')
            then Ok (zip_with (zip_with cons) im c')
            else Raise ValueError) in H.
    apply bind_Ok in H as (c' & Hc' & H).
    case_decide as Hs; [ | done]. injection H as <-.
    assert (Hz : shape (zip_with (zip_with cons) im c') = shape im).
    { clear IH Hc'. unfold shape in *. revert c' Hs.
      induction im as [|ra im IHim]; intros [|rb c'] Hs; try done.
      simpl in *. injection Hs as Hlen Hs. f_equal; [ | by apply IHim].
      rewrite length_zip_with. lia. }
    constructor; [by rewrite Hz | ].
    eapply Forall_impl; [apply (IH _ Hc') | ].
    simpl. intros im' ->. by rewrite Hz.
Qed.

(** X2.  [build_cube] without masks: an empty file list is a
    [ValueError]; so are two readable images of different shapes; and
    when the cube is built, each pixel holds one unmasked sample per
    file, in the order of the file list. *)
Theorem build_cube_frames (fs : filesystem) (fileList : list string)
    (extn : string) :
  build_cube fs [] extn MasksNone = Raise ValueError /\
  (forall ims i j im1 im2,
     mapR (fun f => fitsio_read fs f extn) fileList = Ok ims ->
     ims !! i = Some im1 -> ims !! j = Some im2 -> shape im1 <> shape im2 ->
     build_cube fs fileList extn MasksNone = Raise ValueError) /\
  (forall c,
     build_cube fs fileList extn MasksNone = Ok c ->
     exists ims,
       mapR (fun f => fitsio_read fs f extn) fileList = Ok ims /\
       length ims = length fileList /\
       forall r col,
         px c r col
         = fmap (fun v : Qc => (v, false))
           <$> mapM (fun im => px im r col) ims).
Proof.
  split; [done | ]. split.
  - intros ims i j im1 im2 Hims Hi Hj Hne. unfold build_cube.
    rewrite Hims, bind_Ok_l.
    destruct (dstack ims) as [c|e] eqn:E.
    + pose proof (dstack_shape _ _ E) as Hall.
      rewrite Forall_lookup in Hall.
      pose proof (Hall _ _ Hi). pose proof (Hall _ _ Hj). congruence.
    + by rewrite (dstack_raises _ _ E).
  - intros c H. unfold build_cube in H.
    apply bind_Ok in H as (ims & Hims & H).
    apply bind_Ok in H as (c0 & Hc0 & H).
    rewrite bind_Ok_l in H. injection H as <-.
    exists ims. split; [done | ]. split.
    { clear Hc0. revert ims Hims.
      induction fileList as [|f l IH]; intros ims H.
      - by injection H as <-.
      - simpl in H. apply bind_Ok in H as (y & _ & H).
        apply bind_Ok in H as (ys & Hys & H). injection H as <-.
        simpl. by rewrite (IH _ Hys). }
    intros r col. rewrite <- (dstack_pixels _ _ Hc0). unfold px.
    map_to_fmap. rewrite list_lookup_fmap.
    destruct (c0 !! r) as [row|]; simpl; [ | done].
    by rewrite list_lookup_fmap.
Qed.

(** ** Stacking: options, shape, and pixels that need no statistics *)

Lemma mapR_length {A B} (f : A -> result B) (l : list A) ys :
  mapR f l = Ok ys -> length ys = length l.
Proof.
  revert ys. induction l as [|x l IH]; intros ys H; simpl in H.
  - by injection H as <-.
  - apply bind_Ok in H as (y & _ & H). apply bind_Ok in H as (ys' & Hys & H).
    injection H as <-. simpl. by rewrite (IH _ Hys).
Qed.

Lemma mapR2_shape {A B} (f : A -> result B) (c : image A) c' :
  mapR (mapR f) c = Ok c' -> shape c' = shape c.
Proof.
  revert c'. induction c as [|row c IH]; intros c' H; simpl in H.
  - by injection H as <-.
  - apply bind_Ok in H as (y & Hy & H). apply bind_Ok in H as (ys & Hys & H).
    injection H as <-. unfold shape in *. simpl.
    by rewrite (IH _ Hys), (mapR_length _ _ _ Hy).
Qed.

Lemma mapR2_px {A B} (f : A -> result B) (c : image A) c' r col p :
  mapR (mapR f) c = Ok c' -> px c r col = Some p ->
  exists y, f p = Ok y /\ px c' r col = Some y.
Proof.
  unfold px. intros H Hp.
  destruct (c !! r) as [row|] eqn:Hr; [ | done]. simpl in Hp.
  destruct (mapR_lookup _ _ _ _ _ H Hr) as (row' & Hrow & ->). simpl.
  by apply (mapR_lookup _ _ _ _ _ Hrow Hp).
Qed.

Lemma px_map_map {A B} (f : A -> B) (c : image A) r col :
  px (map (map f) c) r col = f <$> px c r col.
Proof.
  unfold px. map_to_fmap. rewrite list_lookup_fmap.
  destruct (c !! r) as [row|]; simpl; [ | done].
  by rewrite list_lookup_fmap.
Qed.







Lemma unmasked_all_masked (p : list sample) :
  Forall (fun s : sample => s.2 = true) p -> unmasked p = [].
Proof.
  unfold unmasked. induction 1 as [|[v m] p Hm _ IH]; [done | ].
  simpl in *. subst m. simpl. exact IH.
Qed.

Section StackFacts.

Variable sigma_clip_last : pyobj -> pyobj -> list sample -> list sample.
Variable normalize_scales :
  bool -> pyobj * pyobj * pyobj * pyobj -> cube sample -> result (list Qc).

(** What a successful [stack_prepare] has gone through. *)
Lemma stack_prepare_inv imCube kw imcube scales :
  stack_prepare sigma_clip_last normalize_scales imCube kw
  = Ok (imcube, scales) ->
  exists scaled,
    match kw_scale kw with
    | None => scaled = imCube /\ scales = None
    | Some _ => exists sc, scales = Some sc /\ scale_cube sc imCube = Ok scaled
    end /\
    match default (PyStr "sigma_clip") (kw_reject kw) with
    | PyStr "sigma_clip" =>
        imcube = map (map (sigma_clip_last
                             (default (PyInt 2) (kw_clip_iters kw))
                             (default (PyFloat (Fin (dec 25 1)))
                                (kw_clip_sig kw)))) scaled
    | PyStr "minmax" => reject_minmax scaled = Ok imcube
    | PyNone => imcube = scaled
    | _ => False
    end.
Proof.
  unfold stack_prepare. intros H.
  apply bind_Ok in H as (reg0 & _ & H). apply bind_Ok in H as (reg & _ & H).
  apply bind_Ok in H as ([scaled scales'] & Hscale & H).
  apply bind_Ok in H as (imcube' & Hrej & H). injection H as <- <-.
  exists scaled. split.
  - destruct (kw_scale kw) as [sc|].
    + apply bind_Ok in Hscale as (scs & _ & Hscale).
      apply bind_Ok in Hscale as (c & Hc & Hscale).
      injection Hscale as <- <-. by exists scs.
    + by injection Hscale as <- <-.
  - destruct (default (PyStr "sigma_clip") (kw_reject kw))
      as [ | b | z | x | s | l]; try done.
    + by injection Hrej as <-.
    + unfold py_eq_str in Hrej.
      destruct (decide (s = "sigma_clip")) as [->|Hs].
      { by injection Hrej as <-. }
      rewrite (bool_decide_eq_false_2 _ Hs) in Hrej.
      destruct (decide (s = "minmax")) as [->|Hm].
      { done. }
      by rewrite (bool_decide_eq_false_2 _ Hm) in Hrej.
Qed.

Lemma stack_combine_inv imcube scales kw stack extras :
  stack_combine imcube scales kw = Ok (stack, extras) ->
  match default (PyStr "mean") (kw_method kw) with
  | PyStr "mean" => mapR (mapR (ma_average (kw_weights kw))) imcube = Ok stack
  | PyStr "median" => stack = map (map ma_median) imcube
  | _ => False
  end /\
  extras
  = ((if default false (kw_ret_scales kw)
      then match scales with Some sc => [ExScales sc] | None => [] end
      else [])
     ++ (if default false (kw_with_variance kw)
         then [ExVar (map (map ma_var_filled) imcube)] else []))%list /\
  (default false (kw_ret_scales kw) = true -> is_Some scales).
Proof.
  unfold stack_combine. intros H.
  apply bind_Ok in H as (stack' & Hstack & H).
  apply bind_Ok in H as (ex & Hex & H). injection H as <- <-.
  split; [ | split].
  - destruct (default (PyStr "mean") (kw_method kw))
      as [ | b | z | x | s | l]; try done.
    unfold py_eq_str in Hstack.
    destruct (decide (s = "mean")) as [->|Hs]; [done | ].
    rewrite (bool_decide_eq_false_2 _ Hs) in Hstack.
    destruct (decide (s = "median")) as [->|Hm].
    { by injection Hstack as <-. }
    by rewrite (bool_decide_eq_false_2 _ Hm) in Hstack.
  - destruct (default false (kw_ret_scales kw)).
    + destruct scales; [ | done]. injection Hex as <-.
      by destruct (default false (kw_with_variance kw)).
    + injection Hex as <-.
      by destruct (default false (kw_with_variance kw)).
  - intros Hret. rewrite Hret in Hex. by destruct scales.
Qed.

Lemma stack_image_cube_inv imCube kw r :
  stack_image_cube sigma_clip_last normalize_scales imCube kw = Ok r ->
  exists imcube scales,
    stack_prepare sigma_clip_last normalize_scales imCube kw
    = Ok (imcube, scales) /\
    stack_combine imcube scales kw = Ok r.
Proof.
  unfold stack_image_cube. intros H.
  apply bind_Ok in H as ([imcube scales] & Hp & H). eauto.
Qed.

Lemma scale_cube_shape scales c c' :
  scale_cube scales c = Ok c' -> shape c' = shape c.
Proof. apply mapR2_shape. Qed.

Lemma reject_minmax_shape (c c' : cube sample) :
  reject_minmax c = Ok c' -> shape c' = shape c.
Proof.
  unfold reject_minmax. intros H.
  apply bind_Ok in H as (imax & _ & H). apply bind_Ok in H as (imin & _ & H).
  injection H as <-. unfold mask_frames. by rewrite !shape_map_map.
Qed.


(** X4.  The stacked image, and the variance image when there is one,
    have the rows and columns of the cube, whatever the scaling, the
    rejection and the method. *)
Theorem stack_image_cube_shape imCube kw stack extras :
  stack_image_cube sigma_clip_last normalize_scales imCube kw
  = Ok (stack, extras) ->
  shape stack = shape imCube /\
  forall var, ExVar var ∈ extras -> shape var = shape imCube.
Proof.
  intros H. apply stack_image_cube_inv in H as (imcube & scales & Hp & Hc).
  apply stack_prepare_inv in Hp as (scaled & Hscale & Hrej).
  apply stack_combine_inv in Hc as (Hm & -> & Hret).
  assert (Hscaled : shape scaled = shape imCube).
  { destruct (kw_scale kw).
    - destruct Hscale as (sc & _ & Hsc). by apply scale_cube_shape in Hsc.
    - by destruct Hscale as [-> _]. }
  assert (Himcube : shape imcube = shape imCube).
  { rewrite <- Hscaled.
    destruct (default (PyStr "sigma_clip") (kw_reject kw))
      as [ | b | z | x | s | l]; try done.
    - by subst.
    - destruct (decide (s = "sigma_clip")) as [->|Hs].
      { subst imcube. apply shape_map_map. }
      destruct (decide (s = "minmax")) as [->|Hmm].
      { by apply reject_minmax_shape. }
      exfalso. revert Hrej. clear -Hs Hmm.
      repeat (destruct s as [|[[] [] [] [] [] [] [] []] s]; try done). }
  split.
  - rewrite <- Himcube.
    destruct (default (PyStr "mean") (kw_method kw))
      as [ | b | z | x | s | l]; try done.
    destruct (decide (s = "mean")) as [->|Hs].
    { by apply mapR2_shape in Hm. }
    destruct (decide (s = "median")) as [->|Hmm].
    { subst stack. apply shape_map_map. }
    exfalso. revert Hm. clear -Hs Hmm.
    repeat (destruct s as [|[[] [] [] [] [] [] [] []] s]; try done).
  - intros var Hvar. rewrite <- Himcube.
    apply elem_of_app in Hvar as [Hvar|Hvar].
    + destruct (default false (kw_ret_scales kw)); [ | by inversion Hvar].
      destruct scales; [ | by inversion Hvar].
      apply list_elem_of_singleton in Hvar. discriminate.
    + destruct (default false (kw_with_variance kw)); [ | by inversion Hvar].
      apply list_elem_of_singleton in Hvar. injection Hvar as ->.
      apply shape_map_map.
Qed.


Lemma scale_pixel_all_masked (p : list sample) (scales : list Qc) :
  Forall (fun s : sample => s.2 = true) p ->
  Forall (fun s : sample => s.2 = true)
    (zip_with (fun (s : sample) g => ((s.1 * g)%Qc, s.2)) p scales).
Proof.
  intros Hp. revert scales.
  induction Hp as [|s p Hs _ IH]; intros [|g scales]; simpl; try done.
  constructor; [done | apply IH].
Qed.

Lemma filter_zip_all_masked (p : list sample) (w : list Qc) :
  Forall (fun s : sample => s.2 = true) p ->
  filter (fun sw : sample * Qc => sw.1.2 = false) (zip p w) = [].
Proof.
  intros Hp. revert w.
  induction Hp as [|s p Hs _ IH]; intros [|g w]; simpl; try done.
  rewrite filter_cons_False; [apply IH | ]. simpl. by rewrite Hs.
Qed.

(** X6.  A pixel that is masked in every frame comes out masked, whatever
    the scaling, the rejection (a clip can only add mask bits), the
    weights and the method; its variance is filled with zero. *)
Theorem stack_masked_pixel imCube kw stack extras r col p :
  (forall iters sig q,
     Forall (fun s : sample => s.2 = true) q ->
     Forall (fun s : sample => s.2 = true) (sigma_clip_last iters sig q)) ->
  stack_image_cube sigma_clip_last normalize_scales imCube kw
  = Ok (stack, extras) ->
  px imCube r col = Some p ->
  Forall (fun s : sample => s.2 = true) p ->
  px stack r col = Some None /\
  forall var, ExVar var ∈ extras -> px var r col = Some 0%Qc.
Proof.
  intros Hclip H Hp Hmasked.
  apply stack_image_cube_inv in H as (imcube & scales & Hprep & Hc).
  apply stack_prepare_inv in Hprep as (scaled & Hscale & Hrej).
  apply stack_combine_inv in Hc as (Hm & -> & Hret).
  assert (Hscaled : exists p1, px scaled r col = Some p1 /\
                      Forall (fun s : sample => s.2 = true) p1).
  { destruct (kw_scale kw).
    - destruct Hscale as (sc & _ & Hsc). unfold scale_cube in Hsc.
      destruct (mapR2_px _ _ _ _ _ _ Hsc Hp) as (p1 & Hp1 & Hpx).
      exists p1. split; [done | ].
      case_decide.
      + injection Hp1 as <-. by apply scale_pixel_all_masked.
      + destruct sc as [|g [|]]; try done. injection Hp1 as <-.
        map_to_fmap. apply Forall_fmap. eapply Forall_impl; [exact Hmasked | ].
        by intros [v m].
    - destruct Hscale as [-> _]. eauto. }
  destruct Hscaled as (p1 & Hp1 & Hm1).
  assert (Hprepared : exists p2, px imcube r col = Some p2 /\
                        Forall (fun s : sample => s.2 = true) p2).
  { destruct (default (PyStr "sigma_clip") (kw_reject kw))
      as [ | b | z | x | s | l]; try done.
    - subst. eauto.
    - destruct (decide (s = "sigma_clip")) as [->|Hs].
      { subst imcube. rewrite px_map_map, Hp1. simpl. eauto. }
      destruct (decide (s = "minmax")) as [->|Hmm].
      { unfold reject_minmax in Hrej.
        apply bind_Ok in Hrej as (imax & _ & Hrej).
        apply bind_Ok in Hrej as (imin & _ & Hrej). injection Hrej as <-.
        unfold mask_frames. rewrite !px_map_map, Hp1. simpl.
        eexists. split; [done | ].
        rewrite !Forall_lookup in *. intros k s Hk.
        rewrite list_lookup_imap in Hk.
        destruct (imap _ p1 !! k) as [s1|] eqn:Hk1; [ | done].
        simpl in Hk. rewrite list_lookup_imap in Hk1.
        destruct (p1 !! k) as [s0|] eqn:Hk0; [ | done].
        simpl in Hk1. pose proof (Hm1 _ _ Hk0) as Hs0.
        injection Hk1 as <-. injection Hk as <-.
        repeat case_bool_decide; simpl; done. }
      exfalso. revert Hrej. clear -Hs Hmm.
      repeat (destruct s as [|[[] [] [] [] [] [] [] []] s]; try done). }
  destruct Hprepared as (p2 & Hp2 & Hm2). split.
  - destruct (default (PyStr "mean") (kw_method kw))
      as [ | b | z | x | s | l]; try done.
    destruct (decide (s = "mean")) as [->|Hs].
    { destruct (mapR2_px _ _ _ _ _ _ Hm Hp2) as (y & Hy & ->).
      f_equal. unfold ma_average in Hy.
      destruct (kw_weights kw) as [w|].
      - case_decide; [ | done].
        rewrite filter_zip_all_masked in Hy by done. by injection Hy.
      - rewrite unmasked_all_masked in Hy by done. by injection Hy. }
    destruct (decide (s = "median")) as [->|Hmm].
    { subst stack. rewrite px_map_map, Hp2. simpl. f_equal.
      unfold ma_median. by rewrite unmasked_all_masked. }
    exfalso. revert Hm. clear -Hs Hmm.
    repeat (destruct s as [|[[] [] [] [] [] [] [] []] s]; try done).
  - intros var Hvar.
    apply elem_of_app in Hvar as [Hvar|Hvar].
    + destruct (default false (kw_ret_scales kw)); [ | by inversion Hvar].
      destruct scales; [ | by inversion Hvar].
      apply list_elem_of_singleton in Hvar. discriminate.
    + destruct (default false (kw_with_variance kw)); [ | by inversion Hvar].
      apply list_elem_of_singleton in Hvar. injection Hvar as ->.
      rewrite px_map_map, Hp2. simpl. f_equal.
      unfold ma_var_filled. by rewrite unmasked_all_masked.
Qed.

End StackFacts.

(** ** Gain balancing: what the sky branch equalises, needs and records *)






(** Cards of two channels with different letters differ, whatever their
    names and numbers. *)
Lemma chan_card_tail name name' c c' l l' n n' :
  String.length l = 1%nat -> String.length l' = 1%nat ->
  String.length n = String.length n' ->
  chan_card name c l n = chan_card name' c' l' n' -> l = l' /\ n = n'.
Proof.
  unfold chan_card. intros Hl Hl' Hn H.
  rewrite <- !(string_app_assoc name), <- !(string_app_assoc name') in H.
  rewrite !string_app_assoc in H.
  rewrite <- !(string_app_assoc name), <- !(string_app_assoc name') in H.
  apply string_app_suffix in H; [ | rewrite !string_length_app; lia].
  destruct l as [|a [|]], l' as [|a' [|]]; simpl in *; try done.
  rewrite !string_app_cons, !string_app_nil_l in H.
  by injection H as -> ->.
Qed.

(** The cards written for the later channels leave those of channel [i]
    alone. *)
Lemma sky_cards_later i j exts rawSky gain gain2 hdr0 hdr' name chNum letter
    n :
  (i < j)%nat -> chan_letter i = Ok letter -> String.length n = 1%nat ->
  sky_cards j exts rawSky gain gain2 hdr0 = Ok hdr' ->
  hdr' !! chan_card name chNum letter n
  = hdr0 !! chan_card name chNum letter n.
Proof.
  intros Hij Hletter Hn. revert j hdr0 Hij.
  induction exts as [|e exts IH]; intros j hdr0 Hij H; simpl in H.
  - by injection H as <-.
  - apply bind_Ok in H as (c' & _ & H). apply bind_Ok in H as (l' & Hl' & H).
    apply bind_Ok in H as (s & _ & H). apply bind_Ok in H as (g & _ & H).
    apply bind_Ok in H as (g2 & _ & H).
    rewrite (IH (S j) _ ltac:(lia) H).
    assert (Hne : forall nm n', String.length n' = 1%nat ->
              chan_card nm c' l' n' <> chan_card name chNum letter n).
    { intros nm n' Hn' Heq.
      apply chan_card_tail in Heq as [-> _];
        eauto using chan_letter_length; [ | lia].
      pose proof (chan_letter_inj _ _ _ Hletter Hl'). lia. }
    rewrite !lookup_insert_ne; [done | by apply Hne ..].
Qed.

Lemma sky_cards_recorded i exts rawSky gain gain2 hdr hdr' k ext :
  sky_cards i exts rawSky gain gain2 hdr = Ok hdr' ->
  exts !! k = Some ext ->
  exists chNum letter s g g2,
    chan_number ext = Ok chNum /\ chan_letter (i + k) = Ok letter /\
    rawSky !! (i + k)%nat = Some s /\ gain !! (i + k)%nat = Some g /\
    gain2 !! (i + k)%nat = Some g2 /\
    hdr' !! chan_card "SKYC" chNum letter "1" = Some (PyFloat s) /\
    hdr' !! chan_card "GAIN" chNum letter "1" = Some (PyFloat g) /\
    hdr' !! chan_card "GAIN" chNum letter "2" = Some (PyFloat g2).
Proof.
  revert i hdr k. induction exts as [|e exts IH]; intros i hdr k H Hk;
    [done | ].
  simpl in H. apply bind_Ok in H as (chNum & Hc & H).
  apply bind_Ok in H as (letter & Hl & H). apply bind_Ok in H as (s & Hs & H).
  apply bind_Ok in H as (g & Hg & H). apply bind_Ok in H as (g2 & Hg2 & H).
  destruct k as [|k].
  - injection Hk as <-. exists chNum, letter, s, g, g2.
    rewrite Nat.add_0_r. apply of_option_Ok in Hs, Hg, Hg2.
    do 5 (split; [done | ]).
    pose proof (fun nm n Hn =>
                  sky_cards_later i (S i) _ _ _ _ _ _ nm chNum letter n
                    ltac:(lia) Hl Hn H) as Hlater.
    rewrite !Hlater by done. clear Hlater.
    assert (Hnames : chan_card "GAIN" chNum letter "1"
                     <> chan_card "SKYC" chNum letter "1") by done.
    assert (Hlast : forall nm nm', chan_card nm chNum letter "2"
                     <> chan_card nm' chNum letter "1").
    { intros nm nm' Heq.
      apply chan_card_tail in Heq as [_ Heq];
        eauto using chan_letter_length. done. }
    split; [ | split].
    + rewrite lookup_insert_ne by apply Hlast.
      rewrite lookup_insert_ne by done. apply lookup_insert_eq.
    + rewrite lookup_insert_ne by apply Hlast. apply lookup_insert_eq.
    + apply lookup_insert_eq.
  - simpl in Hk.
    destruct (IH (S i) _ k H Hk)
      as (c & l & s' & g' & g2' & ? & ? & ? & ? & ? & ? & ? & ?).
    exists c, l, s', g', g2'. by rewrite <- Nat.add_succ_comm.
Qed.

Section BalanceFacts.

Variable clipped_mean : pyobj -> pyobj -> image num -> num.



(** X9.  What the sky branch of [multiply_gain] leaves behind: for every
    amplifier of the group, its raw sky level on the card [SKYCnnX1], its
    input gain on [GAINnnX1] and its intra-CCD factor on [GAINnnX2]; the
    inter-CCD factor on [CCDGAIN3]; and its image multiplied by the
    product of the three gains. *)
Theorem multiply_gain_sky_cards inFits extGroup hdr inputGain ampCorStatReg
    ccdCorStatReg clipArgs skyIn refAmp ims sc hdr' :
  multiply_gain clipped_mean inFits extGroup hdr true inputGain
    ampCorStatReg ccdCorStatReg clipArgs skyIn refAmp = Ok (ims, sc, hdr') ->
  exists ampReg ccdReg ampIms gain b,
    mapR (fun ext => fits_ext inFits ext ≫= hdu_read) extGroup = Ok ampIms /\
    mapR (fun ext => of_option KeyError (inputGain !! ext)) extGroup
    = Ok gain /\
    sky_balance clipped_mean ampIms extGroup gain ampReg ccdReg clipArgs
      skyIn refAmp = Ok b /\
    sc = Some (b_skyCounts b) /\
    hdr' !! "CCDGAIN3" = Some (PyFloat (b_gain3 b)) /\
    forall k ext,
      extGroup !! k = Some ext ->
      exists chNum letter s g g2 im,
        chan_number ext = Ok chNum /\ chan_letter k = Ok letter /\
        b_rawSky b !! k = Some s /\ gain !! k = Some g /\
        b_gain2 b !! k = Some g2 /\ ampIms !! k = Some im /\
        hdr' !! chan_card "SKYC" chNum letter "1" = Some (PyFloat s) /\
        hdr' !! chan_card "GAIN" chNum letter "1" = Some (PyFloat g) /\
        hdr' !! chan_card "GAIN" chNum letter "2" = Some (PyFloat g2) /\
        ims !! k = Some (scale_image (nmul g (nmul g2 (b_gain3 b))) im).
Proof.
  intros H. apply multiply_gain_sky in H
    as (ampReg & ccdReg & ampIms & gain & b & hdr1 & _ & _ & Hi & Hg & Hb
        & Hcards & -> & -> & ->).
  exists ampReg, ccdReg, ampIms, gain, b.
  do 4 (split; [done | ]). split; [apply lookup_insert_eq | ].
  intros k ext Hk.
  destruct (sky_cards_recorded 0 _ _ _ _ _ _ k ext Hcards Hk)
    as (chNum & letter & s & g & g2 & Hnum & Hletter & Hs & Hgk & Hg2 & H1
        & H2 & H3).
  simpl in *.
  destruct (mapR_lookup _ _ _ _ _ Hi Hk) as (im & _ & Him).
  exists chNum, letter, s, g, g2, im. do 6 (split; [done | ]).
  assert (Hgain3 : forall nm n, String.length n = 1%nat ->
            chan_card nm chNum letter n <> "CCDGAIN3").
  { intros nm n Hn Heq. pose proof (chan_letter_length _ _ Hletter) as Hl.
    unfold chan_card in Heq.
    assert (Htail : letter ++ n = "N3").
    { rewrite <- (string_app_assoc nm) in Heq.
      change "CCDGAIN3" with ("CCDGAI" ++ "N3") in Heq.
      apply string_app_suffix in Heq; [done | ].
      rewrite string_length_app. simpl. lia. }
    clear Heq. unfold chan_letter, nth_or_raise in Hletter.
    destruct k as [|[|[|[|k]]]]; simpl in Hletter; simplify_eq; done. }
  rewrite !lookup_insert_ne by (intros Heq; symmetry in Heq;
                                by eapply Hgain3).
  do 3 (split; [done | ]).
  rewrite lookup_zip_with, Him. simpl.
  rewrite lookup_zip_with, Hgk. simpl. by rewrite Hg2.
Qed.

End BalanceFacts.

(** ** The combined file, and the sky coordinates of its CCDs *)

Lemma orient_header_datasec hdr nx ny ccdNum origin hdr' :
  orient_header hdr nx ny ccdNum origin = Ok hdr' ->
  hdr' !! "DATASEC" = Some (PyStr (fmt_datasec nx ny)).
Proof.
  unfold orient_header. intros H.
  apply bind_Ok in H as (cd1_1 & _ & H). apply bind_Ok in H as (cd1_2 & _ & H).
  destruct (py_eq_str origin "center").
  - apply bind_Ok in H as (signx & _ & H). apply bind_Ok in H as (signy & _ & H).
    apply bind_Ok in H as (ltv1 & _ & H). apply bind_Ok in H as (ltv2 & _ & H).
    injection H as <-. rewrite !lookup_insert_ne by done.
    apply lookup_insert_eq.
  - destruct (py_eq_str origin "lower left").
    + apply bind_Ok in H as (c1 & _ & H). apply bind_Ok in H as (c2 & _ & H).
      apply bind_Ok in H as (v1 & _ & H). apply bind_Ok in H as (v2 & _ & H).
      injection H as <-. rewrite !lookup_insert_ne by done.
      apply lookup_insert_eq.
    + injection H as <-. rewrite !lookup_insert_ne by done.
      apply lookup_insert_eq.
Qed.

Lemma Qc_of_0 : Qc_of 0 = 0%Qc.
Proof. by apply Qc_is_canon. Qed.

Lemma Qc_of_1 : Qc_of 1 = 1%Qc.
Proof. by apply Qc_is_canon. Qed.

Lemma Qc_of_m1 : Qc_of (-1) = (- 1)%Qc.
Proof. by apply Qc_is_canon. Qed.

Lemma Qcabs_pos (x : Qc) : x <> 0%Qc -> (0 < Qcabs x)%Qc.
Proof.
  intros Hx. unfold Qcabs. case_decide as Hneg.
  - apply Qclt_minus_iff in Hneg.
    by replace (0 + - x)%Qc with (- x)%Qc in Hneg by ring.
  - apply Qcnot_lt_le in Hneg. apply Qcle_lt_or_eq in Hneg as [H | H];
      [done | by subst].
Qed.

Lemma Qcabs_nonneg (x : Qc) : (0 <= Qcabs x)%Qc.
Proof.
  destruct (decide (x = 0%Qc)) as [->|Hx].
  - by vm_compute.
  - by apply Qclt_le_weak, Qcabs_pos.
Qed.

Lemma Qcmax_abs_pos (a b : Qc) :
  a <> 0%Qc \/ b <> 0%Qc -> (0 < Qcmax (Qcabs a) (Qcabs b))%Qc.
Proof.
  intros Hab. unfold Qcmax. case_decide as Hlt.
  - eapply Qcle_lt_trans; [apply (Qcabs_nonneg a) | exact Hlt].
  - destruct Hab as [Ha | Hb]; [by apply Qcabs_pos | ].
    apply Qcnot_lt_le in Hlt.
    eapply Qclt_le_trans; [by apply (Qcabs_pos b) | exact Hlt].
Qed.

Lemma Qcsign_pos (p : Qc) : (0 < p)%Qc -> Qcsign p = 1%Qc.
Proof.
  intros Hp. unfold Qcsign. rewrite decide_False, decide_True; [done.. | ].
  apply Qcle_not_lt. by apply Qclt_le_weak.
Qed.

Lemma Qcsign_neg (p : Qc) : (0 < p)%Qc -> Qcsign (- p) = (- 1)%Qc.
Proof.
  intros Hp. unfold Qcsign. rewrite decide_True; [done | ].
  apply Qclt_minus_iff. by replace (0 + - - p)%Qc with p by ring.
Qed.

(** X11.  The sky coordinates of a CCD of the combined file.  After
    [_orient_mosaic] has written the cards of origin ['center'], with a
    plate scale that is finite and not zero, [bok_getxy] in ['sky']
    coordinates gives each pixel its column and its row counted from the
    field centre at [(-182.01,-59.04)]: columns run positive in CCDs 1
    and 2 and negative in CCDs 3 and 4, rows positive in CCDs 1 and 3 and
    negative in CCDs 2 and 4. *)
Theorem sky_coordinates_after_orient hdr nx ny ccdNum hdr' a b (qa qb : Qc)
    n1 n2 :
  1 <= ccdNum <= 4 ->
  hdr !! "CD1_1" = Some a -> as_num a = Ok (Fin qa) ->
  hdr !! "CD1_2" = Some b -> as_num b = Ok (Fin qb) ->
  qa <> 0%Qc \/ qb <> 0%Qc ->
  hdr !! "NAXIS1" = Some (PyInt n1) ->
  hdr !! "NAXIS2" = Some (PyInt n2) ->
  orient_header hdr nx ny ccdNum (PyStr "center") = Ok hdr' ->
  bok_getxy hdr' (PyStr "sky")
  = Ok (map (map (fun ij : Z * Z =>
          (nmul (nZ (if decide (ccdNum <= 2) then 1 else -1))
                (nsub (nZ ij.2) (Fin (dec (-18201) 2))),
           nmul (nZ (if decide (ccdNum `mod` 2 = 1) then 1 else -1))
                (nsub (nZ ij.1) (Fin (dec (-5904) 2))))))
          (indices n2 n1)).
Proof.
  intros Hccd Ha Hqa Hb Hqb Hne Hn1 Hn2 H.
  pose proof (Qcmax_abs_pos qa qb Hne) as Hps.
  set (ps := Qcmax (Qcabs qa) (Qcabs qb)) in *.
  unfold orient_header, hdr_get in H.
  rewrite !lookup_insert_ne in H by done. rewrite Ha, Hb in H.
  simpl in H. rewrite Hqa, Hqb in H. simpl in H. fold ps in H.
  assert (Hcases : ccdNum = 1 \/ ccdNum = 2 \/ ccdNum = 3 \/ ccdNum = 4)
    by lia.
  assert (Hpos : Qcsign (Qc_of 0 + Qc_of 1 * ps) = Qc_of 1).
  { rewrite Qc_of_0, Qc_of_1.
    replace (0 + 1 * ps)%Qc with ps by ring. by apply Qcsign_pos. }
  assert (Hneg : Qcsign (Qc_of 0 + Qc_of (-1) * ps) = Qc_of (-1)).
  { rewrite Qc_of_0, Qc_of_m1.
    replace (0 + - 1 * ps)%Qc with (- ps)%Qc by ring. by apply Qcsign_neg. }
  assert (Hpos' : Qcsign (Qc_of 1 * ps + Qc_of 0) = Qc_of 1).
  { rewrite Qc_of_0, Qc_of_1.
    replace (1 * ps + 0)%Qc with ps by ring. by apply Qcsign_pos. }
  assert (Hneg' : Qcsign (Qc_of (-1) * ps + Qc_of 0) = Qc_of (-1)).
  { rewrite Qc_of_0, Qc_of_m1.
    replace (- 1 * ps + 0)%Qc with (- ps)%Qc by ring. by apply Qcsign_neg. }
  unfold bok_getxy, hdr_get.
  destruct Hcases as [-> | [-> | [-> | ->]]]; vm_compute pick2 in H;
    simpl in H; injection H as <-;
    repeat (rewrite lookup_insert_eq || rewrite lookup_insert_ne by done);
    rewrite ?Hn1, ?Hn2; simpl;
    change (- (-1)) with 1 in *; change (- (1)) with (-1) in *;
    rewrite ?Hpos, ?Hneg, ?Hpos', ?Hneg'; done.
Qed.

Section LayoutFacts.

Variable clipped_mean : pyobj -> pyobj -> image num -> num.

(** The HDU that [process_ccd] hands over. *)
Lemma process_ccd_inv inFits P ccdNum extGroup refSkyCounts sc h :
  process_ccd clipped_mean inFits P ccdNum extGroup refSkyCounts
  = Ok (sc, h) ->
  hdu_name h = Some ("CCD" ++ fmt_d ccdNum) /\
  exists outIm,
    hdu_data h = Some outIm /\
    hdu_header h !! "DATASEC"
    = Some (PyStr (fmt_datasec (Z.of_nat (ncols outIm))
                               (Z.of_nat (length outIm)))).
Proof.
  unfold process_ccd. intros H.
  apply bind_Ok in H as (center & _ & H). apply bind_Ok in H as (hdr & _ & H).
  apply bind_Ok in H as (refAmp & _ & H).
  apply bind_Ok in H as ([[ims sky] hdr1] & _ & H).
  apply bind_Ok in H as ([outIm hdr2] & Ho & H). injection H as <- <-.
  split; [done | ]. exists outIm. split; [done | ]. simpl.
  unfold _orient_mosaic in Ho.
  destruct ims as [|i1 [|i2 [|i3 [|i4 [|]]]]]; try done.
  apply bind_Ok in Ho as (out & _ & Ho). apply bind_Ok in Ho as (hdr3 & Hh & Ho).
  injection Ho as <- <-. by apply orient_header_datasec in Hh.
Qed.

(** X10.  The file that [combine_ccds] writes for one exposure: a primary
    HDU without data that carries the primary header of the input with
    [DETSIZE] and [NEXTEND = 4] set, then the four extensions [CCD1] to
    [CCD4] in this order, each with an image and a [DATASEC] card that
    spans the whole image; every one of them is found by name, as
    [subtract_sky] looks them up. *)
Theorem combine_ccds_file_layout (inFits : fitsfile num) (P : ccd_params) out :
  combine_ccds_file clipped_mean inFits P = Ok out ->
  map hdu_name out
  = [None; Some "CCD1"; Some "CCD2"; Some "CCD3"; Some "CCD4"] /\
  (exists h0 p,
     head inFits = Some h0 /\ head out = Some p /\ hdu_data p = None /\
     hdu_header p
     = <["NEXTEND" := PyInt 4]>
         (<["DETSIZE" := PyStr "[1:8192,1:8064]"]> (hdu_header h0))) /\
  Forall (fun ccd =>
            exists h im,
              fits_ext out ccd = Ok h /\ hdu_read h = Ok im /\
              hdu_header h !! "DATASEC"
              = Some (PyStr (fmt_datasec (Z.of_nat (ncols im))
                                         (Z.of_nat (length im)))))
         ccd_names.
Proof.
  unfold combine_ccds_file. intros H.
  apply bind_Ok in H as (hdr & Hhdr & H).
  apply fmap_Ok in Hhdr as (h0 & Hh0 & ->). apply of_option_Ok in Hh0.
  apply bind_Ok in H as (ccds & Hloop & H). injection H as <-.
  rewrite hsplit4_extns in Hloop. simpl in Hloop.
  apply bind_Ok in Hloop as ([sc1 h1] & H1 & Hloop).
  apply bind_Ok in Hloop as (r1 & Hloop & Hr1). injection Hr1 as <-.
  apply bind_Ok in Hloop as ([sc2 h2] & H2 & Hloop).
  apply bind_Ok in Hloop as (r2 & Hloop & Hr2). injection Hr2 as <-.
  apply bind_Ok in Hloop as ([sc3 h3] & H3 & Hloop).
  apply bind_Ok in Hloop as (r3 & Hloop & Hr3). injection Hr3 as <-.
  apply bind_Ok in Hloop as ([sc4 h4] & H4 & Hloop).
  simpl in Hloop. injection Hloop as <-.
  apply process_ccd_inv in H1 as (Hn1 & im1 & Hd1 & Hs1).
  apply process_ccd_inv in H2 as (Hn2 & im2 & Hd2 & Hs2).
  apply process_ccd_inv in H3 as (Hn3 & im3 & Hd3 & Hs3).
  apply process_ccd_inv in H4 as (Hn4 & im4 & Hd4 & Hs4).
  change ("CCD" ++ fmt_d 1) with "CCD1" in Hn1.
  change ("CCD" ++ fmt_d (1 + 1)) with "CCD2" in Hn2.
  change ("CCD" ++ fmt_d (1 + 1 + 1)) with "CCD3" in Hn3.
  change ("CCD" ++ fmt_d (1 + 1 + 1 + 1)) with "CCD4" in Hn4.
  split; [ | split].
  - simpl. by rewrite Hn1, Hn2, Hn3, Hn4.
  - exists h0. eexists. by repeat split.
  - change ccd_names with ["CCD1"; "CCD2"; "CCD3"; "CCD4"].
    unfold fits_ext, hdu_read.
    repeat constructor; simpl; rewrite ?Hn1, ?Hn2, ?Hn3, ?Hn4; simpl.
    + exists h1, im1. by rewrite Hd1.
    + exists h2, im2. by rewrite Hd2.
    + exists h3, im3. by rewrite Hd3.
    + exists h4, im4. by rewrite Hd4.
Qed.

End LayoutFacts.

(** ** FITS regions: written with [%d], read back by [_convertfitsreg] *)

Lemma is_digit_pretty_N_char n : is_digit (pretty_N_char n) = true.
Proof. unfold pretty_N_char. by repeat case_match. Qed.

Lemma digit_val_pretty_N_char n :
  (n < 10)%N -> digit_val (pretty_N_char n) = Z.of_N n.
Proof.
  intros Hn. rewrite <- (N2Nat.id n).
  assert (Hk : (N.to_nat n < 10)%nat) by lia.
  revert Hk. generalize (N.to_nat n). clear. intros k Hk.
  do 10 (destruct k as [|k]; [reflexivity | ]). lia.
Qed.

(** The digits that [pretty_N_go] puts in front of [s] are scanned as
    digits, and are worth the number printed. *)
Lemma span_digits_pretty_N_go x s r s1 r1 :
  span_digits (s ++ r) = (s1, r1) ->
  span_digits (pretty_N_go x s ++ r) = (pretty_N_go x s1, r1).
Proof.
  revert s s1. induction (N.lt_wf_0 x) as [x _ IH]; intros s s1 Hs.
  destruct (decide (x = 0%N)) as [->|Hx].
  - by rewrite !pretty_N_go_0.
  - rewrite !(pretty_N_go_step x) by lia.
    apply IH; [apply N.div_lt; lia | ].
    rewrite string_app_cons. simpl.
    by rewrite is_digit_pretty_N_char, Hs.
Qed.

Lemma digits_val_pretty_N_go x :
  exists k : Z,
    0 <= k /\
    forall s acc,
      digits_val acc (pretty_N_go x s)
      = digits_val (acc * 10 ^ k + Z.of_N x) s.
Proof.
  induction (N.lt_wf_0 x) as [x _ IH].
  destruct (decide (x = 0%N)) as [->|Hx].
  - exists 0. split; [done | ]. intros s acc. rewrite pretty_N_go_0.
    f_equal. lia.
  - destruct (IH (x `div` 10)%N) as (k & Hk & Hval); [apply N.div_lt; lia | ].
    exists (k + 1). split; [lia | ]. intros s acc.
    rewrite pretty_N_go_step by lia. rewrite Hval. simpl. f_equal.
    rewrite digit_val_pretty_N_char by (apply N.mod_lt; lia).
    rewrite Z.pow_add_r by lia.
    pose proof (N.div_mod x 10 ltac:(lia)) as Hdm.
    apply (f_equal Z.of_N) in Hdm.
    rewrite N2Z.inj_add, N2Z.inj_mul in Hdm. lia.
Qed.

Lemma pretty_N_go_nonempty x s : s <> "" -> pretty_N_go x s <> "".
Proof.
  revert s. induction (N.lt_wf_0 x) as [x _ IH]; intros s Hs.
  destruct (decide (x = 0%N)) as [->|Hx].
  - by rewrite pretty_N_go_0.
  - rewrite pretty_N_go_step by lia. apply IH; [apply N.div_lt; lia | done].
Qed.

(** [(\d+)] on a number printed with [%d]: the number, and what follows
    it when that does not start with a digit. *)
Lemma group_digits_fmt_d z r :
  0 <= z -> span_digits r = ("", r) ->
  group_digits (fmt_d z ++ r) = Some (z, r).
Proof.
  intros Hz Hr. unfold fmt_d, group_digits.
  destruct z as [|p|p]; [ | | lia].
  - change (pretty 0) with "0". rewrite string_app_cons, string_app_nil_l.
    simpl. by rewrite Hr.
  - change (pretty (Z.pos p)) with (pretty_N_go (N.pos p) "").
    rewrite (span_digits_pretty_N_go _ "" r "" r) by done.
    destruct (digits_val_pretty_N_go (N.pos p)) as (k & _ & Hval).
    rewrite (Hval "" 0) . simpl.
    destruct (pretty_N_go (N.pos p) "") eqn:E.
    + exfalso. rewrite pretty_N_go_step in E by lia.
      by apply pretty_N_go_nonempty in E.
    + done.
Qed.

Lemma match_regpattern_fmt a b c d rest :
  0 <= a -> 0 <= b -> 0 <= c -> 0 <= d ->
  match_regpattern (fmt_detsec a b c d ++ rest) = Some (a, b, c, d).
Proof.
  intros Ha Hb Hc Hd. unfold fmt_detsec, match_regpattern.
  rewrite !string_app_assoc.
  rewrite !string_app_cons, !string_app_nil_l. simpl.
  rewrite group_digits_fmt_d by done. simpl.
  rewrite group_digits_fmt_d by done. simpl.
  rewrite group_digits_fmt_d by done. simpl.
  rewrite group_digits_fmt_d by done. simpl.
  done.
Qed.

(** X12.  A region written the way [_orient_mosaic] writes [DETSEC], as
    ['[%d:%d,%d:%d]'] of four numbers that are not negative, is read back
    by [_convertfitsreg] with the two lower bounds made zero-based;
    whatever follows the closing bracket is ignored. *)
Theorem convertfitsreg_fmt_detsec a b c d rest :
  0 <= a -> 0 <= b -> 0 <= c -> 0 <= d ->
  _convertfitsreg (PyStr (fmt_detsec a b c d ++ rest))
  = Ok (a - 1, b, c - 1, d).
Proof.
  intros Ha Hb Hc Hd. unfold _convertfitsreg.
  by rewrite match_regpattern_fmt.
Qed.

Lemma string_app_nil_r (s : string) : s ++ "" = s.
Proof.
  induction s as [|c s IH]; [done | ]. by rewrite string_app_cons, IH.
Qed.

Lemma fmt_datasec_detsec nx ny : fmt_datasec nx ny = fmt_detsec 1 nx 1 ny.
Proof.
  unfold fmt_datasec, fmt_detsec. change (fmt_d 1) with "1".
  by rewrite !string_app_cons, !string_app_nil_l.
Qed.

Lemma orient_header_detsec hdr nx ny ccdNum origin hdr' :
  orient_header hdr nx ny ccdNum origin = Ok hdr' ->
  hdr' !! "DETSEC"
  = Some (PyStr (fmt_detsec (nx * ((ccdNum - 1) `div` 2) + 1)
                            (nx * ((ccdNum - 1) `div` 2 + 1))
                            (ny * (ccdNum `mod` 2) + 1)
                            (ny * (ccdNum `mod` 2 + 1)))).
Proof.
  unfold orient_header. intros H.
  apply bind_Ok in H as (cd1_1 & _ & H). apply bind_Ok in H as (cd1_2 & _ & H).
  destruct (py_eq_str origin "center").
  - apply bind_Ok in H as (signx & _ & H). apply bind_Ok in H as (signy & _ & H).
    apply bind_Ok in H as (ltv1 & _ & H). apply bind_Ok in H as (ltv2 & _ & H).
    injection H as <-. rewrite !lookup_insert_ne by done.
    apply lookup_insert_eq.
  - destruct (py_eq_str origin "lower left").
    + apply bind_Ok in H as (c1 & _ & H). apply bind_Ok in H as (c2 & _ & H).
      apply bind_Ok in H as (v1 & _ & H). apply bind_Ok in H as (v2 & _ & H).
      injection H as <-. rewrite !lookup_insert_ne by done.
      apply lookup_insert_eq.
    + injection H as <-. apply lookup_insert_eq.
Qed.

(** X13.  The sections that [_orient_mosaic] writes, read back by
    [_convertfitsreg].  [DATASEC] is the whole mosaic image, [nx] columns
    by [ny] rows; [DETSEC] is a tile of that size in a detector of two by
    two tiles: the first column of tiles for CCDs 1 and 2, the second for
    CCDs 3 and 4, the second row of tiles for CCDs 1 and 3, the first for
    CCDs 2 and 4. *)
Theorem orient_mosaic_sections {A} hdr (ims : list (image A)) ccdNum origin
    outIm hdr' :
  1 <= ccdNum <= 4 ->
  _orient_mosaic hdr ims ccdNum origin = Ok (outIm, hdr') ->
  let nx := Z.of_nat (ncols outIm) in
  let ny := Z.of_nat (length outIm) in
  let di := if decide (ccdNum <= 2) then 0 else 1 in
  let dj := if decide (ccdNum = 1 \/ ccdNum = 3) then 1 else 0 in
  (v ← hdr_get hdr' "DATASEC"; _convertfitsreg v) = Ok (0, nx, 0, ny) /\
  (v ← hdr_get hdr' "DETSEC"; _convertfitsreg v)
  = Ok (nx * di, nx * di + nx, ny * dj, ny * dj + ny).
Proof.
  intros Hccd H nx ny di dj. unfold _orient_mosaic in H.
  destruct ims as [|i1 [|i2 [|i3 [|i4 [|]]]]]; try done.
  apply bind_Ok in H as (out & _ & H). apply bind_Ok in H as (hdr1 & Hh & H).
  injection H as -> <-. fold nx ny in Hh. unfold hdr_get. split.
  - rewrite (orient_header_datasec _ _ _ _ _ _ Hh).
    unfold of_option. rewrite bind_Ok_l. unfold _convertfitsreg.
    rewrite fmt_datasec_detsec, <- (string_app_nil_r (fmt_detsec 1 nx 1 ny)).
    rewrite match_regpattern_fmt by lia. done.
  - rewrite (orient_header_detsec _ _ _ _ _ _ Hh).
    unfold of_option. rewrite bind_Ok_l. unfold _convertfitsreg.
    rewrite <- (string_app_nil_r (fmt_detsec _ _ _ _)).
    assert (Hdi : (ccdNum - 1) `div` 2 = di).
    { subst di. case_decide.
      - apply Z.div_small. lia.
      - symmetry. apply (Z.div_unique_pos _ _ _ (ccdNum - 3)); lia. }
    assert (Hdj : ccdNum `mod` 2 = dj).
    { subst dj. case_decide as Hodd.
      - destruct Hodd as [-> | ->]; done.
      - assert (ccdNum = 2 \/ ccdNum = 4) as [-> | ->] by lia; done. }
    rewrite Hdi, Hdj.
    rewrite match_regpattern_fmt by (subst di dj nx ny;
      repeat case_decide; lia).
    do 2 f_equal; [f_equal; [f_equal | ] | ]; lia.
Qed.

(** ** The cards of the stacked files *)

Lemma zeros_cons (k : nat) :
  String.concat "" (replicate (S k) "0")
  = String "0" (String.concat "" (replicate k "0")).
Proof. destruct k; reflexivity. Qed.

Lemma digits_val_zeros (k : nat) (s : string) :
  digits_val 0 (String.concat "" (replicate k "0") ++ s) = digits_val 0 s.
Proof.
  induction k as [|k IH]; [done | ].
  rewrite zeros_cons, string_app_cons. exact IH.
Qed.

Lemma digits_val_fmt_d z : 0 <= z -> digits_val 0 (fmt_d z) = z.
Proof.
  intros Hz. unfold fmt_d. destruct z as [|p|p]; [done | | lia].
  change (pretty (Z.pos p)) with (pretty_N_go (N.pos p) "").
  destruct (digits_val_pretty_N_go (N.pos p)) as (k & _ & Hval).
  by rewrite (Hval "" 0).
Qed.

(** [%0wd] loses nothing: the number can be read back from the digits. *)
Lemma digits_val_fmt_0d w z : 0 <= z -> digits_val 0 (fmt_0d w z) = z.
Proof.
  intros Hz. unfold fmt_0d. by rewrite digits_val_zeros, digits_val_fmt_d.
Qed.

Lemma fmt_0d_inj w a b : 0 <= a -> 0 <= b -> fmt_0d w a = fmt_0d w b -> a = b.
Proof.
  intros Ha Hb H. apply (f_equal (digits_val 0)) in H.
  by rewrite !digits_val_fmt_0d in H.
Qed.

Lemma add_file_cards_before cardPrefix num files hdr n :
  0 <= n < num ->
  add_file_cards cardPrefix num files hdr !! (cardPrefix ++ fmt_0d 3 n)
  = hdr !! (cardPrefix ++ fmt_0d 3 n).
Proof.
  revert num hdr. induction files as [|f files IH]; intros num hdr Hn;
    [done | ].
  simpl. rewrite IH by lia. apply lookup_insert_ne.
  intros Heq. apply string_app_inv_head, fmt_0d_inj in Heq; lia.
Qed.

Lemma add_file_cards_other cardPrefix num files hdr key :
  (forall n, key <> cardPrefix ++ fmt_0d 3 n) ->
  add_file_cards cardPrefix num files hdr !! key = hdr !! key.
Proof.
  intros Hkey. revert num hdr.
  induction files as [|f files IH]; intros num hdr; [done | ].
  simpl. rewrite IH. apply lookup_insert_ne. intros Heq. by eapply Hkey.
Qed.

Lemma add_file_cards_lookup cardPrefix num files hdr i f :
  0 <= num -> files !! i = Some f ->
  add_file_cards cardPrefix num files hdr
    !! (cardPrefix ++ fmt_0d 3 (num + Z.of_nat i))
  = Some (PyStr (basename f)).
Proof.
  revert num hdr i. induction files as [|f0 files IH]; intros num hdr i Hn Hi;
    [done | ].
  simpl. destruct i as [|i].
  - injection Hi as <-. rewrite Z.add_0_r.
    rewrite add_file_cards_before by lia. apply lookup_insert_eq.
  - simpl in Hi.
    replace (num + Z.of_nat (S i)) with (num + 1 + Z.of_nat i) by lia.
    apply IH; [lia | done].
Qed.

(** X14.  The header that [_write_stack_header_cards] returns is the
    primary header of the first file with one card per stacked file: the
    [i]-th file of the list (counting from 1) has its base name on the
    card [PREFIXnnn] of its own number, however many files there are, and
    every card of another form is as the first file has it. *)
Theorem write_stack_header_cards_recorded (fs : filesystem)
    (fileList : list string) (cardPrefix : string) (hdr : header) :
  _write_stack_header_cards fs fileList cardPrefix = Ok hdr ->
  exists f0 hdr0,
    head fileList = Some f0 /\
    fitsio_read_header fs f0 None = Ok hdr0 /\
    (forall i f,
       fileList !! i = Some f ->
       hdr !! (cardPrefix ++ fmt_0d 3 (Z.of_nat (S i)))
       = Some (PyStr (basename f))) /\
    (forall key,
       (forall n, key <> cardPrefix ++ fmt_0d 3 n) ->
       hdr !! key = hdr0 !! key).
Proof.
  unfold _write_stack_header_cards. intros H.
  apply bind_Ok in H as (f0 & Hf0 & H). apply of_option_Ok in Hf0.
  apply bind_Ok in H as (hdr0 & Hhdr0 & H). injection H as <-.
  exists f0, hdr0. do 2 (split; [done | ]). split.
  - intros i f Hi.
    replace (Z.of_nat (S i)) with (1 + Z.of_nat i) by lia.
    by apply add_file_cards_lookup.
  - intros key Hkey. by apply add_file_cards_other.
Qed.

(** ** What [stack_bias_frames] writes to *)

Lemma touches_bind {A B} paths (m : io A) (f : A -> io B) :
  touches_only paths m -> (forall a, touches_only paths (f a)) ->
  touches_only paths (m ≫= f).
Proof.
  intros Hm Hf fs p Hp. rewrite run_bind.
  specialize (Hm fs p Hp). destruct (run m fs) as [[a|e] fs1]; simpl in *.
  - by rewrite (Hf a fs1 p Hp).
  - done.
Qed.

Lemma touches_lift {A} paths (r : result A) : touches_only paths (lift r).
Proof. by intros fs p Hp. Qed.

Lemma touches_reading {A} paths (f : filesystem -> result A) :
  touches_only paths (reading f).
Proof. by intros fs p Hp. Qed.

Lemma touches_ret {A} paths (a : A) : touches_only paths (mret a).
Proof. by intros fs p Hp. Qed.

Lemma touches_open_rw paths path :
  path ∈ paths -> touches_only paths (open_rw path).
Proof.
  intros Hin fs p Hp. unfold open_rw. cbn [run].
  destruct (fs !! path); simpl; [done | ].
  apply lookup_insert_ne. by intros ->.
Qed.

Lemma touches_fits_write paths path h :
  path ∈ paths -> touches_only paths (fits_write path h).
Proof.
  intros Hin fs p Hp. unfold fits_write. cbn [run].
  destruct (fs !! path); simpl; [ | done].
  apply lookup_insert_ne. by intros ->.
Qed.

Lemma touches_for_each {A} paths (l : list A) (body : A -> io unit) :
  (forall x, touches_only paths (body x)) ->
  touches_only paths (for_each l body).
Proof.
  intros Hbody. induction l as [|x l IH].
  - apply touches_ret.
  - change (for_each (x :: l) body)
      with (body x ≫= fun _ => for_each l body).
    by apply touches_bind.
Qed.

Section BiasFileFacts.

Variable sigma_clip_last : pyobj -> pyobj -> list sample -> list sample.
Variable normalize_scales :
  bool -> pyobj * pyobj * pyobj * pyobj -> cube sample -> result (list Qc).
Variable first_good_row : cube sample -> nat -> result Z.
Variable masked_fill : Qc.

(** X15.  Whatever the options and the files, and whether it returns or
    raises, [stack_bias_frames] changes no file but its output file and
    its variance file: the frames it stacks are only read. *)
Theorem stack_bias_frames_writes_outputs_only (fileList : list string)
    (kw : kwargs) (fs : filesystem) (p : string) :
  p <> path_join (default "./" (kw_output_dir kw))
         (default "bias.fits" (kw_output_file kw)) ->
  p <> path_join (default "./" (kw_output_dir kw))
         (default "biasvar.fits" (kw_var_output_file kw)) ->
  (run (stack_bias_frames sigma_clip_last normalize_scales first_good_row
          masked_fill fileList kw) fs).2 !! p
  = fs !! p.
Proof.
  intros Hout Hvar.
  set (out := path_join _ (default "bias.fits" _)) in *.
  set (varout := path_join _ (default "biasvar.fits" _)) in *.
  assert (Hin1 : out ∈ [out; varout]) by (rewrite !elem_of_cons; tauto).
  assert (Hin2 : varout ∈ [out; varout]) by (rewrite !elem_of_cons; tauto).
  cut (touches_only [out; varout]
         (stack_bias_frames sigma_clip_last normalize_scales first_good_row
            masked_fill fileList kw)).
  { intros Ht. apply Ht. rewrite !elem_of_cons, elem_of_nil. tauto. }
  unfold stack_bias_frames. fold out varout.
  apply touches_bind; [by apply touches_open_rw | intros _].
  apply touches_bind; [apply touches_reading | intros hdr].
  apply touches_bind; [by apply touches_fits_write | intros _].
  apply touches_bind.
  { destruct (default false (kw_with_variance kw)); [ | apply touches_ret].
    apply touches_bind; [by apply touches_open_rw | intros _].
    by apply touches_fits_write. }
  intros _. apply touches_for_each. intros extn.
  unfold stack_bias_extension.
  apply touches_bind; [apply touches_reading | intros cube].
  apply touches_bind.
  { destruct (default false _); [apply touches_lift | apply touches_ret]. }
  intros cube'.
  apply touches_bind; [apply touches_lift | intros [stack extras]].
  apply touches_bind; [apply touches_lift | intros f0].
  apply touches_bind; [apply touches_reading | intros hdr1].
  apply touches_bind; [by apply touches_fits_write | intros _].
  destruct (default false (kw_with_variance kw)); [ | apply touches_ret].
  destruct extras as [|[sc|v] extras];
    [apply touches_lift | by apply touches_fits_write ..].
Qed.

(** X16.  With an empty list of frames [stack_bias_frames] raises
    [IndexError] when it looks for the header of the first frame; by then
    it has opened its output file, which is left behind, empty, if it did
    not exist before. *)
Theorem stack_bias_frames_no_frames (kw : kwargs) (fs : filesystem) :
  let out := path_join (default "./" (kw_output_dir kw))
               (default "bias.fits" (kw_output_file kw)) in
  run (stack_bias_frames sigma_clip_last normalize_scales first_good_row
         masked_fill [] kw) fs
  = (Raise IndexError,
     match fs !! out with Some _ => fs | None => <[out := []]> fs end).
Proof.
  intros out. unfold stack_bias_frames. fold out.
  rewrite run_bind. unfold open_rw at 1. cbn [run].
  destruct (fs !! out); by rewrite run_bind, run_reading.
Qed.

End BiasFileFacts.

(** ** The three parts of an amplifier image *)

Lemma py_slice_range {A} (l : list A) (i1 i2 : Z) :
  0 <= i1 <= i2 -> i2 <= Z.of_nat (length l) ->
  py_slice (Some i1) (Some i2) l
  = take (Z.to_nat (i2 - i1)) (drop (Z.to_nat i1) l).
Proof.
  intros H1 H2. unfold py_slice, slice_index. simpl.
  repeat case_decide; try lia.
  by rewrite !Z.min_l by lia.
Qed.

Lemma py_slice_from {A} (l : list A) (i1 : Z) :
  0 <= i1 <= Z.of_nat (length l) ->
  py_slice (Some i1) None l = drop (Z.to_nat i1) l.
Proof.
  intros H1. unfold py_slice, slice_index. simpl.
  case_decide; [lia | ]. rewrite Z.min_l by lia.
  apply take_ge. rewrite length_drop. lia.
Qed.

Lemma py_slice_all {A} (l : list A) : py_slice None None l = l.
Proof.
  unfold py_slice. simpl. rewrite Z.sub_0_r, Nat2Z.id.
  by rewrite drop_0, firstn_all.
Qed.

Lemma rect_take {A} (h w n : nat) (im : image A) :
  rect h w im -> (n <= h)%nat -> rect n w (take n im).
Proof.
  intros [Hlen Hall] Hn. split.
  - rewrite length_take. lia.
  - by apply Forall_take.
Qed.

(** The slices that [extract_overscan] takes for an amplifier whose data
    section is the first [nx] columns and [ny] rows and whose bias section
    is the [no] columns next to it. *)
Lemma extract_overscan_sections {A} (imhdu : hdu A) (raw : image A)
    (biassec datasec : pyobj) (nx no ny h : nat) :
  hdu_data imhdu = Some raw ->
  rect h (nx + no) raw ->
  (ny <= h)%nat ->
  hdu_header imhdu !! "BIASSEC" = Some biassec ->
  _convertfitsreg biassec
  = Ok (Z.of_nat nx, Z.of_nat (nx + no), 0, Z.of_nat ny) ->
  hdu_header imhdu !! "DATASEC" = Some datasec ->
  _convertfitsreg datasec = Ok (0, Z.of_nat nx, 0, Z.of_nat ny) ->
  hdu_header imhdu !! "NAXIS2" = Some (PyInt (Z.of_nat h)) ->
  extract_overscan imhdu
  = Ok (map (take nx) (take ny raw),
        map (fun row => take no (drop nx row)) (take ny raw),
        if decide (S ny < h)%nat then Some (drop ny raw) else None).
Proof.
  intros Hraw [Hlen Hrows] Hny Hb Hbsec Hd Hdsec Hnax.
  assert (Hrt : rect ny (nx + no) (take ny raw))
    by (by apply (rect_take h)).
  destruct Hrt as [Hlt Hrt].
  unfold extract_overscan, hdu_read, hdr_get.
  rewrite Hraw, Hb, Hd, Hnax. cbn [of_option mbind result_bind].
  rewrite Hbsec. cbn [mbind result_bind].
  rewrite Hdsec. cbn [mbind result_bind as_int]. unfold slice2.
  rewrite !py_slice_range by lia. rewrite py_slice_from by lia.
  rewrite !Z.sub_0_r, !Nat2Z.id. change (Z.to_nat 0) with 0%nat.
  rewrite !drop_0. do 3 f_equal.
  - apply map_ext_Forall. eapply Forall_impl; [exact Hrt | ].
    intros row Hrow. simpl in Hrow.
    rewrite py_slice_range by lia.
    by rewrite Z.sub_0_r, Nat2Z.id, drop_0.
  - apply map_ext_Forall. eapply Forall_impl; [exact Hrt | ].
    intros row Hrow. simpl in Hrow.
    rewrite py_slice_range by lia.
    rewrite Nat2Z.id. do 2 f_equal. lia.
  - destruct (decide (Z.of_nat h > Z.of_nat ny + 1)),
             (decide (S ny < h)%nat); try lia; [ | done].
    f_equal. rewrite <- (map_id (drop ny raw)) at 2.
    apply map_ext. intros row. apply py_slice_all.
Qed.

(** X17.  For an amplifier whose data section is the first [nx] columns
    and [ny] rows and whose bias section is the [no] columns next to it,
    over the same rows: [extract_overscan] returns the two sections, which
    side by side are the first [ny] rows of the raw image again; and the
    rows below them, over the full width, when there are two or more. *)
Theorem extract_overscan_partition {A} (imhdu : hdu A) (raw : image A)
    (biassec datasec : pyobj) (nx no ny h : nat) :
  hdu_data imhdu = Some raw ->
  rect h (nx + no) raw ->
  (ny <= h)%nat ->
  hdu_header imhdu !! "BIASSEC" = Some biassec ->
  _convertfitsreg biassec
  = Ok (Z.of_nat nx, Z.of_nat (nx + no), 0, Z.of_nat ny) ->
  hdu_header imhdu !! "DATASEC" = Some datasec ->
  _convertfitsreg datasec = Ok (0, Z.of_nat nx, 0, Z.of_nat ny) ->
  hdu_header imhdu !! "NAXIS2" = Some (PyInt (Z.of_nat h)) ->
  exists data cols,
    extract_overscan imhdu
    = Ok (data, cols,
          if decide (S ny < h)%nat then Some (drop ny raw) else None) /\
    rect ny nx data /\ rect ny no cols /\
    hstack2 data cols = Ok (take ny raw).
Proof.
  intros Hraw Hrect Hny Hb Hbsec Hd Hdsec Hnax.
  assert (Hrt : rect ny (nx + no) (take ny raw))
    by (by apply (rect_take h)).
  destruct Hrt as [Hlt Hrt].
  exists (map (take nx) (take ny raw)),
         (map (fun row => take no (drop nx row)) (take ny raw)).
  split; [by eapply extract_overscan_sections | ]. split; [ | split].
  - split; [by rewrite length_map | ].
    map_to_fmap. apply Forall_fmap. eapply Forall_impl; [exact Hrt | ].
    intros row Hrow. simpl in *. rewrite length_take. lia.
  - split; [by rewrite length_map | ].
    map_to_fmap. apply Forall_fmap. eapply Forall_impl; [exact Hrt | ].
    intros row Hrow. simpl in *. rewrite length_take, length_drop. lia.
  - unfold hstack2. rewrite decide_True by (by rewrite !length_map).
    f_equal. clear Hlt. induction Hrt as [|row rows Hrow _ IH]; [done | ].
    simpl. rewrite IH. f_equal.
    rewrite (take_ge (drop nx row)) by (rewrite length_drop; lia).
    apply take_drop.
Qed.

(** ** Overscan fits *)

Lemma mapR_raises {A B} (f : A -> result B) (l : list A) (e : exn) x :
  (forall y e', f y = Raise e' -> e' = e) ->
  x ∈ l -> f x = Raise e -> mapR f l = Raise e.
Proof.
  intros Hall Hin Hx. induction l as [|y l IH]; [by apply elem_of_nil in Hin | ].
  simpl. destruct (f y) as [v|e'] eqn:Hy; simpl.
  - apply elem_of_cons in Hin as [-> | Hin]; [congruence | ].
    by rewrite (IH Hin).
  - by rewrite (Hall _ _ Hy).
Qed.

Lemma axis_index_lt n i j : axis_index n i = Ok j -> (j < n)%nat.
Proof.
  unfold axis_index. repeat case_decide; intros Heq; simplify_eq; lia.
Qed.

Lemma length_transpose {A} (im : image A) : length (transpose im) = ncols im.
Proof. unfold transpose. by rewrite length_map, length_seq. Qed.

Lemma length_mask_columns cols im :
  length (mask_columns cols im) = length im.
Proof. unfold mask_columns. by rewrite length_map. Qed.





Section OverscanFacts.

Variable sigma_clip_last : pyobj -> pyobj -> list sample -> list sample.
Variable spline_fit : pyobj -> list (option Qc) -> result (list (option Qc)).
Variable under_mask : Qc -> Qc.


(** X18.  [fit_overscan] checks the columns to mask before anything else:
    on an overscan that has rows, a position of [mask_at] that lies
    outside its columns, as one of the default [[0,1,2,-1]] does when
    there are fewer than three, raises [IndexError], whatever the
    rejection and the method. *)
Theorem fit_overscan_mask_at_outside overscan kw (i : Z) :
  let oriented :=
    if py_eq_str (default (PyStr "columns") (ok_along kw)) "rows"
    then transpose overscan else overscan in
  oriented <> [] ->
  i ∈ default [0; 1; 2; -1] (ok_mask_at kw) ->
  ~ (- Z.of_nat (ncols oriented) <= i < Z.of_nat (ncols oriented)) ->
  fit_overscan sigma_clip_last spline_fit overscan kw = Raise IndexError.
Proof.
  intros oriented _ Hin Hout. unfold fit_overscan. fold oriented.
  rewrite (mapR_raises _ _ IndexError i); [done | | done | ].
  - intros y e'. unfold axis_index. repeat case_decide; intros Heq; by simplify_eq.
  - unfold axis_index. repeat case_decide; try lia. done.
Qed.

(** X19.  Unless a spline is fitted, the fit has one value for each row
    of the overscan, and with [along='rows'] one for each column. *)
Theorem fit_overscan_length overscan kw fit :
  fit_overscan sigma_clip_last spline_fit overscan kw = Ok fit ->
  default (PyStr "mean") (ok_method kw) <> PyStr "cubic_spline" ->
  length fit
  = if py_eq_str (default (PyStr "columns") (ok_along kw)) "rows"
    then ncols overscan else length overscan.
Proof.
  unfold fit_overscan. intros H Hm.
  set (oriented := if py_eq_str _ "rows" then transpose overscan
                   else overscan) in *.
  assert (Hlen : length oriented
                 = if py_eq_str (default (PyStr "columns") (ok_along kw))
                        "rows"
                   then ncols overscan else length overscan).
  { subst oriented. destruct (py_eq_str _ "rows"); [ | done].
    apply length_transpose. }
  rewrite <- Hlen. clear Hlen.
  apply bind_Ok in H as (cols & _ & H).
  apply bind_Ok in H as (rejected & Hrej & H).
  assert (Hr : length rejected = length oriented).
  { destruct (py_eq_str _ "sigma_clip").
    - injection Hrej as <-. by rewrite length_map, length_mask_columns.
    - destruct (py_eq_str _ "minmax").
      + apply bind_Ok in Hrej as (imax & _ & Hrej).
        apply bind_Ok in Hrej as (imin & _ & Hrej). injection Hrej as <-.
        by rewrite !length_mask_columns.
      + injection Hrej as <-. by rewrite length_mask_columns. }
  destruct (py_eq_str _ "mean").
  { injection H as <-. by rewrite length_map. }
  destruct (py_eq_str _ "mean_value").
  { injection H as <-. by rewrite length_replicate. }
  destruct (py_eq_str _ "median_value").
  { injection H as <-. by rewrite length_replicate. }
  destruct (default (PyStr "mean") (ok_method kw)) as [ | | | | s | ];
    try done.
  unfold py_eq_str in H. case_bool_decide; [congruence | done].
Qed.



End OverscanFacts.

Section SubtractOverscanFacts.

Variable sigma_clip_last : pyobj -> pyobj -> list sample -> list sample.
Variable spline_fit : pyobj -> list (option Qc) -> result (list (option Qc)).
Variable under_mask : Qc -> Qc.


End SubtractOverscanFacts.

(** ** Rebinning *)

Lemma chunks_lookup {A} (k n : nat) (l : list A) i :
  (i < n)%nat -> chunks k n l !! i = Some (take k (drop (i * k) l)).
Proof.
  revert l i. induction n as [|n IH]; intros l i Hi; [lia | ].
  destruct i as [|i]; simpl; [done | ].
  rewrite IH by lia. by rewrite drop_drop.
Qed.

Lemma length_chunks {A} (k n : nat) (l : list A) : length (chunks k n l) = n.
Proof. revert l. induction n as [|n IH]; intros l; simpl; [done | by rewrite IH]. Qed.

Lemma concat_lookup {A} (n : nat) (ls : list (list A)) a b l :
  Forall (fun l => length l = n) ls ->
  ls !! a = Some l -> (b < n)%nat ->
  concat ls !! (a * n + b)%nat = l !! b.
Proof.
  intros Hall. revert a. induction Hall as [|l0 ls Hl0 _ IH]; intros a Ha Hb;
    [done | ].
  destruct a as [|a]; simpl in *.
  - injection Ha as ->. by rewrite lookup_app_l by lia.
  - rewrite lookup_app_r by lia.
    replace (n + a * n + b - length l0)%nat with (a * n + b)%nat by lia.
    by apply IH.
Qed.

Lemma length_concat_uniform {A} (n : nat) (ls : list (list A)) :
  Forall (fun l => length l = n) ls -> length (concat ls) = (length ls * n)%nat.
Proof.
  induction 1 as [|l ls Hl _ IH]; [done | ].
  simpl. rewrite length_app, IH. lia.
Qed.

(** X22.  [bok_rebin] of an image of [s0*n] rows and [s1*n] columns is
    an array of [s0] by [s1] pixels of [n*n] samples each, and sample
    [a*n+b] of pixel [(i,j)] is the pixel [(i*n+a, j*n+b)] of the image:
    the pixel holds its [n] by [n] block, row after row. *)
Theorem bok_rebin_blocks {A} (im : image A) (s0 s1 n : nat) :
  (0 < n)%nat -> (0 < s0)%nat -> (0 < s1)%nat ->
  rect (s0 * n) (s1 * n) im ->
  exists out,
    bok_rebin im (Z.of_nat n) = Ok out /\
    rect s0 s1 out /\
    forall i j a b,
      (i < s0)%nat -> (j < s1)%nat -> (a < n)%nat -> (b < n)%nat ->
      exists pixel,
        px out i j = Some pixel /\ length pixel = (n * n)%nat /\
        pixel !! (a * n + b)%nat = px im (i * n + a) (j * n + b).
Proof.
  intros Hn Hs0 Hs1 Hrect.
  pose proof (rect_ncols _ _ _ Hrect ltac:(nia)) as Hw.
  destruct Hrect as [Hlen Hrows].
  unfold bok_rebin. rewrite Hw, Hlen.
  rewrite decide_False by lia.
  assert (Hd0 : Z.of_nat (s0 * n) `div` Z.of_nat n = Z.of_nat s0).
  { rewrite Nat2Z.inj_mul. apply Z.div_mul. lia. }
  assert (Hd1 : Z.of_nat (s1 * n) `div` Z.of_nat n = Z.of_nat s1).
  { rewrite Nat2Z.inj_mul. apply Z.div_mul. lia. }
  rewrite Hd0, Hd1. rewrite decide_True by nia. rewrite !Nat2Z.id.
  eexists. split; [reflexivity | ].
  (* the groups of rows, and the runs of each row *)
  assert (Hgroup : forall i, (i < s0)%nat ->
            chunks n s0 im !! i = Some (take n (drop (i * n) im)) /\
            rect n (s1 * n) (take n (drop (i * n) im))).
  { intros i Hi. split; [by apply chunks_lookup | ]. split.
    - rewrite length_take, length_drop. nia.
    - by apply Forall_take, Forall_drop. }
  assert (Hblock : forall i, (i < s0)%nat ->
            rect n s1 (map (chunks n s1) (take n (drop (i * n) im)))).
  { intros i Hi. destruct (Hgroup i Hi) as [_ [Hl _]]. split.
    - by rewrite length_map.
    - map_to_fmap. apply Forall_fmap, Forall_forall. intros row _.
      simpl. apply length_chunks. }
  split; [split | ].
  - by rewrite !length_map, length_chunks.
  - rewrite Forall_lookup. intros i row Hi. map_to_fmap.
    rewrite !list_lookup_fmap in Hi.
    destruct (chunks n s0 im !! i) as [g|] eqn:Hg; [ | done].
    assert (Hlt : (i < s0)%nat).
    { apply lookup_lt_Some in Hg. by rewrite length_chunks in Hg. }
    destruct (Hgroup i Hlt) as [Hg' _]. rewrite Hg' in Hg.
    injection Hg as <-. simpl in Hi. injection Hi as <-.
    rewrite length_fmap.
    by destruct (transpose_spec n s1 _ (Hblock i Hlt) Hn) as [[? _] _].
  - intros i j a b Hi Hj Ha Hb.
    destruct (Hgroup i Hi) as [Hg [Hgl Hgr]].
    destruct (transpose_spec n s1 _ (Hblock i Hi) Hn) as [[Htl Htr] Htp].
    destruct (lookup_lt_is_Some_2
                (transpose (map (chunks n s1) (take n (drop (i * n) im)))) j)
      as [col Hcol]; [by rewrite Htl | ].
    unfold px. map_to_fmap. rewrite !list_lookup_fmap, Hg. simpl.
    rewrite list_lookup_fmap, Hcol. simpl.
    exists (concat col). split; [done | ].
    assert (Hcl : length col = n)
      by (rewrite Forall_lookup in Htr; by apply (Htr _ _ Hcol)).
    (* the runs collected in the pixel *)
    assert (Hrun : forall a, (a < n)%nat ->
              exists row,
                im !! (i * n + a)%nat = Some row /\
                col !! a = Some (take n (drop (j * n) row))).
    { intros a' Ha'.
      destruct (lookup_lt_is_Some_2 im (i * n + a')) as [row Hrow]; [nia | ].
      exists row. split; [done | ].
      specialize (Htp j a' Hj). unfold px in Htp.
      rewrite Hcol in Htp. simpl in Htp. rewrite Htp.
      map_to_fmap. rewrite list_lookup_fmap, lookup_take_lt by lia.
      rewrite lookup_drop, Hrow. simpl. by apply chunks_lookup. }
    assert (Hall : Forall (fun l => length l = n) col).
    { rewrite Forall_lookup. intros a' l Hl.
      assert (Ha' : (a' < n)%nat)
        by (apply lookup_lt_Some in Hl; lia).
      destruct (Hrun a' Ha') as (row & Hrow & Hca).
      rewrite Hca in Hl. injection Hl as <-.
      rewrite Forall_lookup in Hrows. pose proof (Hrows _ _ Hrow) as Hrl.
      simpl in Hrl. rewrite length_take, length_drop. nia. }
    split.
    + rewrite (length_concat_uniform n) by done. by rewrite Hcl.
    + destruct (Hrun a Ha) as (row & Hrow & Hca).
      rewrite (concat_lookup n col a b _ Hall Hca Hb).
      rewrite Hrow. simpl. rewrite lookup_take_lt by lia.
      rewrite lookup_drop. f_equal.
Qed.

(** X23.  [bok_rebin] raises [ValueError] when the bin size is not
    positive, and when it does not divide both the number of rows and the
    number of columns of the image: there is no rebinning with a
    remainder. *)
Theorem bok_rebin_remainder {A} (im : image A) (h w : nat) (nbin : Z) :
  rect h w im -> (0 < h)%nat ->
  nbin <= 0 \/ Z.of_nat h `mod` nbin <> 0 \/ Z.of_nat w `mod` nbin <> 0 ->
  bok_rebin im nbin = Raise ValueError.
Proof.
  intros Hrect Hh Hbad. unfold bok_rebin.
  rewrite (rect_ncols _ _ _ Hrect Hh). destruct Hrect as [-> _].
  case_decide; [done | ]. rewrite decide_False; [done | ].
  intros (Hn & Hs0 & Hs1 & Hsize).
  destruct Hbad as [Hbad | Hbad]; [lia | ].
  pose proof (Z.div_mod (Z.of_nat h) nbin ltac:(lia)) as Hdh.
  pose proof (Z.div_mod (Z.of_nat w) nbin ltac:(lia)) as Hdw.
  pose proof (Z.mod_pos_bound (Z.of_nat h) nbin Hn) as Hmh.
  pose proof (Z.mod_pos_bound (Z.of_nat w) nbin Hn) as Hmw.
  nia.
Qed.

(** ** Pixel coordinates *)

(** X24.  [bok_getxy] in ['image'] coordinates gives an array of
    [NAXIS2] rows and [NAXIS1] columns in which the pixel of row [i] and
    column [j] has [x = j] and [y = i], counted from zero; a coordinate
    system other than ['image'], ['physical'] and ['sky'] is a
    [ValueError]. *)
Theorem bok_getxy_image (hdr : header) (n1 n2 : Z) :
  hdr !! "NAXIS1" = Some (PyInt n1) ->
  hdr !! "NAXIS2" = Some (PyInt n2) ->
  0 <= n1 -> 0 <= n2 ->
  (exists xy,
     bok_getxy hdr (PyStr "image") = Ok xy /\
     rect (Z.to_nat n2) (Z.to_nat n1) xy /\
     forall i j,
       (i < Z.to_nat n2)%nat -> (j < Z.to_nat n1)%nat ->
       px xy i j = Some (nZ (Z.of_nat j), nZ (Z.of_nat i))) /\
  forall s,
    s ∉ ["image"; "physical"; "sky"] ->
    bok_getxy hdr (PyStr s) = Raise ValueError.
Proof.
  intros H1 H2 Hn1 Hn2. unfold bok_getxy, hdr_get. rewrite H1, H2.
  cbn [of_option mbind result_bind as_int]. split.
  - eexists. split; [reflexivity | ]. unfold indices. split; [split | ].
    + by rewrite !length_map, length_seqZ.
    + rewrite map_map. map_to_fmap. apply Forall_fmap, Forall_forall.
      intros i _. simpl. by rewrite !length_fmap, length_seqZ.
    + intros i j Hi Hj. unfold px. rewrite map_map. map_to_fmap.
      rewrite list_lookup_fmap, lookup_seqZ_lt by lia. simpl.
      rewrite !list_lookup_fmap, lookup_seqZ_lt by lia. simpl.
      by rewrite !Z.add_0_l.
  - intros s Hs. rewrite !elem_of_cons, elem_of_nil in Hs.
    rewrite !py_eq_str_false; [done | | | ]; intros ->; tauto.
Qed.

(** ** Cubes with masks *)




(** ** Missing cards and gains *)

(** X26.  [_orient_mosaic] needs exactly four images, else it raises
    [ValueError]; and once they are tiled it needs the cards [CD1_1] and
    [CD1_2] for the plate scale, whatever the origin: a header without
    one of them is a [KeyError]. *)
Theorem orient_mosaic_missing_cards {A} (hdr : header) (ims : list (image A))
    (ccdNum : Z) (origin : pyobj) :
  (length ims <> 4%nat ->
   _orient_mosaic hdr ims ccdNum origin = Raise ValueError) /\
  (forall im1 im2 im3 im4 out,
     ims = [im1; im2; im3; im4] ->
     orient_pixels im1 im2 im3 im4 ccdNum origin = Ok out ->
     (hdr !! "CD1_1" = None ->
      _orient_mosaic hdr ims ccdNum origin = Raise KeyError) /\
     (forall a, hdr !! "CD1_1" = Some a -> is_ok (as_num a) = true ->
                hdr !! "CD1_2" = None ->
                _orient_mosaic hdr ims ccdNum origin = Raise KeyError)).
Proof.
  split.
  - intros Hlen. unfold _orient_mosaic.
    by destruct ims as [|i1 [|i2 [|i3 [|i4 [|]]]]].
  - intros im1 im2 im3 im4 out -> Hout. unfold _orient_mosaic.
    rewrite Hout, bind_Ok_l. unfold orient_header, hdr_get.
    rewrite !lookup_insert_ne by done. split.
    + by intros ->.
    + intros a -> Ha ->. simpl. by destruct (as_num a).
Qed.

Section GainTableFacts.

Variable clipped_mean : pyobj -> pyobj -> image num -> num.

(** X27.  An extension of the group that has no entry in the gain table
    makes [multiply_gain] raise [KeyError], with the sky correction on or
    off, once the two regions unpack and the images of the group are
    read. *)
Theorem multiply_gain_missing_gain inFits extGroup hdr (skyGainCor : bool)
    inputGain ampCorStatReg ccdCorStatReg clipArgs skyIn refAmp ext :
  is_ok (unpack4 ampCorStatReg) = true ->
  is_ok (unpack4 ccdCorStatReg) = true ->
  is_ok (mapR (fun ext => fits_ext inFits ext ≫= hdu_read) extGroup)
  = true ->
  ext ∈ extGroup -> inputGain !! ext = None ->
  multiply_gain clipped_mean inFits extGroup hdr skyGainCor inputGain
    ampCorStatReg ccdCorStatReg clipArgs skyIn refAmp = Raise KeyError.
Proof.
  intros Ha Hc Hims Hin Hgain. unfold multiply_gain.
  destruct (unpack4 ampCorStatReg) as [ampReg|]; [ | done].
  destruct (unpack4 ccdCorStatReg) as [ccdReg|]; [ | done].
  destruct (mapR _ extGroup) as [ampIms|]; [ | done].
  rewrite !bind_Ok_l.
  rewrite (mapR_raises _ _ KeyError ext); [done | | done | by rewrite Hgain].
  intros y e'. destruct (inputGain !! y); simpl; intros Heq; by simplify_eq.
Qed.

End GainTableFacts.

(** ** What a successful [stack_bias_frames] has written *)

Lemma run_bind_Ok {A B} (m : io A) (f : A -> io B) fs b fs' :
  run (m ≫= f) fs = (Ok b, fs') ->
  exists a fs1, run m fs = (Ok a, fs1) /\ run (f a) fs1 = (Ok b, fs').
Proof.
  rewrite run_bind. destruct (run m fs) as [[a|e] fs1]; [eauto | discriminate].
Qed.

Lemma mapR_ext_in {A B} (f g : A -> result B) (l : list A) :
  (forall x, x ∈ l -> f x = g x) -> mapR f l = mapR g l.
Proof.
  induction l as [|x l IH]; intros Hfg; [done | ].
  simpl. rewrite Hfg by apply list_elem_of_here.
  rewrite IH; [done | ]. intros y Hy. apply Hfg. by apply list_elem_of_further.
Qed.

(** Reading depends on the files read only. *)
Lemma build_cube_agree (fs1 fs2 : filesystem) fileList extn :
  (forall f, f ∈ fileList -> fs1 !! f = fs2 !! f) ->
  build_cube fs1 fileList extn MasksNone
  = build_cube fs2 fileList extn MasksNone.
Proof.
  intros Hagree. unfold build_cube.
  rewrite (mapR_ext_in _ (fun f => fitsio_read fs2 f extn)); [done | ].
  intros f Hf. unfold fitsio_read. by rewrite (Hagree f Hf).
Qed.

Lemma fitsio_read_header_agree (fs1 fs2 : filesystem) f ext :
  fs1 !! f = fs2 !! f ->
  fitsio_read_header fs1 f ext = fitsio_read_header fs2 f ext.
Proof. intros H. unfold fitsio_read_header. by rewrite H. Qed.

Section BiasOutputFacts.

Variable sigma_clip_last : pyobj -> pyobj -> list sample -> list sample.
Variable normalize_scales :
  bool -> pyobj * pyobj * pyobj * pyobj -> cube sample -> result (list Qc).
Variable first_good_row : cube sample -> nat -> result Z.
Variable masked_fill : Qc.

(** The HDUs that the loop over the extensions appends to the output
    file, each computed from the frames as they were. *)
Lemma stack_bias_extensions_written (fs : filesystem) fileList kw out varout
    check (exts : list string) :
  out ∉ fileList ->
  forall fs1 fs2 pre,
    (forall p, p <> out -> fs1 !! p = fs !! p) ->
    fs1 !! out = Some pre ->
    run (for_each exts
           (stack_bias_extension sigma_clip_last normalize_scales
              first_good_row masked_fill fileList kw out varout false check))
        fs1 = (Ok (), fs2) ->
    exists hdus,
      fs2 !! out = Some (pre ++ hdus)%list /\
      (forall p, p <> out -> fs2 !! p = fs !! p) /\
      length hdus = length exts /\
      forall k extn,
        exts !! k = Some extn ->
        exists cube cube' stack extras f0 hdr,
          build_cube fs fileList extn MasksNone = Ok cube /\
          (if check then mask_dropped_rows first_good_row cube else Ok cube)
          = Ok cube' /\
          stack_image_cube sigma_clip_last normalize_scales cube' kw
          = Ok (stack, extras) /\
          head fileList = Some f0 /\
          fitsio_read_header fs f0 (Some extn) = Ok hdr /\
          hdus !! k
          = Some (mk_hdu (Some extn) hdr
                    (Some (fill_from_median masked_fill stack))).
Proof.
  intros Hout. induction exts as [|extn exts IH]; intros fs1 fs2 pre Hsame Hpre Hrun.
  - change (for_each [] ?body) with (mret () : io unit) in Hrun.
    rewrite run_ret in Hrun. injection Hrun as <-. exists [].
    rewrite app_nil_r. by repeat split.
  - change (for_each (extn :: exts) ?body)
      with (body extn ≫= fun _ => for_each exts body) in Hrun.
    apply run_bind_Ok in Hrun as ([] & fs1' & Hbody & Hrest).
    (* one turn of the loop *)
    unfold stack_bias_extension in Hbody.
    apply run_bind_Ok in Hbody as (cube & s1 & Hcube & Hbody).
    rewrite run_reading in Hcube. injection Hcube as Hcube <-.
    apply run_bind_Ok in Hbody as (cube' & s2 & Hdrop & Hbody).
    assert (Hdrop' : (if check then mask_dropped_rows first_good_row cube
                      else Ok cube) = Ok cube' /\ s2 = fs1).
    { destruct check.
      - rewrite run_lift in Hdrop. by injection Hdrop as -> <-.
      - rewrite run_ret in Hdrop. by injection Hdrop as -> <-. }
    destruct Hdrop' as [Hdrop' ->]. clear Hdrop.
    apply run_bind_Ok in Hbody as ([stack extras] & s3 & Hstack & Hbody).
    rewrite run_lift in Hstack. injection Hstack as Hstack <-.
    apply run_bind_Ok in Hbody as (f0 & s4 & Hf0 & Hbody).
    rewrite run_lift in Hf0. injection Hf0 as Hf0 <-.
    apply of_option_Ok in Hf0.
    apply run_bind_Ok in Hbody as (hdr & s5 & Hhdr & Hbody).
    rewrite run_reading in Hhdr. injection Hhdr as Hhdr <-.
    apply run_bind_Ok in Hbody as ([] & s6 & Hwrite & Hbody).
    rewrite (run_fits_write_Some _ _ _ _ Hpre) in Hwrite.
    injection Hwrite as <-. rewrite run_ret in Hbody. injection Hbody as <-.
    (* the frames are as they were *)
    assert (Hfiles : forall f, f ∈ fileList -> fs1 !! f = fs !! f).
    { intros f Hf. apply Hsame. by intros ->. }
    rewrite (build_cube_agree fs1 fs) in Hcube by done.
    assert (Hf0in : f0 ∈ fileList).
    { destruct fileList as [|f l]; [done | ]. injection Hf0 as ->.
      apply list_elem_of_here. }
    rewrite (fitsio_read_header_agree fs1 fs) in Hhdr by by apply Hfiles.
    (* the rest of the loop *)
    set (h := mk_hdu (Some extn) hdr
                (Some (fill_from_median masked_fill stack))) in *.
    destruct (IH (<[out := (pre ++ [h])%list]> fs1) fs2 (pre ++ [h])%list)
      as (hdus & Hfs2 & Hsame2 & Hlen & Hall).
    + intros p Hp. rewrite lookup_insert_ne by done. by apply Hsame.
    + apply lookup_insert_eq.
    + exact Hrest.
    + exists (h :: hdus). split; [by rewrite Hfs2, <- app_assoc | ].
      split; [done | ]. split; [simpl; by rewrite Hlen | ].
      intros [|k] e Hk; simpl in Hk.
      * injection Hk as <-. by exists cube, cube', stack, extras, f0, hdr.
      * by apply Hall.
Qed.

(** X28.  When [stack_bias_frames] returns, without a variance file and
    with an output file that is not one of the frames: the output file
    has gained the primary HDU, whose header carries the [BIAS] cards,
    and then one HDU per extension in the order of [extensions]; the HDU
    of an extension has the header of that extension in the first frame,
    and its image is the stack of the cube built from the frames as they
    were before the call (after the dropped-row check, when asked for),
    with the pixels that stayed masked filled from the column medians.
    No other file has changed. *)
Theorem stack_bias_frames_output (fileList : list string) (kw : kwargs)
    (fs fs' : filesystem) :
  let exts := default bok90mef_extensions (kw_extensions kw) in
  let out := path_join (default "./" (kw_output_dir kw))
               (default "bias.fits" (kw_output_file kw)) in
  let kw' := setdefault_clip_iters (PyInt 1)
               (setdefault_method (PyStr "clipped_mean") kw) in
  let check := default false (kw_check_dropped_rows kw) in
  default false (kw_with_variance kw) = false ->
  out ∉ fileList ->
  run (stack_bias_frames sigma_clip_last normalize_scales first_good_row
         masked_fill fileList kw) fs = (Ok (), fs') ->
  exists hdr0 hdus,
    _write_stack_header_cards fs fileList "BIAS" = Ok hdr0 /\
    fs' !! out
    = Some (default [] (fs !! out) ++ mk_hdu None hdr0 None :: hdus)%list /\
    (forall p, p <> out -> fs' !! p = fs !! p) /\
    length hdus = length exts /\
    forall k extn,
      exts !! k = Some extn ->
      exists cube cube' stack extras f0 hdr,
        build_cube fs fileList extn MasksNone = Ok cube /\
        (if check then mask_dropped_rows first_good_row cube else Ok cube)
        = Ok cube' /\
        stack_image_cube sigma_clip_last normalize_scales cube' kw'
        = Ok (stack, extras) /\
        head fileList = Some f0 /\
        fitsio_read_header fs f0 (Some extn) = Ok hdr /\
        hdus !! k
        = Some (mk_hdu (Some extn) hdr
                  (Some (fill_from_median masked_fill stack))).
Proof.
  intros exts out kw' check Hnovar Hout Hrun.
  unfold stack_bias_frames in Hrun. fold out kw' in Hrun.
  rewrite Hnovar in Hrun.
  apply run_bind_Ok in Hrun as ([] & fs0 & Hopen & Hrun).
  assert (Hfs0 : fs0 !! out = Some (default [] (fs !! out)) /\
                 forall p, p <> out -> fs0 !! p = fs !! p).
  { unfold open_rw in Hopen. cbn [run] in Hopen.
    destruct (fs !! out) as [hs|] eqn:Ho; simplify_eq; simpl.
    - done.
    - split; [apply lookup_insert_eq | ].
      intros p Hp. by apply lookup_insert_ne. }
  destruct Hfs0 as [Hfs0 Hsame0].
  apply run_bind_Ok in Hrun as (hdr0 & s1 & Hhdr0 & Hrun).
  rewrite run_reading in Hhdr0. injection Hhdr0 as Hhdr0 <-.
  apply run_bind_Ok in Hrun as ([] & s2 & Hwrite & Hrun).
  rewrite (run_fits_write_Some _ _ _ _ Hfs0) in Hwrite.
  injection Hwrite as <-.
  apply run_bind_Ok in Hrun as ([] & s3 & Hret & Hrun).
  rewrite run_ret in Hret. injection Hret as <-.
  (* the header cards come from the first frame, which is as it was *)
  assert (Hcards : _write_stack_header_cards fs fileList "BIAS" = Ok hdr0).
  { rewrite <- Hhdr0. unfold _write_stack_header_cards.
    destruct (head fileList) as [f0|] eqn:Hf0; [ | done]. simpl.
    rewrite (fitsio_read_header_agree fs fs0); [done | ].
    symmetry. apply Hsame0. intros ->.
    apply Hout. destruct fileList as [|f l]; [done | ].
    injection Hf0 as ->. apply list_elem_of_here. }
  fold exts check in Hrun.
  destruct (stack_bias_extensions_written fs fileList kw' out _ check exts
              Hout _ fs' (default [] (fs !! out) ++ [mk_hdu None hdr0 None])
              ltac:(intros p Hp; rewrite lookup_insert_ne by done;
                    by apply Hsame0)
              ltac:(apply lookup_insert_eq) Hrun)
    as (hdus & Hfs' & Hsame & Hlen & Hall).
  exists hdr0, hdus. split; [done | ].
  split; [by rewrite Hfs', <- app_assoc | ]. by repeat split.
Qed.

End BiasOutputFacts.

(** ** The binned field of view *)

Lemma omap_all_None {A B} (g : A -> option B) (l : list A) :
  Forall (fun x => g x = None) l -> omap g l = [].
Proof. induction 1 as [|x l Hx _ IH]; [done | ]. simpl. by rewrite Hx. Qed.

Lemma length_omap_le {A B} (g : A -> option B) (l : list A) :
  (length (omap g l) <= length l)%nat.
Proof.
  induction l as [|x l IH]; [done | ].
  change (omap g (x :: l))
    with (match g x with Some y => y :: omap g l | None => omap g l end).
  destruct (g x); simpl; lia.
Qed.

(** Over [a, a+1, ...], a function that stays undefined once it is
    undefined is collected position by position. *)
Lemma omap_seq_lookup {B} (g : nat -> option B) (a n i : nat) :
  (forall k, g k = None -> g (S k) = None) ->
  (i < n)%nat -> omap g (seq a n) !! i = g (a + i)%nat.
Proof.
  intros Hmono.
  assert (Hlater : forall k j, g k = None -> g (k + j)%nat = None).
  { intros k j Hk. induction j as [|j IH]; [by rewrite Nat.add_0_r | ].
    rewrite Nat.add_succ_r. by apply Hmono. }
  revert a i. induction n as [|n IH]; intros a i Hi; [lia | ].
  simpl. destruct (g a) as [b|] eqn:Ha.
  - destruct i as [|i]; simpl.
    + by rewrite Nat.add_0_r.
    + rewrite IH by lia. f_equal. lia.
  - rewrite omap_all_None.
    + by rewrite (Hlater a i Ha).
    + apply Forall_forall. intros k Hk. apply elem_of_seq in Hk.
      replace k with (a + (k - a))%nat by lia. by apply Hlater.
Qed.

Lemma slice_step_lookup {A} (start step : nat) (l : list A) i :
  (0 < step)%nat -> (i < length l)%nat ->
  slice_step start step l !! i = l !! (start + i * step)%nat.
Proof.
  intros Hstep Hi. unfold slice_step.
  rewrite (omap_seq_lookup (fun k => l !! (start + k * step)%nat)); [done | | done].
  intros k Hk. apply lookup_ge_None in Hk. apply lookup_ge_None. simpl. lia.
Qed.

(** The blocks of [n] pixels of a row of [s*n] each give one sample, the
    one at [n/2]. *)
Lemma slice_step_blocks {A} (s n : nat) (l : list A) :
  (0 < n)%nat -> length l = (s * n)%nat ->
  length (slice_step (n / 2) n l) = s /\
  forall i, (i < s)%nat ->
    slice_step (n / 2) n l !! i = l !! (i * n + n / 2)%nat.
Proof.
  intros Hn Hlen.
  assert (Hhalf : (n / 2 < n)%nat) by (apply Nat.div_lt; lia).
  assert (Hlook : forall i, (i < s)%nat ->
            slice_step (n / 2) n l !! i = l !! (i * n + n / 2)%nat).
  { intros i Hi. rewrite slice_step_lookup by nia. f_equal. lia. }
  split; [ | done].
  destruct (decide (length (slice_step (n / 2) n l) = s)) as [|Hne]; [done | ].
  exfalso.
  assert (Hcase : (length (slice_step (n / 2) n l) < s
                   \/ s < length (slice_step (n / 2) n l))%nat) by lia.
  destruct Hcase as [Hshort | Hlong].
  - (* a sample is missing *)
    pose proof (Hlook _ Hshort) as Hl.
    rewrite (lookup_ge_None_2 (slice_step _ _ _)) in Hl by lia.
    symmetry in Hl. apply lookup_ge_None in Hl. nia.
  - (* there is one too many *)
    destruct (lookup_lt_is_Some_2 (slice_step (n / 2) n l) s Hlong) as [x Hx].
    destruct (decide (s < length l)%nat) as [Hs | Hs].
    + rewrite slice_step_lookup in Hx by lia.
      apply lookup_lt_Some in Hx. nia.
    + unfold slice_step in Hx. apply lookup_lt_Some in Hx.
      pose proof (length_omap_le (fun k => l !! (n / 2 + k * n)%nat)
                    (seq 0 (length l))) as Hle.
      rewrite length_seq in Hle. lia.
Qed.

Lemma bok_rebin_defined {A} (im : image A) (s0 s1 n : nat) :
  (0 < n)%nat -> (0 < s0)%nat -> (0 < s1)%nat ->
  rect (s0 * n) (s1 * n) im ->
  exists out, bok_rebin im (Z.of_nat n) = Ok out.
Proof.
  intros Hn Hs0 Hs1 Hrect.
  pose proof (rect_ncols _ _ _ Hrect ltac:(nia)) as Hw.
  destruct Hrect as [Hlen Hrows].
  unfold bok_rebin. rewrite Hw, Hlen.
  rewrite decide_False by lia.
  rewrite !Nat2Z.inj_mul, !Z.div_mul by lia.
  rewrite decide_True by nia. by eexists.
Qed.

Lemma bok_getxy_rect (hdr : header) coordsys xy (n1 n2 : Z) :
  bok_getxy hdr coordsys = Ok xy ->
  hdr !! "NAXIS1" = Some (PyInt n1) ->
  hdr !! "NAXIS2" = Some (PyInt n2) ->
  rect (Z.to_nat n2) (Z.to_nat n1) xy.
Proof.
  unfold bok_getxy, hdr_get. intros H H1 H2. rewrite H1, H2 in H.
  cbn [of_option mbind result_bind as_int] in H.
  assert (Hshape : forall f : Z * Z -> num * num,
            rect (Z.to_nat n2) (Z.to_nat n1) (map (map f) (indices n2 n1))).
  { intros f. unfold indices. split.
    - by rewrite !length_map, length_seqZ.
    - rewrite map_map. map_to_fmap. apply Forall_fmap, Forall_forall.
      intros i _. simpl. by rewrite !length_fmap, length_seqZ. }
  destruct (py_eq_str coordsys "image").
  { injection H as <-. apply Hshape. }
  destruct (py_eq_str coordsys "physical").
  { apply bind_Ok in H as (a1 & _ & H). apply bind_Ok in H as (a2 & _ & H).
    apply bind_Ok in H as (a3 & _ & H). apply bind_Ok in H as (a4 & _ & H).
    injection H as <-. apply Hshape. }
  destruct (py_eq_str coordsys "sky"); [ | done].
  apply bind_Ok in H as (a1 & _ & H). apply bind_Ok in H as (a2 & _ & H).
  apply bind_Ok in H as (a3 & _ & H). apply bind_Ok in H as (a4 & _ & H).
  apply bind_Ok in H as (a5 & _ & H). apply bind_Ok in H as (a6 & _ & H).
  injection H as <-. apply Hshape.
Qed.

(** X29.  [bok_fov_rebin] with a bin size [n > 1], on an extension of
    [s0*n] rows and [s1*n] columns (as its [NAXIS] cards say) and without
    a mask file: the image stored is [bok_rebin] of the image read, and
    the coordinates stored are [s0] by [s1], one per block: those that
    [bok_getxy] gives the pixel at row and column [n//2] of the block. *)
Theorem bok_fov_rebin_block_centres (h : hdu num) (data : image num)
    (coordsys : pyobj) (xy : image (num * num)) (n s0 s1 : nat) :
  (1 < n)%nat -> (0 < s0)%nat -> (0 < s1)%nat ->
  hdu_data h = Some data ->
  rect (s0 * n) (s1 * n) data ->
  hdu_header h !! "NAXIS1" = Some (PyInt (Z.of_nat (s1 * n))) ->
  hdu_header h !! "NAXIS2" = Some (PyInt (Z.of_nat (s0 * n))) ->
  bok_getxy (hdu_header h) coordsys = Ok xy ->
  exists binned xy',
    bok_fov_rebin_hdu h (Z.of_nat n) coordsys None
    = Ok (default "" (hdu_name h), mk_fov_entry xy' (inr binned)) /\
    bok_rebin (map (map (fun v => (v, false))) data) (Z.of_nat n)
    = Ok binned /\
    rect s0 s1 xy' /\
    forall i j,
      (i < s0)%nat -> (j < s1)%nat ->
      px xy' i j = px xy (i * n + n / 2) (j * n + n / 2).
Proof.
  intros Hn Hs0 Hs1 Hdata Hrect H1 H2 Hxy.
  pose proof (bok_getxy_rect _ _ _ _ _ Hxy H1 H2) as Hrxy.
  rewrite !Nat2Z.id in Hrxy. destruct Hrxy as [Hxl Hxr].
  destruct (bok_rebin_defined (map (map (fun v : num => (v, false))) data)
              s0 s1 n) as [binned Hbinned]; [lia | done | done | | ].
  { destruct Hrect as [Hl Hr]. split; [by rewrite length_map | ].
    map_to_fmap. apply Forall_fmap. eapply Forall_impl; [exact Hr | ].
    intros row Hrow. simpl in *. by rewrite length_fmap. }
  assert (Hhalf : Z.to_nat (Z.of_nat n `div` 2) = (n / 2)%nat).
  { change 2 with (Z.of_nat 2). by rewrite <- Nat2Z.inj_div, Nat2Z.id. }
  exists binned,
    (map (slice_step (n / 2) n) (slice_step (n / 2) n xy)).
  destruct (slice_step_blocks s0 n xy ltac:(lia) Hxl) as [Hlen Hrows].
  split; [ | split; [done | split]].
  - unfold bok_fov_rebin_hdu, hdu_read. rewrite Hdata, Hxy.
    cbn [of_option mbind result_bind]. rewrite decide_True by lia.
    rewrite Hbinned. cbn [mbind result_bind].
    by rewrite Hhalf, Nat2Z.id.
  - split; [by rewrite length_map | ].
    map_to_fmap. apply Forall_fmap. apply Forall_lookup. intros i row Hi.
    assert (Hlt : (i < s0)%nat) by (apply lookup_lt_Some in Hi; lia).
    rewrite (Hrows i Hlt) in Hi. rewrite Forall_lookup in Hxr.
    simpl.
    by destruct (slice_step_blocks s1 n row ltac:(lia) (Hxr _ _ Hi)).
  - intros i j Hi Hj. unfold px. map_to_fmap.
    rewrite list_lookup_fmap, (Hrows i Hi).
    destruct (xy !! (i * n + n / 2)%nat) as [row|] eqn:Hrow; [ | done].
    simpl. rewrite Forall_lookup in Hxr.
    destruct (slice_step_blocks s1 n row ltac:(lia) (Hxr _ _ Hrow))
      as [_ Hcols].
    by apply Hcols.
Qed.

(** ** The further properties at concrete inputs *)


Lemma stack_image_cube_shape_at_patchy_frames :
  exists stack extras,
    stack_image_cube clip_nothing normalize_none patchy_frames
      (kw_no_reject "mean") = Ok (stack, extras) /\
    shape stack = [2%nat].
Proof.
  assert (Hok : is_ok (stack_image_cube clip_nothing normalize_none patchy_frames
              (kw_no_reject "mean")) = true)
    by (vm_compute; reflexivity).
  destruct (stack_image_cube clip_nothing normalize_none patchy_frames
              (kw_no_reject "mean"))
    as [[stack extras]|e] eqn:E; [ | discriminate Hok].
  clear Hok.
  destruct (stack_image_cube_shape _ _ _ _ _ _ E) as [Hshape _].
  exists stack, extras. split; [reflexivity | exact Hshape].
Defined.


Lemma stack_masked_pixel_at_patchy_frames :
  exists stack extras,
    stack_image_cube clip_nothing normalize_none patchy_frames
      (kw_no_reject "mean") = Ok (stack, extras) /\
    px stack 0 1 = Some None.
Proof.
  assert (Hok : is_ok (stack_image_cube clip_nothing normalize_none patchy_frames
              (kw_no_reject "mean")) = true)
    by (vm_compute; reflexivity).
  destruct (stack_image_cube clip_nothing normalize_none patchy_frames
              (kw_no_reject "mean"))
    as [[stack extras]|e] eqn:E; [ | discriminate Hok].
  clear Hok.
  exists stack, extras. split; [reflexivity | ].
  apply (stack_masked_pixel clip_nothing normalize_none patchy_frames
           (kw_no_reject "mean") stack extras 0 1
           [(Qc_of 1, true); (Qc_of 2, true); (Qc_of 3, true)]);
    try reflexivity; try exact E.
  - intros iters sig q Hq. exact Hq.
  - repeat constructor.
Defined.



Lemma multiply_gain_sky_cards_at_flat_exposure :
  exists ims sc hdr' g3,
    multiply_gain plain_mean (flat_exposure (fun n => 100 + n))
      ["IM5"; "IM6"; "IM7"; "IM8"] ∅ true unit_gain whole_region
      whole_region (PyInt 3, PyFloat (Fin (dec 25 1))) (Some (nZ 51)) "IM8"
    = Ok (ims, sc, hdr') /\
    hdr' !! "CCDGAIN3" = Some (PyFloat g3).
Proof.
  assert (Hok : is_ok (multiply_gain plain_mean (flat_exposure (fun n => 100 + n))
              ["IM5"; "IM6"; "IM7"; "IM8"] ∅ true unit_gain whole_region
              whole_region (PyInt 3, PyFloat (Fin (dec 25 1)))
              (Some (nZ 51)) "IM8") = true)
    by (vm_compute; reflexivity).
  destruct (multiply_gain plain_mean (flat_exposure (fun n => 100 + n))
              ["IM5"; "IM6"; "IM7"; "IM8"] ∅ true unit_gain whole_region
              whole_region (PyInt 3, PyFloat (Fin (dec 25 1)))
              (Some (nZ 51)) "IM8")
    as [[[ims sc] hdr']|e] eqn:E; [ | discriminate Hok].
  clear Hok.
  destruct (multiply_gain_sky_cards _ _ _ _ _ _ _ _ _ _ _ _ _ E)
    as (ampReg & ccdReg & ampIms & gain & b & _ & _ & _ & _ & Hg3 & _).
  exists ims, sc, hdr', (b_gain3 b). split; [reflexivity | exact Hg3].
Defined.

Lemma combine_ccds_file_layout_at_flat_exposure :
  exists out,
    combine_ccds_file plain_mean (flat_exposure (fun n => 100 + n))
      sky_params = Ok out /\
    map hdu_name out
    = [None; Some "CCD1"; Some "CCD2"; Some "CCD3"; Some "CCD4"].
Proof.
  assert (Hok : is_ok (combine_ccds_file plain_mean (flat_exposure (fun n => 100 + n))
              sky_params) = true)
    by (vm_compute; reflexivity).
  destruct (combine_ccds_file plain_mean (flat_exposure (fun n => 100 + n))
              sky_params)
    as [out|e] eqn:E; [ | discriminate Hok].
  clear Hok.
  destruct (combine_ccds_file_layout _ _ _ _ E) as [Hnames _].
  exists out. split; [reflexivity | exact Hnames].
Defined.

Lemma sky_coordinates_after_orient_at_sized_header :
  exists hdr',
    orient_header sized_header 4 6 4 (PyStr "center") = Ok hdr' /\
    bok_getxy hdr' (PyStr "sky")
    = Ok (map (map (fun ij : Z * Z =>
            (nmul (nZ (-1)) (nsub (nZ ij.2) (Fin (dec (-18201) 2))),
             nmul (nZ (-1)) (nsub (nZ ij.1) (Fin (dec (-5904) 2))))))
            (indices 3 2)).
Proof.
  assert (Hok : is_ok (orient_header sized_header 4 6 4 (PyStr "center")) = true)
    by (vm_compute; reflexivity).
  destruct (orient_header sized_header 4 6 4 (PyStr "center"))
    as [hdr'|e] eqn:E; [ | discriminate Hok].
  clear Hok.
  exists hdr'. split; [reflexivity | ].
  apply (sky_coordinates_after_orient sized_header 4 6 4 hdr'
           (PyFloat (Fin (dec 1 4))) (PyFloat (nZ 0)) (dec 1 4) (Qc_of 0)
           2 3).
  - lia.
  - vm_compute. reflexivity.
  - reflexivity.
  - vm_compute. reflexivity.
  - reflexivity.
  - left. apply (bool_decide_unpack _). vm_compute. exact I.
  - vm_compute. reflexivity.
  - vm_compute. reflexivity.
  - exact E.
Defined.

Lemma convertfitsreg_fmt_detsec_at_ccd1 :
  _convertfitsreg (PyStr (fmt_detsec 1 4096 4033 8064 ++ " CCD1"))
  = Ok (1 - 1, 4096, 4033 - 1, 8064).
Proof. apply convertfitsreg_fmt_detsec; lia. Defined.

Lemma orient_mosaic_sections_at_2x3 :
  exists outIm hdr',
    _orient_mosaic (hdu_header (flat_amp "IM4" 5))
      [amp_a; amp_b; amp_c; amp_d] 3 (PyStr "lower left")
    = Ok (outIm, hdr') /\
    (v ← hdr_get hdr' "DATASEC"; _convertfitsreg v)
    = Ok (0, Z.of_nat (ncols outIm), 0, Z.of_nat (length outIm)).
Proof.
  assert (Hok : is_ok (_orient_mosaic (hdu_header (flat_amp "IM4" 5))
              [amp_a; amp_b; amp_c; amp_d] 3 (PyStr "lower left")) = true)
    by (vm_compute; reflexivity).
  destruct (_orient_mosaic (hdu_header (flat_amp "IM4" 5))
              [amp_a; amp_b; amp_c; amp_d] 3 (PyStr "lower left"))
    as [[outIm hdr']|e] eqn:E; [ | discriminate Hok].
  clear Hok.
  destruct (orient_mosaic_sections _ _ 3 _ _ _ ltac:(lia) E) as [Hdata _].
  exists outIm, hdr'. split; [reflexivity | exact Hdata].
Defined.

Lemma write_stack_header_cards_at_bias_frames :
  exists hdr,
    _write_stack_header_cards bias_fs ["b1.fits"; "b2.fits"] "BIAS" = Ok hdr /\
    hdr !! "BIAS002" = Some (PyStr "b2.fits").
Proof.
  assert (Hok : is_ok (_write_stack_header_cards bias_fs ["b1.fits"; "b2.fits"] "BIAS") = true)
    by (vm_compute; reflexivity).
  destruct (_write_stack_header_cards bias_fs ["b1.fits"; "b2.fits"] "BIAS")
    as [hdr|e] eqn:E; [ | discriminate Hok].
  clear Hok.
  destruct (write_stack_header_cards_recorded _ _ _ _ E)
    as (f0 & hdr0 & _ & _ & Hcards & _).
  exists hdr. split; [reflexivity | ].
  exact (Hcards 1%nat "b2.fits" eq_refl).
Defined.

Lemma stack_bias_frames_writes_outputs_only_at_bias_frames :
  (run (stack_bias_frames clip_nothing normalize_none no_dropped_row 0%Qc
          ["b1.fits"; "b2.fits"] kw_one_extension) bias_fs).2 !! "b1.fits"
  = bias_fs !! "b1.fits".
Proof.
  apply stack_bias_frames_writes_outputs_only; vm_compute; discriminate.
Defined.

Lemma extract_overscan_partition_at_amp :
  exists data cols,
    extract_overscan amp_one_extra_row = Ok (data, cols, None) /\
    hstack2 data cols = Ok [[1; 2; 3]; [4; 5; 6]].
Proof.
  destruct (extract_overscan_partition amp_one_extra_row
              [[1; 2; 3]; [4; 5; 6]; [7; 8; 9]]
              (PyStr "[3:3,1:2]") (PyStr "[1:2,1:2]") 2 1 2 3)
    as (data & cols & Hx & _ & _ & Hstack).
  - reflexivity.
  - split; [reflexivity | repeat constructor].
  - lia.
  - vm_compute. reflexivity.
  - vm_compute. reflexivity.
  - vm_compute. reflexivity.
  - vm_compute. reflexivity.
  - vm_compute. reflexivity.
  - exists data, cols. split; [exact Hx | exact Hstack].
Defined.

Lemma fit_overscan_mask_at_outside_at_narrow_overscan :
  fit_overscan clip_nothing spline_is_mean narrow_overscan no_oscan_kwargs
  = Raise IndexError.
Proof.
  apply (fit_overscan_mask_at_outside _ _ _ _ 2).
  - discriminate.
  - apply (bool_decide_unpack _). vm_compute. exact I.
  - vm_compute. intros [_ H]. discriminate H.
Defined.

Lemma fit_overscan_length_at_level_overscan :
  exists fit,
    fit_overscan clip_nothing spline_is_mean level_overscan
      (kw_oscan (Some (PyStr "median_value"))) = Ok fit /\
    length fit = 2%nat.
Proof.
  assert (Hok : is_ok (fit_overscan clip_nothing spline_is_mean
                         level_overscan
                         (kw_oscan (Some (PyStr "median_value")))) = true)
    by (vm_compute; reflexivity).
  destruct (fit_overscan clip_nothing spline_is_mean level_overscan
              (kw_oscan (Some (PyStr "median_value"))))
    as [fit|e] eqn:E; [ | discriminate Hok].
  exists fit. split; [reflexivity | ].
  apply (fit_overscan_length _ _ _ _ _ E). discriminate.
Defined.



Lemma bok_rebin_blocks_at_2x4 :
  exists out,
    bok_rebin [[1; 2; 3; 4]; [5; 6; 7; 8]] 2 = Ok out /\ rect 1 2 out /\
    exists pixel, px out 0 1 = Some pixel /\ pixel !! 2%nat = Some 7.
Proof.
  destruct (bok_rebin_blocks [[1; 2; 3; 4]; [5; 6; 7; 8]] 1 2 2)
    as (out & Hout & Hrect & Hpx); [lia | lia | lia | | ].
  - split; [reflexivity | repeat constructor].
  - exists out. split; [exact Hout | ]. split; [exact Hrect | ].
    destruct (Hpx 0 1 1 0)%nat as (pixel & Hp & _ & Hs); [lia.. | ].
    exists pixel. split; [exact Hp | exact Hs].
Defined.

Lemma bok_rebin_remainder_at_2x3 :
  bok_rebin [[1; 2; 3]; [4; 5; 6]] 2 = Raise ValueError.
Proof.
  apply (bok_rebin_remainder _ 2 3 2).
  - split; [reflexivity | repeat constructor].
  - lia.
  - right. right. discriminate.
Defined.

Lemma bok_getxy_image_at_sized_header :
  exists xy,
    bok_getxy sized_header (PyStr "image") = Ok xy /\
    px xy 2 1 = Some (nZ 1, nZ 2).
Proof.
  destruct (bok_getxy_image sized_header 2 3) as [(xy & Hxy & _ & Hpx) _].
  - vm_compute. reflexivity.
  - vm_compute. reflexivity.
  - lia.
  - lia.
  - exists xy. split; [exact Hxy | ]. apply (Hpx 2 1)%nat; simpl; lia.
Defined.


Lemma multiply_gain_missing_gain_at_flat_exposure :
  multiply_gain plain_mean (flat_exposure (fun n => 100 + n))
    ["IM1"; "IM2"; "IM3"; "IM4"] ∅ false ∅ whole_region whole_region
    (PyInt 3, PyFloat (Fin (dec 25 1))) None "IM2"
  = Raise KeyError.
Proof.
  apply (multiply_gain_missing_gain _ _ _ _ _ _ _ _ _ _ _ "IM3").
  - reflexivity.
  - reflexivity.
  - vm_compute. reflexivity.
  - apply (bool_decide_unpack _). vm_compute. exact I.
  - reflexivity.
Defined.

Lemma stack_bias_frames_output_at_bias_frames :
  exists fs' hdr0 hdus,
    run (stack_bias_frames clip_nothing normalize_none no_dropped_row 0%Qc
           ["b1.fits"; "b2.fits"] kw_mean_one_extension) bias_fs
    = (Ok (), fs') /\
    fs' !! "./bias.fits" = Some (mk_hdu None hdr0 None :: hdus) /\
    length hdus = 1%nat.
Proof.
  assert (Hok : is_ok (run (stack_bias_frames clip_nothing normalize_none
                              no_dropped_row 0%Qc ["b1.fits"; "b2.fits"]
                              kw_mean_one_extension) bias_fs).1 = true)
    by (vm_compute; reflexivity).
  destruct (run (stack_bias_frames clip_nothing normalize_none
                   no_dropped_row 0%Qc ["b1.fits"; "b2.fits"]
                   kw_mean_one_extension) bias_fs)
    as [[[]|e] fs'] eqn:E; [ | discriminate Hok].
  clear Hok.
  destruct (stack_bias_frames_output clip_nothing normalize_none
              no_dropped_row 0%Qc ["b1.fits"; "b2.fits"]
              kw_mean_one_extension bias_fs fs')
    as (hdr0 & hdus & _ & Hfs' & _ & Hlen & _).
  - reflexivity.
  - apply (bool_decide_unpack _). vm_compute. exact I.
  - exact E.
  - exists fs', hdr0, hdus. split; [reflexivity | ].
    split; [exact Hfs' | exact Hlen].
Defined.

Lemma bok_fov_rebin_block_centres_at_binned_amp :
  exists binned xy',
    bok_fov_rebin_hdu binned_amp 2 (PyStr "image") None
    = Ok ("CCD1", mk_fov_entry xy' (inr binned)) /\
    px xy' 0 1 = Some (nZ 3, nZ 1).
Proof.
  destruct (bok_fov_rebin_block_centres binned_amp
              (map (map nZ) [[1; 2; 3; 4]; [5; 6; 7; 8]]) (PyStr "image")
              (map (map (fun ij : Z * Z => (nZ ij.2, nZ ij.1))) (indices 2 4))
              2 1 2)
    as (binned & xy' & Hrv & _ & _ & Hpx); [lia | lia | lia | | | | | | ].
  - reflexivity.
  - split; [reflexivity | repeat constructor].
  - vm_compute. reflexivity.
  - vm_compute. reflexivity.
  - apply (bool_decide_unpack _). vm_compute. exact I.
  - exists binned, xy'. split; [exact Hrv | ].
    rewrite (Hpx 0 1)%nat by lia.
    apply (bool_decide_unpack _). vm_compute. exact I.
Defined.
